(** * VisionAI4SchoolBus: the detection-to-actuation pipeline

    A shallow embedding of the qualification filter, the cooldown debounce
    and the activation controller of [main.py], of the post-processing of
    [src/detection/hailo_detector.py], of the device controller of
    [src/automation/home_assistant.py] and of the single-slot frame buffer
    of [src/camera/camera_manager.py], with the MQTT client, the
    configuration lookup and the performance monitor they use.

    Conventions.
    - Python floats (confidences, thresholds, clock readings) are embedded
      as exact rationals [Q]: every comparison the code performs is a
      comparison of two numbers, and the arithmetic is the exact one
      (rounding, NaN and infinities are outside the model).
    - Python ints are [Z].
    - A [dict] read with [.get(key, default)] is a record of [option]
      fields; the default is written where the code writes it.
    - A raised Python exception is the [Raise] constructor of [result];
      [try ... except Exception] is a [match] on it. *)

From Stdlib Require Import ZArith QArith Qminmax Qround Lqa Lia Bool List.
From Stdlib Require Import Ascii String.
From stdpp Require Import base gmap strings list sorting pretty.
From Equations Require Import Equations.
Import ListNotations.

Local Open Scope Z_scope.
Local Open Scope Q_scope.
Local Open Scope string_scope.

(** ** Decidable comparisons on rationals, as the code's [<], [>], [>=] *)

Definition Qltb (a b : Q) : bool := negb (Qle_bool b a).
Definition Qgtb (a b : Q) : bool := Qltb b a.
Definition Qgeb (a b : Q) : bool := Qle_bool b a.

#[global] Instance Qle_decision : RelDecision Qle.
Proof.
  intros a b. destruct (Qlt_le_dec b a) as [Hlt | Hle].
  - right. apply Qlt_not_le, Hlt.
  - left. exact Hle.
Defined.

#[global] Instance Qlt_decision : RelDecision Qlt.
Proof.
  intros a b. destruct (Qlt_le_dec a b) as [Hlt | Hle].
  - left. exact Hlt.
  - right. apply Qle_not_lt, Hle.
Defined.

(** ** Exceptions *)

Inductive result (A : Type) : Type :=
| Ok (a : A)
| Raise (e : string).
Arguments Ok {A} a.
Arguments Raise {A} e.

#[global] Instance result_ret : MRet result := fun A a => Ok a.

#[global] Instance result_bind : MBind result := fun A B k r =>
  match r with
  | Ok a => k a
  | Raise e => Raise e
  end.

(** ** Strings: [str.lower()] on the ASCII range *)

Definition lower_ascii (c : ascii) : ascii :=
  let n := nat_of_ascii c in
  if (Nat.leb 65 n && Nat.leb n 90)%bool then ascii_of_nat (n + 32) else c.

Fixpoint lower (s : string) : string :=
  match s with
  | EmptyString => EmptyString
  | String c s' => String (lower_ascii c) (lower s')
  end.

Fixpoint str_in (s : string) (l : list string) : bool :=
  match l with
  | [] => false
  | x :: l' => if String.eqb s x then true else str_in s l'
  end.

(** ** The detection dictionary shared by the detector and the controller *)

Record detection : Type := mkDetection {
  class_name : option string;
  confidence : option Q;
  bbox : option (Z * Z * Z * Z);
  class_id : option Z
}.

(** [dict.get(key, default)] *)
Definition get {A : Type} (field : option A) (default : A) : A :=
  match field with
  | Some v => v
  | None => default
  end.

(** * src/detection/hailo_detector.py *)

Module HailoDetector.

(** A frame, by its [shape]: rows and columns. *)
Record frame : Type := mkFrame {
  height : Z;
  width : Z
}.

(** One output tensor: batch, then candidate rows, then the row's floats. *)
Definition tensor : Type := list (list (list Q)).

Record detector : Type := mkDetector {
  min_confidence : Q;
  nms_threshold : Q;
  input_height : Z;     (* [input_shape[1]] *)
  input_width : Z;      (* [input_shape[2]] *)
  HAILO_AVAILABLE : bool;
  (** [None] when the attribute is unset; otherwise the inference of the
      accelerator on the tensor preprocessed from the frame, which
      returns the output tensors or raises. *)
  input_vstreams : option (frame -> result (list tensor))
}.

(** [_get_coco_class_names], keys 0..79 in order. *)
Definition class_names : list string :=
  ["person"; "bicycle"; "car"; "motorcycle"; "airplane";
   "bus"; "train"; "truck"; "boat"; "traffic light";
   "fire hydrant"; "stop sign"; "parking meter"; "bench";
   "bird"; "cat"; "dog"; "horse"; "sheep"; "cow";
   "elephant"; "bear"; "zebra"; "giraffe"; "backpack";
   "umbrella"; "handbag"; "tie"; "suitcase"; "frisbee";
   "skis"; "snowboard"; "sports ball"; "kite"; "baseball bat";
   "baseball glove"; "skateboard"; "surfboard"; "tennis racket";
   "bottle"; "wine glass"; "cup"; "fork"; "knife";
   "spoon"; "bowl"; "banana"; "apple"; "sandwich";
   "orange"; "broccoli"; "carrot"; "hot dog"; "pizza";
   "donut"; "cake"; "chair"; "couch"; "potted plant";
   "bed"; "dining table"; "toilet"; "tv"; "laptop";
   "mouse"; "remote"; "keyboard"; "cell phone"; "microwave";
   "oven"; "toaster"; "sink"; "refrigerator"; "book";
   "clock"; "vase"; "scissors"; "teddy bear"; "hair drier";
   "toothbrush"].

(** [self.class_names.get(class_id, f'class_{class_id}')] *)
Definition class_name_of (class_id : nat) : string :=
  match class_names !! class_id with
  | Some name => name
  | None => "class_" ++ pretty class_id
  end.

(** [int(x)] on a float: truncation toward zero.  The numbers of the
    model are finite and exact: [int] of an infinite or NaN float, which
    raises in the code (and [detect] then returns the empty list), has no
    counterpart here, and a corner that the code computes in floating
    point can differ by the last pixel from the exact one. *)
Definition int (q : Q) : Z := Z.quot (Qnum q) (Z.pos (Qden q)).

(** [np.argmax] past its first element: the running best index and value,
    replaced only by a strictly larger score. *)
Fixpoint argmax_from (best_i : nat) (best : Q) (i : nat) (l : list Q)
    : nat * Q :=
  match l with
  | [] => (best_i, best)
  | x :: rest =>
      if Qgtb x best then argmax_from i x (S i) rest
      else argmax_from best_i best (S i) rest
  end.

(** [np.argmax(class_scores)] with [class_scores[class_id]]; [ValueError]
    on an empty sequence. *)
Definition argmax (class_scores : list Q) : result (nat * Q) :=
  match class_scores with
  | [] => Raise "ValueError"
  | x :: rest => Ok (argmax_from 0%nat x 1%nat rest)
  end.

(** [max(0, min(v, dim - 1))] *)
Definition clamp (v dim : Z) : Z := Z.max 0 (Z.min v (dim - 1)).

(** The body of [for detection in output] for one row: [None] when the
    row adds nothing, the dictionary it appends otherwise. *)
Definition postprocess_row (self : detector)
    (original_height original_width : Z) (scale_x scale_y : Q)
    (row : list Q) : result (option detection) :=
  match row with
  | x_center :: y_center :: w :: h :: conf :: class_scores =>
      '(class_id, class_confidence) ← argmax class_scores;
      let final_confidence := conf * class_confidence in
      if Qgeb final_confidence (min_confidence self) then
        let x1 := int ((x_center - w / 2) * scale_x) in
        let y1 := int ((y_center - h / 2) * scale_y) in
        let x2 := int ((x_center + w / 2) * scale_x) in
        let y2 := int ((y_center + h / 2) * scale_y) in
        let x1 := clamp x1 original_width in
        let y1 := clamp y1 original_height in
        let x2 := clamp x2 original_width in
        let y2 := clamp y2 original_height in
        Ok (Some (mkDetection (Some (class_name_of class_id))
                              (Some final_confidence)
                              (Some (x1, y1, x2, y2))
                              (Some (Z.of_nat class_id))))
      else Ok None
  | _ => Ok None   (* [len(detection) < 5]: [continue] *)
  end.

(** The whole [for] loop, appending in row order. *)
Fixpoint postprocess_rows (self : detector)
    (original_height original_width : Z) (scale_x scale_y : Q)
    (output : list (list Q)) : result (list detection) :=
  match output with
  | [] => Ok []
  | row :: rest =>
      r ← postprocess_row self original_height original_width
                          scale_x scale_y row;
      ds ← postprocess_rows self original_height original_width
                            scale_x scale_y rest;
      Ok (match r with Some d => d :: ds | None => ds end)
  end.

(** A rectangle as [_apply_nms] hands it to OpenCV: x, y, width, height. *)
Definition rect : Type := (Q * Q * Q * Q)%type.

(** Modelled from the spec: intersection-over-union, the overlap ratio
    between two bounding boxes (glossary).  The routine that computes it
    lives in OpenCV, not in this repository.  A ratio over an empty union
    is 0 here, as [Qdiv] has it. *)
Definition iou (a b : rect) : Q :=
  let '(ax, ay, aw, ah) := a in
  let '(bx, by_, bw, bh) := b in
  let iw := Qmax 0 (Qmin (ax + aw) (bx + bw) - Qmax ax bx) in
  let ih := Qmax 0 (Qmin (ay + ah) (by_ + bh) - Qmax ay by_) in
  let inter := iw * ih in
  inter / (aw * ah + bw * bh - inter).

(** A candidate of the suppression: its index in the input, its
    rectangle and its score. *)
Definition candidate : Type := (nat * rect * Q)%type.
Definition cand_index (c : candidate) : nat := c.1.1.
Definition cand_rect (c : candidate) : rect := c.1.2.
Definition cand_score (c : candidate) : Q := c.2.

(** "By confidence descending". *)
Definition score_ge (a b : candidate) : Prop := cand_score b <= cand_score a.

#[global] Instance score_ge_decision : RelDecision score_ge.
Proof. intros a b. unfold score_ge. apply _. Defined.

(** Modelled from the spec: the greedy pass of section 4.2, step 4, over
    candidates already sorted: keep the highest remaining, discard every
    not-yet-discarded candidate whose rectangle overlaps the kept one with
    intersection-over-union above [nms_threshold], repeat until none
    remain. *)
Equations? greedy (thr : Q) (l : list candidate) : list candidate
    by wf (length l) lt :=
  greedy thr [] := [];
  greedy thr (c :: rest) :=
    c :: greedy thr
           (filter (fun c' => ~ thr < iou (cand_rect c) (cand_rect c'))
                   rest).
Proof.
  simpl. pose proof (length_filter
    (fun c' => ~ thr < iou (cand_rect c) (cand_rect c')) rest). lia.
Qed.

(** Modelled from the spec: [cv2.dnn.NMSBoxes], an OpenCV routine that is
    not part of this repository, as section 4.2, step 4 describes it:
    candidates below the score threshold do not take part, the others are
    sorted by confidence descending and go through the greedy pass; the
    result is the list of the kept indices. *)
Definition NMSBoxes (boxes : list rect) (scores : list Q)
    (score_threshold nms_threshold : Q) : list nat :=
  let cands : list candidate :=
    imap (fun i bs => (i, bs.1, bs.2)) (zip boxes scores) in
  let surviving := filter (fun c => score_threshold <= cand_score c) cands in
  let sorted := merge_sort score_ge surviving in
  cand_index <$> greedy nms_threshold sorted.

(** The conversion loop of [_apply_nms]: [det['bbox']] and
    [det['confidence']] raise [KeyError] on a dictionary without the key. *)
Definition to_xywh (bbox : Z * Z * Z * Z) : rect :=
  let '(x1, y1, x2, y2) := bbox in
  (inject_Z x1, inject_Z y1, inject_Z (x2 - x1), inject_Z (y2 - y1)).

Fixpoint boxes_and_scores (detections : list detection)
    : result (list rect * list Q) :=
  match detections with
  | [] => Ok ([], [])
  | det :: rest =>
      match bbox det, confidence det with
      | Some b, Some s =>
          '(boxes, scores) ← boxes_and_scores rest;
          Ok (to_xywh b :: boxes, s :: scores)
      | _, _ => Raise "KeyError"
      end
  end.

(** [for i in indices.flatten(): filtered_detections.append(detections[i])] *)
Fixpoint select (detections : list detection) (indices : list nat)
    : result (list detection) :=
  match indices with
  | [] => Ok []
  | i :: rest =>
      match detections !! i with
      | Some d => ds ← select detections rest; Ok (d :: ds)
      | None => Raise "IndexError"
      end
  end.

(** [HailoDetector._apply_nms] *)
Definition _apply_nms (self : detector) (detections : list detection)
    : result (list detection) :=
  match detections with
  | [] => Ok detections
  | _ =>
      '(boxes, scores) ← boxes_and_scores detections;
      let indices :=
        NMSBoxes boxes scores (min_confidence self) (nms_threshold self) in
      match indices with
      | [] => Ok []
      | _ => select detections indices
      end
  end.

(** [HailoDetector._postprocess_outputs]; [original_shape] is the frame.
    [outputs[0][0]] raises [IndexError] on an empty batch and the scale
    factors raise [ZeroDivisionError] on a zero input dimension. *)
Definition _postprocess_outputs (self : detector) (outputs : list tensor)
    (original_shape : frame) : result (list detection) :=
  match outputs with
  | [] => Ok []
  | first :: _ =>
      match first with
      | [] => Raise "IndexError"
      | output :: _ =>
          let original_height := height original_shape in
          let original_width := width original_shape in
          if (input_width self =? 0)%Z then Raise "ZeroDivisionError"
          else
            let scale_x :=
              inject_Z original_width / inject_Z (input_width self) in
            if (input_height self =? 0)%Z then Raise "ZeroDivisionError"
            else
              let scale_y :=
                inject_Z original_height / inject_Z (input_height self) in
              detections ← postprocess_rows self original_height
                              original_width scale_x scale_y output;
              _apply_nms self detections
      end
  end.

(** [HailoDetector._preprocess_frame], as far as it can fail:
    [cv2.resize] raises on an empty source image and on an empty target
    size.  The tensor it builds is the argument of the inference. *)
Definition _preprocess_frame (self : detector) (f : frame) : result frame :=
  if (height f <=? 0)%Z || (width f <=? 0)%Z
     || (input_height self <=? 0)%Z || (input_width self <=? 0)%Z
  then Raise "cv2.error"
  else Ok f.

(** [HailoDetector._detect_opencv_fallback] *)
Definition _detect_opencv_fallback (f : frame) : list detection := [].

(** The body of the [try] block of [detect]. *)
Definition detect_body (self : detector)
    (infer : frame -> result (list tensor)) (f : frame)
    : result (list detection) :=
  input_tensor ← _preprocess_frame self f;
  output_tensors ← infer input_tensor;
  _postprocess_outputs self output_tensors f.

(** [HailoDetector.detect].  The inference counters it updates on
    success play no part in what it returns and are left out. *)
Definition detect (self : detector) (f : frame) : list detection :=
  match HAILO_AVAILABLE self, input_vstreams self with
  | true, Some infer =>
      match detect_body self infer f with
      | Ok detections => detections
      | Raise _ => []
      end
  | _, _ => _detect_opencv_fallback f
  end.

End HailoDetector.

(** * src/automation/home_assistant.py *)

Module HomeAssistant.

(** The messages the controller hands to the gateway. *)
Inductive payload : Type :=
| LightOn        (* state ON, brightness 255, transition 1 *)
| LightOff       (* state OFF, transition 2 *)
| SwitchOn
| SwitchOff
| Announcement (message priority : string)
| Notification (title message : string)
| DetectionEvent (confidence : Q) (class_name : string)
                 (bbox : option (Z * Z * Z * Z)).

(** The actuator gateway ([MQTTClient]) as the controller consumes it:
    a connection status and a publish operation that reports success,
    reports failure or raises.  [W] is the state of the outside world. *)
Class Gateway (W : Type) : Type := {
  is_connected : W -> bool;
  publish : string -> payload -> W -> result bool * W;
  topic_prefix : string
}.

(** [MQTTClient.publish_announcement] *)
Definition publish_announcement `{Gateway W} (message priority : string)
    (w : W) : result bool * W :=
  publish (topic_prefix ++ "/announcement") (Announcement message priority) w.

(** [MQTTClient.publish_detection] *)
Definition publish_detection `{Gateway W} (d : detection) (w : W)
    : result bool * W :=
  publish (topic_prefix ++ "/detection")
          (DetectionEvent (get (confidence d) 0)
                          (get (class_name d) "unknown") (bbox d))
          w.

Record controller : Type := mkController {
  mqtt_client : bool;   (* [False] when the attribute is [None] *)
  lights : list string;
  switches : list string;
  voice_announcements : bool;
  announcement_message : string;
  activated_devices : gset string;
  activation_time : option Q
}.

Definition set_activated (s : gset string) (c : controller) : controller :=
  mkController (mqtt_client c) (lights c) (switches c)
    (voice_announcements c) (announcement_message c) s (activation_time c).

Definition set_activation_time (t : option Q) (c : controller) : controller :=
  mkController (mqtt_client c) (lights c) (switches c)
    (voice_announcements c) (announcement_message c) (activated_devices c) t.

Section WithGateway.
Context {W : Type} `{Gateway W}.

(** The common body of [_turn_on_light], [_turn_off_light],
    [_turn_on_switch] and [_turn_off_switch]: publish when a connected
    client is there, [True] only on a truthy result, and [False] on any
    exception. *)
Definition send_command (c : controller) (topic : string) (p : payload)
    (w : W) : bool * W :=
  if (mqtt_client c && is_connected w)%bool then
    match publish topic p w with
    | (Ok true, w') => (true, w')
    | (Ok false, w') => (false, w')
    | (Raise _, w') => (false, w')
    end
  else (false, w).

Definition _turn_on_light (c : controller) (light_entity : string) :=
  send_command c (light_entity ++ "/set") LightOn.

Definition _turn_off_light (c : controller) (light_entity : string) :=
  send_command c (light_entity ++ "/set") LightOff.

Definition _turn_on_switch (c : controller) (switch_entity : string) :=
  send_command c (switch_entity ++ "/set") SwitchOn.

Definition _turn_off_switch (c : controller) (switch_entity : string) :=
  send_command c (switch_entity ++ "/set") SwitchOff.

(** [_send_voice_announcement] *)
Definition _send_voice_announcement (c : controller) (w : W) : bool * W :=
  if (mqtt_client c && is_connected w)%bool then
    match publish_announcement (announcement_message c) "high" w with
    | (Ok b, w') => (b, w')
    | (Raise _, w') => (false, w')
    end
  else (false, w).

(** [_send_notification] *)
Definition _send_notification (c : controller) (title message : string)
    (w : W) : bool * W :=
  if (mqtt_client c && is_connected w)%bool then
    match publish "homeassistant/notify" (Notification title message) w with
    | (Ok b, w') => (b, w')
    | (Raise _, w') => (false, w')
    end
  else (false, w).

(** The running state of one of the device loops: the world, the tracked
    set, the success counter, and the outcome of every per-device command
    issued so far, oldest first. *)
Record loop_state : Type := mkLoop {
  world : W;
  tracked : gset string;
  success_count : nat;
  attempts : list (string * bool)
}.

(** One iteration of [for light in self.lights] / [for switch in
    self.switches] in [activate_devices]. *)
Definition activate_step (turn_on : string -> W -> bool * W)
    (ls : loop_state) (device : string) : loop_state :=
  let '(ok, w') := turn_on device (world ls) in
  if ok
  then mkLoop w' ({[device]} ∪ tracked ls) (S (success_count ls))
              (attempts ls ++ [(device, true)])
  else mkLoop w' (tracked ls) (success_count ls)
              (attempts ls ++ [(device, false)]).

(** [HomeAssistantController.activate_devices]; [now] is the reading of
    [time.time()].  Nothing in the body can raise, so the enclosing
    [try] never reaches its handler. *)
Definition activate_devices (c : controller) (now : Q) (w : W)
    : bool * controller * W * list (string * bool) :=
  let ls0 := mkLoop w (activated_devices c) 0 [] in
  let ls1 := foldl (activate_step (_turn_on_light c)) ls0 (lights c) in
  let ls2 := foldl (activate_step (_turn_on_switch c)) ls1 (switches c) in
  let w3 := if voice_announcements c
            then snd (_send_voice_announcement c (world ls2))
            else world ls2 in
  let w4 := snd (_send_notification c "School Bus Detected"
    ("A school bus has been detected in front of the house. "
     ++ "Smart devices have been activated.")
    w3) in
  let c' := set_activation_time (Some now) (set_activated (tracked ls2) c) in
  (Nat.ltb 0 (success_count ls2), c', w4, attempts ls2).

(** One iteration of [for device in devices_to_deactivate]. *)
Definition deactivate_step (c : controller) (ls : loop_state)
    (device : string) : loop_state :=
  if bool_decide (device ∈ lights c) then
    let '(ok, w') := _turn_off_light c device (world ls) in
    if ok
    then mkLoop w' (tracked ls ∖ {[device]}) (S (success_count ls))
                (attempts ls ++ [(device, true)])
    else mkLoop w' (tracked ls) (success_count ls)
                (attempts ls ++ [(device, false)])
  else if bool_decide (device ∈ switches c) then
    let '(ok, w') := _turn_off_switch c device (world ls) in
    if ok
    then mkLoop w' (tracked ls ∖ {[device]}) (S (success_count ls))
                (attempts ls ++ [(device, true)])
    else mkLoop w' (tracked ls) (success_count ls)
                (attempts ls ++ [(device, false)])
  else ls.

(** [HomeAssistantController.deactivate_devices].  The loop runs over a
    copy of the tracked set, here its enumeration [elements]; every
    [remove] is of an element still present, so it cannot raise. *)
Definition deactivate_devices (c : controller) (w : W)
    : bool * controller * W * list (string * bool) :=
  let devices_to_deactivate := elements (activated_devices c) in
  let ls := foldl (deactivate_step c) (mkLoop w (activated_devices c) 0 [])
                  devices_to_deactivate in
  let w' := if Nat.ltb 0 (success_count ls)
            then snd (_send_notification c "Devices Deactivated"
                        ("School bus detection timeout reached. "
                         ++ pretty (success_count ls)
                         ++ " devices have been deactivated.")
                        (world ls))
            else world ls in
  let c' := set_activation_time None (set_activated (tracked ls) c) in
  (Nat.ltb 0 (success_count ls), c', w', attempts ls).

(** [HomeAssistantController.emergency_stop] *)
Definition emergency_stop (c : controller) (w : W)
    : bool * controller * W * list (string * bool) :=
  let '(success, c1, w1, log) := deactivate_devices c w in
  let c2 := set_activated ∅ c1 in
  let c3 := set_activation_time None c2 in
  (success, c3, w1, log).

End WithGateway.

End HomeAssistant.

(** * main.py *)

Module Main.

(** The configuration keys the controller reads, each possibly absent. *)
Record config : Type := mkConfig {
  detection_min_confidence : option Q;
  detection_min_bus_size : option Q;
  detection_cooldown_seconds : option Q;
  automation_activation_duration_seconds : option Q
}.

(** [SchoolBusDetectionSystem.is_school_bus_detection] *)
Definition is_school_bus_detection (cfg : config) (d : detection) : bool :=
  if negb (str_in (lower (get (class_name d) "")) ["bus"; "school_bus"])
  then false
  else
    let min_confidence := get (detection_min_confidence cfg) (7 # 10) in
    if Qltb (get (confidence d) 0) min_confidence then false
    else
      let '(x1, y1, x2, y2) := get (bbox d) (0, 0, 0, 0)%Z in
      let width := (x2 - x1)%Z in
      let height := (y2 - y1)%Z in
      let min_size := get (detection_min_bus_size cfg) (1 # 10) in
      if Qltb (inject_Z (width * height)) min_size then false
      else true.

(** The mutable attributes of [SchoolBusDetectionSystem] that the
    detection loop reads and writes, with the device controller it owns. *)
Record system : Type := mkSystem {
  last_detection_time : Q;
  detection_cooldown : Q;
  devices_activated : bool;
  activation_start_time : Q;
  ha_controller : HomeAssistant.controller
}.

(** [__init__], for a given controller. *)
Definition init (ha : HomeAssistant.controller) : system :=
  mkSystem 0 30 false 0 ha.

(** The line of [initialize] that reads the cooldown. *)
Definition initialize (cfg : config) (s : system) : system :=
  mkSystem (last_detection_time s)
           (get (detection_cooldown_seconds cfg) 30)
           (devices_activated s) (activation_start_time s) (ha_controller s).

(** What an accepted detection leaves in the logs: the line of
    [logger.info] and the record of [log_detection]. *)
Inductive event : Type :=
| SchoolBusDetected (now : Q) (d : detection).

Section WithGateway.
Context {W : Type} `{HomeAssistant.Gateway W}.

(** The body of [if current_time - self.last_detection_time >
    self.detection_cooldown] in [process_detections].  The log line
    reads [detection['confidence']], a [KeyError] on a dictionary
    without the key, raised after [last_detection_time] is written;
    [publish_detection] goes through the client the device controller
    holds, and what it raises is not caught here. *)
Definition accept (current_time : Q) (d : detection) (s : system) (w : W)
    : result bool * system * W * list event :=
  let s' := mkSystem current_time (detection_cooldown s)
                     (devices_activated s) (activation_start_time s)
                     (ha_controller s) in
  match confidence d with
  | None => (Raise "KeyError", s', w, [])
  | Some _ =>
      let events := [SchoolBusDetected current_time d] in
      if (HomeAssistant.mqtt_client (ha_controller s)
          && HomeAssistant.is_connected w)%bool
      then
        match HomeAssistant.publish_detection d w with
        | (Ok _, w') => (Ok true, s', w', events)
        | (Raise e, w') => (Raise e, s', w', events)
        end
      else (Ok true, s', w, events)
  end.

(** [SchoolBusDetectionSystem.process_detections]; [current_time] is the
    reading of [time.time()].  The loop stops at the first detection that
    [is_school_bus_detection] accepts, whatever the cooldown decides.
    The result is what the method returns or raises, with the state, the
    gateway and the log entries it leaves. *)
Fixpoint process_detections (cfg : config) (current_time : Q)
    (detections : list detection) (s : system) (w : W)
    : result bool * system * W * list event :=
  match detections with
  | [] => (Ok false, s, w, [])
  | d :: rest =>
      if is_school_bus_detection cfg d then
        if Qgtb (current_time - last_detection_time s) (detection_cooldown s)
        then accept current_time d s w
        else (Ok false, s, w, [])
      else process_detections cfg current_time rest s w
  end.

(** [SchoolBusDetectionSystem.handle_device_control]; [current_time] is
    its own reading of [time.time()] and [ha_time] the one taken inside
    [activate_devices]. *)
Definition handle_device_control (cfg : config) (current_time ha_time : Q)
    (bus_detected : bool) (s : system) (w : W)
    : system * W * list (string * bool) :=
  let activation_duration :=
    get (automation_activation_duration_seconds cfg) 300 in
  if (bus_detected && negb (devices_activated s))%bool then
    let '(_, ha', w', log) :=
      HomeAssistant.activate_devices (ha_controller s) ha_time w in
    (mkSystem (last_detection_time s) (detection_cooldown s)
              true current_time ha', w', log)
  else if devices_activated s then
    if Qgtb (current_time - activation_start_time s) activation_duration
    then
      let '(_, ha', w', log) :=
        HomeAssistant.deactivate_devices (ha_controller s) w in
      (mkSystem (last_detection_time s) (detection_cooldown s)
                false (activation_start_time s) ha', w', log)
    else (s, w, [])
  else (s, w, []).

End WithGateway.

End Main.

(** * src/camera/camera_manager.py *)

Module Camera.

(** Frames are numpy arrays: objects of a heap, known by their address,
    so that two names of one array can be told from two arrays of equal
    content.  The content is the array's bytes. *)
Notation address := nat (only parsing).
Notation pixels := (list Z) (only parsing).

Inductive thread : Type := Producer | Consumer.

(** Where the capture thread is in [_capture_loop]. *)
Inductive producer_pc : Type :=
| PTop                          (* before [self.cap.read()] *)
| PHasFrame (frame : address)   (* [frame] read, before the [with] *)
| PLocked (frame : address)     (* lock held, before the assignment *)
| PStored.                      (* assignment done, lock still held *)

(** Where the detection thread is in [get_frame]. *)
Inductive consumer_pc : Type :=
| CIdle                              (* not in [get_frame] *)
| CWaiting                           (* flags checked, before the [with] *)
| CLocked                            (* lock held, before the copy *)
| CCopied (result : option address). (* value to return, lock still held *)

Record state : Type := mkState {
  heap : gmap address pixels;
  latest_frame : option address;      (* [None] or the array it names *)
  frame_lock : option thread;         (* the holder, if any *)
  is_initialized : bool;
  is_capturing : bool;
  producer : producer_pc;
  consumer : consumer_pc;
  returned : list address             (* what [get_frame] has handed out *)
}.

(** [CameraManager.__init__] followed by a successful [initialize] and
    [start_capture]. *)
Definition init : state :=
  mkState ∅ None None true true PTop CIdle [].

(** [array.copy()]: a new array with the bytes of the old one. *)
Definition copy (a : address) (h : gmap address pixels)
    : address * gmap address pixels :=
  let a' := fresh (dom h) in
  (a', <[a' := default [] (h !! a)]> h).

(** One thread takes its next step.  [ProducerStep cam] carries what
    [self.cap.read()] would answer, should the step be the read:
    [Some px] for a new array of content [px], [None] for a failed read. *)
Inductive event : Type :=
| ProducerStep (cam : option pixels)
| ConsumerStep.

(** One step of [_capture_loop]. *)
Definition producer_step (cam : option pixels) (s : state) : state :=
  match producer s with
  | PTop =>
      if is_capturing s then
        match cam with
        | Some px =>
            let a := fresh (dom (heap s)) in
            mkState (<[a := px]> (heap s)) (latest_frame s) (frame_lock s)
                    (is_initialized s) (is_capturing s) (PHasFrame a)
                    (consumer s) (returned s)
        | None => s    (* [time.sleep(0.01)] and around again *)
        end
      else s
  | PHasFrame frame =>
      match frame_lock s with
      | None =>
          mkState (heap s) (latest_frame s) (Some Producer)
                  (is_initialized s) (is_capturing s) (PLocked frame)
                  (consumer s) (returned s)
      | Some _ => s    (* blocked on the lock *)
      end
  | PLocked frame =>
      let '(a', h') := copy frame (heap s) in
      mkState h' (Some a') (frame_lock s)
              (is_initialized s) (is_capturing s) PStored
              (consumer s) (returned s)
  | PStored =>
      mkState (heap s) (latest_frame s) None
              (is_initialized s) (is_capturing s) PTop
              (consumer s) (returned s)
  end.

(** One step of [get_frame], called again and again by the detection
    loop. *)
Definition consumer_step (s : state) : state :=
  match consumer s with
  | CIdle =>
      if (negb (is_initialized s) || negb (is_capturing s))%bool
      then s   (* [return None] *)
      else mkState (heap s) (latest_frame s) (frame_lock s)
                   (is_initialized s) (is_capturing s) (producer s)
                   CWaiting (returned s)
  | CWaiting =>
      match frame_lock s with
      | None =>
          mkState (heap s) (latest_frame s) (Some Consumer)
                  (is_initialized s) (is_capturing s) (producer s)
                  CLocked (returned s)
      | Some _ => s    (* blocked on the lock *)
      end
  | CLocked =>
      match latest_frame s with
      | Some a =>
          let '(a', h') := copy a (heap s) in
          mkState h' (latest_frame s) (frame_lock s)
                  (is_initialized s) (is_capturing s) (producer s)
                  (CCopied (Some a')) (returned s)
      | None =>
          mkState (heap s) (latest_frame s) (frame_lock s)
                  (is_initialized s) (is_capturing s) (producer s)
                  (CCopied None) (returned s)
      end
  | CCopied result =>
      mkState (heap s) (latest_frame s) None
              (is_initialized s) (is_capturing s) (producer s)
              CIdle (option_list result ++ returned s)
  end.

Definition step (s : state) (e : event) : state :=
  match e with
  | ProducerStep cam => producer_step cam s
  | ConsumerStep => consumer_step s
  end.

(** An interleaving of the two threads, from a state. *)
Definition run (schedule : list event) (s : state) : state :=
  foldl step s schedule.

End Camera.

(** * Vocabulary of the statements *)

(** The area of the detection's box in pixels, as
    [is_school_bus_detection] computes it. *)
Definition pixel_area (d : detection) : Z :=
  let '(x1, y1, x2, y2) := get (bbox d) (0, 0, 0, 0)%Z in
  ((x2 - x1) * (y2 - y1))%Z.

(** The size measure of the specification: the area of the box divided by
    the area of the frame. *)
Definition normalized_bbox_area (d : detection) (frame_width frame_height : Z)
    : Q :=
  inject_Z (pixel_area d) / inject_Z (frame_width * frame_height).

(** A bus seen in a corner of a 1280x720 frame: one pixel. *)
Definition one_pixel_bus : detection :=
  mkDetection (Some "bus") (Some (9 # 10)) (Some (0, 0, 1, 1)%Z) (Some 5%Z).

(** A configuration with none of the keys: the defaults written in the
    code apply (0.7, 0.1, 30 and 300). *)
Definition default_config : Main.config :=
  Main.mkConfig None None None None.

(** The first detection of a frame that passes the class, confidence and
    size gates: the one [process_detections] stops at. *)
Definition first_school_bus (cfg : Main.config) (detections : list detection)
    : option detection :=
  List.find (Main.is_school_bus_detection cfg) detections.

(** The detection loop over a timeline of ticks, each a clock reading
    and the detections of its frame: the log entries each tick leaves,
    one for an accepted event and none otherwise.  A tick that raises is
    followed by the next one, as in [run_detection_loop]. *)
Fixpoint accepted_ticks {W : Type} `{HomeAssistant.Gateway W}
    (cfg : Main.config) (ticks : list (Q * list detection))
    (s : Main.system) (w : W) : list (list Main.event) :=
  match ticks with
  | [] => []
  | (now, detections) :: rest =>
      let '(_, s', w', events) :=
        Main.process_detections cfg now detections s w in
      events :: accepted_ticks cfg rest s' w'
  end.

(** A gateway for examples: the outcomes of the successive [publish]
    calls are scripted, and every call is recorded; once the script is
    exhausted a call reports failure. *)
Record scripted_world : Type := mkWorld {
  connected : bool;
  script : list (result bool);
  published : list (string * HomeAssistant.payload)
}.

#[global] Instance scripted_gateway : HomeAssistant.Gateway scripted_world := {
  HomeAssistant.is_connected w := connected w;
  HomeAssistant.publish topic p w :=
    match script w with
    | [] => (Ok false, mkWorld (connected w) [] (published w ++ [(topic, p)]))
    | r :: rest =>
        (r, mkWorld (connected w) rest (published w ++ [(topic, p)]))
    end;
  HomeAssistant.topic_prefix := "schoolbus"
}.

(** A controller with two lights and one switch, nothing tracked. *)
Definition porch_controller : HomeAssistant.controller :=
  HomeAssistant.mkController true
    ["light.porch"; "light.hall"] ["switch.siren"]
    true "School bus detected in front of the house" ∅ None.

(** A bus filling a good part of the frame. *)
Definition big_bus : detection :=
  mkDetection (Some "bus") (Some (82 # 100)) (Some (100, 100, 600, 400)%Z)
              (Some 5%Z).

(** A car, very confidently. *)
Definition confident_car : detection :=
  mkDetection (Some "car") (Some (95 # 100)) (Some (100, 100, 600, 400)%Z)
              (Some 2%Z).

(** The devices whose command a log records as successful. *)
Definition succeeded (log : list (string * bool)) : list string :=
  (filter (fun p => p.2 = true) log).*1.

(** A device the deactivation loop has a command for. *)
Definition configured (c : HomeAssistant.controller) (device : string) : Prop :=
  device ∈ HomeAssistant.lights c \/ device ∈ HomeAssistant.switches c.

#[global] Instance configured_decision (c : HomeAssistant.controller)
    (device : string) : Decision (configured c device).
Proof. unfold configured. apply _. Defined.

(** The control step over a timeline of ticks, each a clock reading and
    whether its frame carried an accepted event: the activation state
    after each tick. *)
Fixpoint control_ticks {W : Type} `{HomeAssistant.Gateway W}
    (cfg : Main.config) (ticks : list (Q * bool)) (s : Main.system) (w : W)
    : list bool :=
  match ticks with
  | [] => []
  | (now, bus_detected) :: rest =>
      let '(s', w', _) :=
        Main.handle_device_control cfg now now bus_detected s w in
      Main.devices_activated s' :: control_ticks cfg rest s' w'
  end.

(** The activation window in force. *)
Definition activation_duration (cfg : Main.config) : Q :=
  get (Main.automation_activation_duration_seconds cfg) 300.

(** A controller tracking a light and a switch it turned on, and a fan
    that is no longer in its configuration. *)
Definition tracking_controller : HomeAssistant.controller :=
  HomeAssistant.mkController true
    ["light.porch"; "light.hall"] ["switch.siren"]
    true "School bus detected in front of the house"
    {[ "light.porch"; "switch.siren"; "fan.attic" ]} (Some 0).

(** The system 300 seconds into an activation started at clock reading 0. *)
Definition active_since_0 : Main.system :=
  Main.mkSystem 0 30 true 0 tracking_controller.

(** A connected gateway on which every command succeeds. *)
Definition obliging_world : scripted_world :=
  mkWorld true [Ok true; Ok true; Ok true; Ok true; Ok true; Ok true] [].

(** An idle system just initialised. *)
Definition idle_system : Main.system :=
  Main.initialize default_config (Main.init porch_controller).

(** The candidate rows the accelerator returned for a frame: the first
    batch entry of the first output tensor. *)
Definition raw_rows (self : HailoDetector.detector) (f : HailoDetector.frame)
    : list (list Q) :=
  match HailoDetector.input_vstreams self with
  | Some infer =>
      match infer f with
      | Ok ((output :: _) :: _) => output
      | _ => []
      end
  | None => []
  end.

(** The rectangle [_apply_nms] builds for a detection. *)
Definition rect_of (d : detection) : HailoDetector.rect :=
  HailoDetector.to_xywh (get (bbox d) (0, 0, 0, 0)%Z).

(** A detector on a 640x640 model whose accelerator answers every frame
    with the given output tensors or exception. *)
Definition detector_answering (answer : result (list HailoDetector.tensor))
    : HailoDetector.detector :=
  HailoDetector.mkDetector (7 # 10) (45 # 100) 640 640 true
    (Some (fun _ => answer)).

(** Two candidates on the same object and one elsewhere; the first has an
    objectness of 2. *)
Definition loud_rows : list (list Q) :=
  [ [100; 100; 40; 40; 2; 1; 1 # 2];
    [102; 100; 40; 40; 9 # 10; 1; 1 # 2];
    [400; 400; 40; 40; 9 # 10; 1 # 2; 1] ].

Definition hd_frame : HailoDetector.frame := HailoDetector.mkFrame 720 1280.

(** What a detection appended by the row loop looks like. *)
Definition from_row (self : HailoDetector.detector)
    (f : HailoDetector.frame) (row : list Q) (d : detection) : Prop :=
  exists (x_center y_center w h objectness : Q) (class_scores : list Q)
         (k : nat) (best : Q) (x1 y1 x2 y2 : Z),
    row = x_center :: y_center :: w :: h :: objectness :: class_scores
    /\ HailoDetector.argmax class_scores = Ok (k, best)
    /\ confidence d = Some (objectness * best)
    /\ class_id d = Some (Z.of_nat k)
    /\ class_name d = Some (HailoDetector.class_name_of k)
    /\ HailoDetector.min_confidence self <= objectness * best
    /\ bbox d = Some (x1, y1, x2, y2)
    /\ x1 = HailoDetector.clamp x1 (HailoDetector.width f)
    /\ x2 = HailoDetector.clamp x2 (HailoDetector.width f)
    /\ y1 = HailoDetector.clamp y1 (HailoDetector.height f)
    /\ y2 = HailoDetector.clamp y2 (HailoDetector.height f).


(** The detection the third of [loud_rows] becomes on [hd_frame]. *)
Definition kept_bicycle : detection :=
  mkDetection (Some "bicycle") (Some (9 # 10))
              (Some (760, 427, 840, 472)%Z) (Some 1%Z).

(** The detection the first of [loud_rows] becomes on [hd_frame]. *)
Definition loud_person : detection :=
  mkDetection (Some "person") (Some 2) (Some (160, 90, 240, 135)%Z)
              (Some 0%Z).

(** A second box on the person of [loud_person], two pixels to the right
    and less confident. *)
Definition quiet_person : detection :=
  mkDetection (Some "person") (Some (9 # 10)) (Some (164, 90, 244, 135)%Z)
              (Some 0%Z).

(** A row with a box and an objectness and no class score. *)
Definition classless_rows : list (list Q) := [ [100; 100; 40; 40; 9 # 10] ].










(** A schedule in which the camera delivers two frames and the detection
    loop fetches one in between. *)
Definition two_frames_one_fetch : list Camera.event :=
  [Camera.ProducerStep (Some [1; 2; 3]%Z); Camera.ProducerStep None;
   Camera.ConsumerStep; Camera.ProducerStep None; Camera.ProducerStep None;
   Camera.ConsumerStep; Camera.ConsumerStep;
   Camera.ProducerStep (Some [4; 5; 6]%Z); Camera.ProducerStep None;
   Camera.ConsumerStep; Camera.ProducerStep None;
   Camera.ProducerStep None; Camera.ProducerStep None].

(** Two candidates the greedy pass can keep together: the overlap of
    their rectangles is not above the threshold. *)
Definition apart (thr : Q) (a b : HailoDetector.candidate) : Prop :=
  ~ thr < HailoDetector.iou (HailoDetector.cand_rect a)
                            (HailoDetector.cand_rect b).

(** * src/utils/config_manager.py *)

Module ConfigManager.

(** What [yaml.safe_load] builds: scalars, sequences and mappings with
    string keys. *)
#[warnings="-register-all"]
Inductive value : Type :=
| VNone
| VBool (b : bool)
| VNum (q : Q)
| VStr (s : string)
| VList (l : list value)
| VDict (m : gmap string value).

(** [key.split('.')]: the pieces between the dots, empty pieces included;
    never the empty list. *)
Fixpoint split (key : string) : list string :=
  match key with
  | EmptyString => [EmptyString]
  | String c rest =>
      if Ascii.eqb c "."%char then EmptyString :: split rest
      else match split rest with
           | piece :: pieces => String c piece :: pieces
           | [] => [String c EmptyString]
           end
  end.

(** [value[k]] for a string [k]: a mapping answers or raises [KeyError],
    anything else raises [TypeError]. *)
Definition subscript (v : value) (k : string) : result value :=
  match v with
  | VDict m =>
      match m !! k with
      | Some v' => Ok v'
      | None => Raise "KeyError"
      end
  | _ => Raise "TypeError"
  end.

(** [for k in keys: value = value[k]] *)
Fixpoint walk (v : value) (keys : list string) : result value :=
  match keys with
  | [] => Ok v
  | k :: rest => v' ← subscript v k; walk v' rest
  end.

(** [ConfigManager.get]; [config_data] is the loaded tree. *)
Definition get (config_data : value) (key : string) (default : value)
    : value :=
  match walk config_data (split key) with
  | Ok v => v
  | Raise _ => default   (* [except (KeyError, TypeError)] *)
  end.

End ConfigManager.

(** A dotted key, from its pieces. *)
Fixpoint dotted (pieces : list string) : string :=
  match pieces with
  | [] => ""
  | [piece] => piece
  | piece :: rest => piece ++ "." ++ dotted rest
  end.

(** A piece of a key: a string without a dot. *)
Fixpoint dot_free (s : string) : bool :=
  match s with
  | EmptyString => true
  | String c rest => negb (Ascii.eqb c "."%char) && dot_free rest
  end.

(** A configuration file with a [detection] section. *)
Definition sample_config : ConfigManager.value :=
  ConfigManager.VDict
    {[ "detection" :=
         ConfigManager.VDict
           {[ "min_confidence" := ConfigManager.VNum (8 # 10);
              "cooldown_seconds" := ConfigManager.VNone ]};
       "camera" := ConfigManager.VStr "usb" ]}.

(** * src/automation/home_assistant.py, the device lists *)

Module HomeAssistantDevices.
Import HomeAssistant.

Definition set_lights (l : list string) (c : controller) : controller :=
  mkController (mqtt_client c) l (switches c)
    (voice_announcements c) (announcement_message c)
    (activated_devices c) (activation_time c).

Definition set_switches (l : list string) (c : controller) : controller :=
  mkController (mqtt_client c) (lights c) l
    (voice_announcements c) (announcement_message c)
    (activated_devices c) (activation_time c).

(** [HomeAssistantController.__init__] on the configured lists. *)
Definition init (client : bool) (lights switches : list string)
    (voice : bool) (message : string) : controller :=
  mkController client lights switches voice message ∅ None.

(** [list.remove(x)]: the first occurrence goes. *)
Fixpoint list_remove (x : string) (l : list string) : list string :=
  match l with
  | [] => []
  | y :: rest => if String.eqb x y then rest else y :: list_remove x rest
  end.

(** [HomeAssistantController.add_device] *)
Definition add_device (device_type entity_id : string) (c : controller)
    : bool * controller :=
  if String.eqb device_type "light" then
    if negb (bool_decide (entity_id ∈ lights c))
    then (true, set_lights (lights c ++ [entity_id]) c)
    else (false, c)     (* "already exists" *)
  else if String.eqb device_type "switch" then
    if negb (bool_decide (entity_id ∈ switches c))
    then (true, set_switches (switches c ++ [entity_id]) c)
    else (false, c)
  else (false, c).      (* "Unknown device type" *)

(** [HomeAssistantController.remove_device] *)
Definition remove_device (device_type entity_id : string) (c : controller)
    : bool * controller :=
  if String.eqb device_type "light" && bool_decide (entity_id ∈ lights c)
  then
    let c1 := set_lights (list_remove entity_id (lights c)) c in
    let c2 := if bool_decide (entity_id ∈ activated_devices c1)
              then set_activated (activated_devices c1 ∖ {[entity_id]}) c1
              else c1 in
    (true, c2)
  else if String.eqb device_type "switch"
          && bool_decide (entity_id ∈ switches c)
  then
    let c1 := set_switches (list_remove entity_id (switches c)) c in
    let c2 := if bool_decide (entity_id ∈ activated_devices c1)
              then set_activated (activated_devices c1 ∖ {[entity_id]}) c1
              else c1 in
    (true, c2)
  else (false, c).

(** The keys [update_configuration] reads from the dictionary it is
    given, each possibly absent. *)
Record update : Type := mkUpdate {
  new_lights : option (list string);       (* [devices.lights] *)
  new_switches : option (list string);     (* [devices.switches] *)
  new_voice_announcements : option bool;
  new_announcement_message : option string
}.

(** [HomeAssistantController.update_configuration] *)
Definition update_configuration (u : update) (c : controller) : controller :=
  mkController (mqtt_client c)
    (get (new_lights u) (lights c))
    (get (new_switches u) (switches c))
    (get (new_voice_announcements u) (voice_announcements c))
    (get (new_announcement_message u) (announcement_message c))
    (activated_devices c) (activation_time c).

Section WithGateway.
Context {W : Type} `{Gateway W}.

(** One iteration of a loop of [test_devices]: on, then off whatever the
    on gave, and the conjunction recorded under the device. *)
Definition test_step (turn_on turn_off : string -> W -> bool * W)
    (acc : gmap string bool * W) (device : string) : gmap string bool * W :=
  let '(results, w) := acc in
  let '(on_ok, w1) := turn_on device w in
  let '(off_ok, w2) := turn_off device w1 in
  (<[device := on_ok && off_ok]> results, w2).

(** [HomeAssistantController.test_devices] *)
Definition test_devices (c : controller) (w : W) : gmap string bool * W :=
  let acc1 := foldl (test_step (_turn_on_light c) (_turn_off_light c))
                    (∅, w) (lights c) in
  foldl (test_step (_turn_on_switch c) (_turn_off_switch c))
        acc1 (switches c).

End WithGateway.

End HomeAssistantDevices.

(** Every tracked device is a configured light or switch. *)
Definition tracked_configured (c : HomeAssistant.controller) : Prop :=
  forall d : string, d ∈ HomeAssistant.activated_devices c -> configured c d.

(** The operations that change a controller, apart from the replacement
    of its configuration. *)
Inductive controller_op : Type :=
| OpActivate (now : Q)
| OpDeactivate
| OpEmergencyStop
| OpAddDevice (device_type entity_id : string)
| OpRemoveDevice (device_type entity_id : string).

Definition apply_op {W : Type} `{HomeAssistant.Gateway W}
    (cw : HomeAssistant.controller * W) (op : controller_op)
    : HomeAssistant.controller * W :=
  let '(c, w) := cw in
  match op with
  | OpActivate now =>
      let '(_, c', w', _) := HomeAssistant.activate_devices c now w in (c', w')
  | OpDeactivate =>
      let '(_, c', w', _) := HomeAssistant.deactivate_devices c w in (c', w')
  | OpEmergencyStop =>
      let '(_, c', w', _) := HomeAssistant.emergency_stop c w in (c', w')
  | OpAddDevice device_type entity_id =>
      ((HomeAssistantDevices.add_device device_type entity_id c).2, w)
  | OpRemoveDevice device_type entity_id =>
      ((HomeAssistantDevices.remove_device device_type entity_id c).2, w)
  end.

(** A controller tracking a light and a switch it turned on. *)
Definition tracking_two : HomeAssistant.controller :=
  HomeAssistant.mkController true
    ["light.porch"; "light.hall"] ["switch.siren"]
    true "School bus detected in front of the house"
    {[ "light.porch"; "switch.siren" ]} (Some 0).

(** A new configuration that keeps the hall light only. *)
Definition hall_only : HomeAssistantDevices.update :=
  HomeAssistantDevices.mkUpdate (Some ["light.hall"]) (Some []) None None.

(** A log in which every command failed. *)
Definition all_failed (devices : list string) : list (string * bool) :=
  (fun d => (d, false)) <$> devices.

(** * src/automation/mqtt_client.py *)

Module MQTTClient.

(** The paho client the wrapper drives: [client.publish(topic, payload,
    qos, retain)] answers with a result code or raises.  [B] is the state
    of the connection and the broker, [P] what is published. *)
Class Broker (P B : Type) : Type := {
  client_publish : string -> P -> Z -> bool -> B -> result Z * B
}.

(** The attributes of [MQTTClient] that its methods read and write. *)
Record client : Type := mkClient {
  client_set : bool;     (* [self.client is not None] *)
  connected : bool;
  qos : Z;
  retain : bool
}.

Definition set_connected (b : bool) (m : client) : client :=
  mkClient (client_set m) b (qos m) (retain m).

(** [MQTTClient.is_connected] *)
Definition is_connected (m : client) : bool :=
  connected m && client_set m.

Section WithBroker.
Context {P B : Type} `{Broker P B}.

(** [MQTTClient.publish]; the conversion of the payload to text is left
    to the broker side. *)
Definition publish (topic : string) (payload : P)
    (qos_arg : option Z) (retain_arg : option bool) (w : client * B)
    : bool * (client * B) :=
  let '(m, b) := w in
  if negb (connected m) || negb (client_set m) then (false, w)
  else
    let q := get qos_arg (qos m) in
    let r := get retain_arg (retain m) in
    match client_publish topic payload q r b with
    | (Ok rc, b') => ((rc =? 0)%Z, (m, b'))
    | (Raise _, b') => (false, (m, b'))
    end.

(** [MQTTClient.disconnect] *)
Definition disconnect (w : client * B) : client * B :=
  let '(m, b) := w in
  if client_set m then (set_connected false m, b) else w.

(** [MQTTClient._on_connect] and [MQTTClient._on_disconnect], the
    callbacks of the network loop. *)
Definition _on_connect (rc : Z) (m : client) : client :=
  if (rc =? 0)%Z then set_connected true m else m.

Definition _on_disconnect (rc : Z) (m : client) : client :=
  set_connected false m.

End WithBroker.

(** The wrapper as the gateway of the device controller. *)
Definition gateway {B : Type} `{Broker HomeAssistant.payload B}
    (prefix : string) : HomeAssistant.Gateway (client * B) := {|
  HomeAssistant.is_connected w := is_connected w.1;
  HomeAssistant.publish topic p w :=
    let '(ok, w') := publish topic p None None w in (Ok ok, w');
  HomeAssistant.topic_prefix := prefix
|}.

End MQTTClient.

(** * main.py, the loop body and the shutdown *)

Module MainLoop.
Import Main.

Section WithGateway.
Context {W : Type} `{HomeAssistant.Gateway W}.

(** One pass of the [while] of [run_detection_loop]: [frame] is what
    [get_frame] returned, [t_process], [t_control] and [t_activate] the
    clock readings of [process_detections], [handle_device_control] and
    [activate_devices].  The call of the monitor's [update_metrics]
    between the two, which touches the monitor only, is left out.  What
    [process_detections] raises is caught by the [except] of the loop,
    and the control step of that pass is skipped. *)
Definition loop_iteration (cfg : config) (detector : HailoDetector.detector)
    (frame : option HailoDetector.frame) (t_process t_control t_activate : Q)
    (s : system) (w : W) : system * W * list event :=
  match frame with
  | None => (s, w, [])     (* [time.sleep(0.1); continue] *)
  | Some f =>
      let detections := HailoDetector.detect detector f in
      let '(outcome, s1, w1, events) :=
        process_detections cfg t_process detections s w in
      match outcome with
      | Ok school_bus_detected =>
          let '(s2, w2, _) :=
            handle_device_control cfg t_control t_activate
                                  school_bus_detected s1 w1 in
          (s2, w2, events)
      | Raise _ => (s1, w1, events)   (* [except Exception], logged *)
      end
  end.

End WithGateway.

Section WithBroker.
Context {B : Type} `{MQTTClient.Broker HomeAssistant.payload B}.

(** The end of [SchoolBusDetectionSystem.stop]: the client is
    disconnected, then the devices still activated are deactivated
    through the controller, which holds the same client. *)
Definition stop (prefix : string) (s : system) (w : MQTTClient.client * B)
    : system * (MQTTClient.client * B) * list (string * bool) :=
  let w1 := MQTTClient.disconnect w in
  if devices_activated s then
    let '(_, ha', w2, log) :=
      @HomeAssistant.deactivate_devices _ (MQTTClient.gateway prefix)
        (ha_controller s) w1 in
    (mkSystem (last_detection_time s) (detection_cooldown s)
              (devices_activated s) (activation_start_time s) ha', w2, log)
  else (s, w1, []).

End WithBroker.

End MainLoop.

(** A broker for examples that accepts everything and counts what it
    was sent. *)
#[global] Instance counting_broker
    : MQTTClient.Broker HomeAssistant.payload nat := {
  MQTTClient.client_publish topic p q r n := (Ok 0%Z, S n)
}.

Definition online_client : MQTTClient.client :=
  MQTTClient.mkClient true true 1 true.

(** * src/utils/performance_monitor.py *)

Module PerformanceMonitor.

(** [collections.deque(maxlen=n).append(x)] on a deque of at most [n]
    elements: [x] goes to the right and what exceeds [n] falls off the
    left. *)
Definition deque_append {A : Type} (maxlen : nat) (x : A) (l : list A)
    : list A :=
  drop (length (l ++ [x]) - maxlen) (l ++ [x]).

(** The dictionary [log_detection] stores. *)
Record detection_data : Type := mkDetectionData {
  dd_timestamp : Q;
  dd_confidence : Q;
  dd_class_name : string;
  dd_bbox : option (Z * Z * Z * Z);   (* [None] for the default [[]] *)
  dd_frame_number : nat
}.

Record monitor : Type := mkMonitor {
  enabled : bool;
  inference_times : list Q;                  (* [deque(maxlen=1000)] *)
  detection_history : list detection_data;   (* [deque(maxlen=100)] *)
  fps_history : list Q;                      (* [deque(maxlen=100)] *)
  total_frames_processed : nat;
  total_detections : nat;
  true_positives : nat;
  false_positives : nat;
  startup_time : Q
}.

(** The counters and windows of [__init__]. *)
Definition init (is_enabled : bool) (now : Q) : monitor :=
  mkMonitor is_enabled [] [] [] 0 0 0 0 now.

(** [PerformanceMonitor.update_metrics], with [_log_bus_detection]
    inlined. *)
Definition update_metrics (inference_time : Q) (detections_count : nat)
    (bus_detected : bool) (m : monitor) : monitor :=
  if negb (enabled m) then m
  else
    mkMonitor (enabled m)
      (deque_append 1000 inference_time (inference_times m))
      (detection_history m)
      (if Qgtb inference_time 0
       then deque_append 100 (1 / inference_time) (fps_history m)
       else fps_history m)
      (total_frames_processed m + 1)
      (total_detections m + detections_count)
      (if bus_detected then true_positives m + 1 else true_positives m)
      (false_positives m)
      (startup_time m).

(** [PerformanceMonitor.log_detection]; the image it may write to disk is
    not part of the state. *)
Definition log_detection (now : Q) (d : detection) (m : monitor) : monitor :=
  if negb (enabled m) then m
  else
    let data := mkDetectionData now (get (confidence d) 0)
                  (get (class_name d) "unknown") (bbox d)
                  (total_frames_processed m) in
    mkMonitor (enabled m) (inference_times m)
      (deque_append 100 data (detection_history m))
      (fps_history m) (total_frames_processed m) (total_detections m)
      (true_positives m) (false_positives m) (startup_time m).

(** [PerformanceMonitor.reset_metrics] *)
Definition reset_metrics (now : Q) (m : monitor) : monitor :=
  mkMonitor (enabled m) [] [] [] 0 0 0 0 now.

(** [sum(l)], [max(l)] and [min(l)] on floats. *)
Definition sum (l : list Q) : Q := foldr Qplus 0 l.

Fixpoint maximum (x : Q) (l : list Q) : Q :=
  match l with
  | [] => x
  | y :: rest => maximum (if Qgtb y x then y else x) rest
  end.

Fixpoint minimum (x : Q) (l : list Q) : Q :=
  match l with
  | [] => x
  | y :: rest => minimum (if Qltb y x then y else x) rest
  end.

(** The average, largest and smallest of a window, all 0 on an empty
    one.  The numbers of the model are exact: the average here is the
    exact quotient, where the code's is the nearest float, which can
    fall a rounding error outside the window's extremes; no statement
    below depends on its value. *)
Definition window_stats (l : list Q) : Q * Q * Q :=
  match l with
  | [] => (0, 0, 0)
  | x :: rest =>
      (sum l / inject_Z (Z.of_nat (length l)), maximum x rest, minimum x rest)
  end.

(** The numbers of the dictionary of [get_performance_summary]. *)
Record summary : Type := mkSummary {
  uptime_seconds : Q;
  s_total_frames_processed : nat;
  s_total_detections : nat;
  s_true_positives : nat;
  s_false_positives : nat;
  detection_rate : Q;
  avg_time_ms : Q;
  max_time_ms : Q;
  min_time_ms : Q;
  avg_fps : Q;
  max_fps : Q;
  min_fps : Q;
  s_timestamp : Q
}.

(** [PerformanceMonitor.get_performance_summary]; the latest system
    snapshot it copies is left out. *)
Definition get_performance_summary (current_time : Q) (m : monitor)
    : summary :=
  let '(avg_inference_time, max_inference_time, min_inference_time) :=
    window_stats (inference_times m) in
  let '(avg, mx, mn) := window_stats (fps_history m) in
  mkSummary (current_time - startup_time m)
    (total_frames_processed m) (total_detections m)
    (true_positives m) (false_positives m)
    (inject_Z (Z.of_nat (total_detections m))
     / inject_Z (Z.of_nat (Nat.max (total_frames_processed m) 1)))
    (avg_inference_time * 1000) (max_inference_time * 1000)
    (min_inference_time * 1000)
    avg mx mn current_time.

(** The dictionary of [get_detection_accuracy]: the two counters are
    absent from the one returned when nothing was counted. *)
Record accuracy : Type := mkAccuracy {
  precision : Q;
  a_true_positives : option nat;
  a_false_positives : option nat;
  a_total_detections : nat
}.

(** [PerformanceMonitor.get_detection_accuracy] *)
Definition get_detection_accuracy (m : monitor) : accuracy :=
  if (true_positives m + false_positives m =? 0)%nat
  then mkAccuracy 0 None None 0
  else
    mkAccuracy
      (inject_Z (Z.of_nat (true_positives m))
       / inject_Z (Z.of_nat (true_positives m + false_positives m)))
      (Some (true_positives m)) (Some (false_positives m))
      (true_positives m + false_positives m).

(** What the metrics file holds. *)
Inductive metrics_file : Type :=
| Missing                          (* no such file *)
| Unreadable                       (* [json.load] raises *)
| NotAList                         (* valid JSON, not an array *)
| Entries (l : list summary).

(** [PerformanceMonitor.save_metrics]: the content of the file after the
    call, the write being taken to succeed.  On a file that holds
    something else than an array, [append] raises before anything is
    written. *)
Definition save_metrics (current_time : Q) (m : monitor)
    (file : metrics_file) : metrics_file :=
  let s := get_performance_summary current_time m in
  match file with
  | NotAList => NotAList
  | _ =>
      let metrics_data :=
        match file with Entries l => l | _ => [] end in
      let metrics_data := (metrics_data ++ [s])%list in
      let metrics_data :=
        if (1000 <? length metrics_data)%nat
        then drop (length metrics_data - 1000) metrics_data  (* [[-1000:]] *)
        else metrics_data in
      Entries metrics_data
  end.

End PerformanceMonitor.

(** The last [n] elements of a history. *)
Definition last_n {A : Type} (n : nat) (history : list A) : list A :=
  drop (length history - n) history.

(** One call of [update_metrics]: the inference time, the number of
    detections of the frame and whether a bus was accepted. *)
Definition sample : Type := (Q * nat * bool)%type.

Definition update_with (m : PerformanceMonitor.monitor) (x : sample)
    : PerformanceMonitor.monitor :=
  PerformanceMonitor.update_metrics x.1.1 x.1.2 x.2 m.

(** The frame rates [update_metrics] derives from positive inference
    times. *)
Definition rates (samples : list sample) : list Q :=
  (fun x : sample => 1 / x.1.1)
    <$> filter (fun x : sample => 0 < x.1.1) samples.

(** The calls that change a monitor. *)
Inductive monitor_op : Type :=
| OpUpdate (x : sample)
| OpLog (now : Q) (d : detection)
| OpReset (now : Q).

Definition apply_monitor_op (m : PerformanceMonitor.monitor)
    (op : monitor_op) : PerformanceMonitor.monitor :=
  match op with
  | OpUpdate x => update_with m x
  | OpLog now d => PerformanceMonitor.log_detection now d m
  | OpReset now => PerformanceMonitor.reset_metrics now m
  end.

(** Successive [save_metrics] calls, one per monitor state and clock
    reading. *)
Definition save_all (saves : list (Q * PerformanceMonitor.monitor))
    (file : PerformanceMonitor.metrics_file)
    : PerformanceMonitor.metrics_file :=
  foldl (fun f tm => PerformanceMonitor.save_metrics tm.1 tm.2 f) file saves.

(** What the file holds, read as a list. *)
Definition entries_of (file : PerformanceMonitor.metrics_file)
    : list PerformanceMonitor.summary :=
  match file with
  | PerformanceMonitor.Entries l => l
  | _ => []
  end.

(** * src/camera/camera_manager.py, the rate counter and the shutdown *)

Module CameraManager.

(** The three attributes [_update_fps] works on. *)
Record fps_counter : Type := mkFps {
  frame_count : nat;
  last_fps_time : Q;
  current_fps : Q
}.

(** [CameraManager._update_fps]; [current_time] is the reading of
    [time.time()]. *)
Definition _update_fps (current_time : Q) (c : fps_counter) : fps_counter :=
  let count := (frame_count c + 1)%nat in
  if Qgeb (current_time - last_fps_time c) 1
  then mkFps 0 current_time
         (inject_Z (Z.of_nat count) / (current_time - last_fps_time c))
  else mkFps count (last_fps_time c) (current_fps c).

(** [CameraManager.get_fps] *)
Definition get_fps (c : fps_counter) : Q := current_fps c.

(** The assignments of [CameraManager.cleanup] and of the [stop_capture]
    it calls, on the state of the frame buffer: the capture is flagged
    off, the manager uninitialised and the slot emptied.  Where the two
    threads are is left as it is. *)
Definition cleanup (s : Camera.state) : Camera.state :=
  Camera.mkState (Camera.heap s) None (Camera.frame_lock s) false false
    (Camera.producer s) (Camera.consumer s) (Camera.returned s).

End CameraManager.

(** The counter [__init__] sets up at clock reading [t0]. *)
Definition new_fps_counter (t0 : Q) : CameraManager.fps_counter :=
  CameraManager.mkFps 0 t0 0.

(** * src/detection/hailo_detector.py, the inference counters *)

Module HailoPerformance.
Import HailoDetector.

Record counters : Type := mkCounters {
  total_inferences : nat;
  total_inference_time : Q
}.

(** The counters of [__init__]. *)
Definition init : counters := mkCounters 0 0.

(** [HailoDetector.detect] with the counters it updates when the [try]
    block reaches its end; [start_time] and [end_time] are the two
    readings of [time.time()]. *)
Definition detect (self : detector) (f : frame) (start_time end_time : Q)
    (c : counters) : list detection * counters :=
  match HAILO_AVAILABLE self, input_vstreams self with
  | true, Some infer =>
      match detect_body self infer f with
      | Ok detections =>
          (detections,
           mkCounters (total_inferences c + 1)
                      (total_inference_time c + (end_time - start_time)))
      | Raise _ => ([], c)
      end
  | _, _ => (_detect_opencv_fallback f, c)
  end.

(** The dictionary of [get_performance_stats]; [fps] is [None] when the
    dictionary has no such key. *)
Record stats : Type := mkStats {
  avg_inference_time : Q;
  stats_total_inferences : nat;
  fps : option Q
}.

(** [HailoDetector.get_performance_stats] *)
Definition get_performance_stats (c : counters) : stats :=
  if (total_inferences c =? 0)%nat then mkStats 0 0 None
  else
    let avg_time :=
      total_inference_time c / inject_Z (Z.of_nat (total_inferences c)) in
    mkStats avg_time (total_inferences c)
            (Some (if Qgtb avg_time 0 then 1 / avg_time else 0)).

End HailoPerformance.

(** Whether the [try] block of [detect] reaches its end on a frame. *)
Definition inference_succeeds (self : HailoDetector.detector)
    (f : HailoDetector.frame) : bool :=
  match HailoDetector.HAILO_AVAILABLE self,
        HailoDetector.input_vstreams self with
  | true, Some infer =>
      match HailoDetector.detect_body self infer f with
      | Ok _ => true
      | Raise _ => false
      end
  | _, _ => false
  end.

(** The counters after a series of calls of [detect], each a frame with
    the clock readings before and after. *)
Definition detect_all (self : HailoDetector.detector)
    (calls : list (HailoDetector.frame * Q * Q))
    (c : HailoPerformance.counters) : HailoPerformance.counters :=
  foldl (fun c call =>
           (HailoPerformance.detect self call.1.1 call.1.2 call.2 c).2)
        c calls.

(** A candidate row for a bus in the middle of the model's input: class
    5 is the only class with a score. *)
Definition bus_rows : list (list Q) :=
  [ [320; 320; 200; 200; 9 # 10; 0; 0; 0; 0; 0; 1] ].

(** The detection [bus_rows] becomes on [hd_frame]. *)
Definition detected_bus : detection :=
  mkDetection (Some "bus") (Some (9 # 10)) (Some (440, 247, 840, 472)%Z)
              (Some 5%Z).

(** * The gateway's side of the device commands *)

(** Whether the controller takes an answer of [publish] for a success:
    a truthy result, not [False] and not an exception. *)
Definition truthy (r : result bool) : bool :=
  match r with
  | Ok true => true
  | _ => false
  end.

(** What the gateway is asked and what it answers when commands are sent
    one after the other, each whatever the earlier ones gave: a command
    is published when the controller has a client and the gateway is
    connected at that moment, and it counts as successful on a truthy
    answer only.  The result is the success of each command, in order,
    and the gateway after the last. *)
Fixpoint answers {W : Type} `{HomeAssistant.Gateway W} (has_client : bool)
    (commands : list (string * HomeAssistant.payload)) (w : W)
    : list bool * W :=
  match commands with
  | [] => ([], w)
  | (topic, p) :: rest =>
      if (has_client && HomeAssistant.is_connected w)%bool then
        let '(r, w1) := HomeAssistant.publish topic p w in
        let '(oks, w2) := answers has_client rest w1 in
        (truthy r :: oks, w2)
      else
        let '(oks, w2) := answers has_client rest w in
        (false :: oks, w2)
  end.

(** The on-commands of the configured devices: the lights, then the
    switches. *)
Definition on_commands (c : HomeAssistant.controller)
    : list (string * HomeAssistant.payload) :=
  ((fun light => (light ++ "/set", HomeAssistant.LightOn))
     <$> HomeAssistant.lights c)
  ++ ((fun switch => (switch ++ "/set", HomeAssistant.SwitchOn))
        <$> HomeAssistant.switches c).

(** The tracked devices the deactivation has a command for, in the order
    of its loop. *)
Definition devices_to_turn_off (c : HomeAssistant.controller)
    : list string :=
  filter (configured c) (elements (HomeAssistant.activated_devices c)).

(** The off-command of a device: that of a light when it is among the
    lights, that of a switch otherwise. *)
Definition off_command (c : HomeAssistant.controller) (device : string)
    : string * HomeAssistant.payload :=
  (device ++ "/set",
   if bool_decide (device ∈ HomeAssistant.lights c)
   then HomeAssistant.LightOff else HomeAssistant.SwitchOff).

Definition off_commands (c : HomeAssistant.controller)
    : list (string * HomeAssistant.payload) :=
  off_command c <$> devices_to_turn_off c.

(** The announcement and the notification that follow the activation
    loops. *)
Definition activation_notices {W : Type} `{HomeAssistant.Gateway W}
    (c : HomeAssistant.controller) (w : W) : W :=
  let w3 := if HomeAssistant.voice_announcements c
            then (HomeAssistant._send_voice_announcement c w).2
            else w in
  (HomeAssistant._send_notification c "School Bus Detected"
     ("A school bus has been detected in front of the house. "
      ++ "Smart devices have been activated.")
     w3).2.

(** The notification that follows the deactivation loop when [n]
    commands succeeded. *)
Definition deactivation_notice {W : Type} `{HomeAssistant.Gateway W}
    (c : HomeAssistant.controller) (n : nat) (w : W) : W :=
  if Nat.ltb 0 n
  then (HomeAssistant._send_notification c "Devices Deactivated"
          ("School bus detection timeout reached. "
           ++ pretty n ++ " devices have been deactivated.")
          w).2
  else w.

(** A record of the calls of [publish], each with what the gateway
    answered, kept beside a gateway. *)
Record call : Type := mkCall {
  call_topic : string;
  call_payload : HomeAssistant.payload;
  call_answer : result bool
}.

Definition recording {W : Type} (G : HomeAssistant.Gateway W)
    : HomeAssistant.Gateway (W * list call) := {|
  HomeAssistant.is_connected w := HomeAssistant.is_connected w.1;
  HomeAssistant.publish topic p w :=
    let '(r, w1) := HomeAssistant.publish topic p w.1 in
    (r, (w1, w.2 ++ [mkCall topic p r])%list);
  HomeAssistant.topic_prefix := HomeAssistant.topic_prefix
|}.

(** What a list of calls asked for. *)
Definition asked (calls : list call)
    : list (string * HomeAssistant.payload) :=
  (fun k => (call_topic k, call_payload k)) <$> calls.

(** A set of gateway states in which the gateway is connected and which
    no [publish] leaves: the connection holds. *)
Definition stays_connected {W : Type} `{HomeAssistant.Gateway W}
    (P : W -> Prop) : Prop :=
  forall w : W,
    P w ->
    HomeAssistant.is_connected w = true
    /\ forall (topic : string) (p : HomeAssistant.payload),
         P (HomeAssistant.publish topic p w).2.


(* ------------------------------------------------------------------ *)
(** * Comparisons on rationals *)

Local Open Scope list_scope.
#[local] Set Warnings "-clear-no-such-hyp".

Lemma Qltb_lt (a b : Q) : Qltb a b = true <-> a < b.
Proof.
  unfold Qltb. rewrite negb_true_iff, <- not_true_iff_false, Qle_bool_iff.
  split; [apply Qnot_le_lt | apply Qlt_not_le].
Qed.

Lemma Qltb_ge (a b : Q) : Qltb a b = false <-> b <= a.
Proof.
  unfold Qltb. rewrite negb_false_iff. apply Qle_bool_iff.
Qed.

Lemma Qgtb_gt (a b : Q) : Qgtb a b = true <-> b < a.
Proof. apply Qltb_lt. Qed.

Lemma Qgtb_le (a b : Q) : Qgtb a b = false <-> a <= b.
Proof. apply Qltb_ge. Qed.

Lemma Qgeb_ge (a b : Q) : Qgeb a b = true <-> b <= a.
Proof. apply Qle_bool_iff. Qed.

(** * Properties of the qualification filter *)

Section Qualification.
Import Main.
(** The three gates, as the code applies them. *)
Lemma is_school_bus_detection_true (cfg : config) (d : detection) :
  is_school_bus_detection cfg d = true <->
    str_in (lower (get (class_name d) "")) ["bus"; "school_bus"] = true
    /\ get (detection_min_confidence cfg) (7 # 10) <= get (confidence d) 0
    /\ get (detection_min_bus_size cfg) (1 # 10) <= inject_Z (pixel_area d).
Proof.
  unfold is_school_bus_detection, pixel_area.
  destruct (str_in _ _); simpl; [| intuition discriminate].
  destruct (Qltb (get (confidence d) 0) _) eqn:Hc.
  - apply Qltb_lt in Hc. split; [discriminate |].
    intros (_ & Hle & _). exfalso. revert Hc. apply Qle_not_lt, Hle.
  - apply Qltb_ge in Hc.
    destruct (get (bbox d) _) as [[[x1 y1] x2] y2].
    destruct (Qltb (inject_Z _) _) eqn:Hs.
    + apply Qltb_lt in Hs. split; [discriminate |].
      intros (_ & _ & Hle). exfalso. revert Hs. apply Qle_not_lt, Hle.
    + apply Qltb_ge in Hs. tauto.
Qed.

(** A class outside the target set is rejected whatever the confidence
    and the box. *)
Lemma is_school_bus_detection_other_class (cfg : config) (d : detection) :
  str_in (lower (get (class_name d) "")) ["bus"; "school_bus"] = false ->
  is_school_bus_detection cfg d = false.
Proof.
  intros Hc. unfold is_school_bus_detection. rewrite Hc. reflexivity.
Qed.

(** C1, at the input where the code leaves the specification: with the
    default thresholds ([min_confidence] 0.7, [min_bus_size] 0.1, the
    latter commented in the source as 10% of the image), a bus whose box
    covers one pixel of a 1280x720 frame has a normalized area below the
    size fraction, and [is_school_bus_detection] accepts it: the code
    compares the area in pixels with the fraction. *)
Theorem is_school_bus_detection_accepts_one_pixel :
  normalized_bbox_area one_pixel_bus 1280 720 < 1 # 10
  /\ is_school_bus_detection default_config one_pixel_bus = true.
Proof.
  split; [reflexivity | vm_compute; reflexivity].
Qed.

End Qualification.

(** * Properties of the cooldown debounce *)

Section Cooldown.
Import Main.
Context {W : Type} `{HomeAssistant.Gateway W}.

(** Detections that fail the gates are skipped by the loop. *)
Lemma process_detections_first (cfg : config) (now : Q)
    (detections : list detection) (s : system) (w : W) :
  process_detections cfg now detections s w =
    match first_school_bus cfg detections with
    | None => (Ok false, s, w, [])
    | Some d =>
        if Qgtb (now - last_detection_time s) (detection_cooldown s)
        then accept now d s w
        else (Ok false, s, w, [])
    end.
Proof.
  unfold first_school_bus.
  induction detections as [| d rest IH]; simpl; [reflexivity |].
  destruct (is_school_bus_detection cfg d); [reflexivity | exact IH].
Qed.

(** The state an accepted detection leaves, whatever else happens. *)
Lemma accept_state (now : Q) (d : detection) (s : system) (w : W) :
  (accept now d s w).1.1.2
  = mkSystem now (detection_cooldown s) (devices_activated s)
             (activation_start_time s) (ha_controller s).
Proof.
  unfold accept. destruct (confidence d); [| reflexivity].
  destruct (_ && _)%bool; [| reflexivity].
  destruct (HomeAssistant.publish_detection d w) as [[b | e] w'];
    reflexivity.
Qed.

(** An accepted detection that carries its confidence: the log entry,
    and the result by what the gateway does with the detection
    message. *)
Lemma accept_confident (now : Q) (d : detection) (s : system) (w : W)
    (conf : Q) :
  confidence d = Some conf ->
  (accept now d s w).2 = [SchoolBusDetected now d]
  /\ (accept now d s w).1.1.1
     = (if (HomeAssistant.mqtt_client (ha_controller s)
            && HomeAssistant.is_connected w)%bool
        then match (HomeAssistant.publish_detection d w).1 with
             | Ok _ => Ok true
             | Raise e => Raise e
             end
        else Ok true)
  /\ (accept now d s w).1.2
     = (if (HomeAssistant.mqtt_client (ha_controller s)
            && HomeAssistant.is_connected w)%bool
        then (HomeAssistant.publish_detection d w).2
        else w).
Proof.
  intros Hconf. unfold accept. rewrite Hconf.
  destruct (_ && _)%bool; [| auto].
  destruct (HomeAssistant.publish_detection d w) as [[b | e] w']; auto.
Qed.

(** The loop never touches the activation state. *)
Lemma process_detections_activation (cfg : config) (now : Q)
    (detections : list detection) (s : system) (w : W) :
  let s' := (process_detections cfg now detections s w).1.1.2 in
  devices_activated s' = devices_activated s
  /\ activation_start_time s' = activation_start_time s
  /\ ha_controller s' = ha_controller s
  /\ detection_cooldown s' = detection_cooldown s.
Proof.
  rewrite process_detections_first.
  destruct (first_school_bus cfg detections); simpl; [| tauto].
  destruct (Qgtb _ _); simpl; [| tauto].
  rewrite accept_state. simpl. tauto.
Qed.

(** A tick of the timeline. *)
Lemma accepted_ticks_cons (cfg : config) (now : Q)
    (detections : list detection) (rest : list (Q * list detection))
    (s : system) (w : W) :
  accepted_ticks cfg ((now, detections) :: rest) s w
  = (process_detections cfg now detections s w).2
    :: accepted_ticks cfg rest
         (process_detections cfg now detections s w).1.1.2
         (process_detections cfg now detections s w).1.2.
Proof.
  simpl. destruct (process_detections _ _ _ _ _) as [[[outcome s'] w'] events].
  reflexivity.
Qed.

End Cooldown.

Section CooldownLaw.
Import Main.

(** C2.  A frame whose first qualifying detection is [d], processed at
    clock reading [now], has its event accepted (entered in the logs)
    exactly when [now - last_detection_time] exceeds the cooldown;
    acceptance records [now] as the new [last_detection_time], and
    [process_detections] then returns [True], unless the gateway raises
    on the detection message, and only then; a rejection by the cooldown
    returns [False], produces no event, publishes nothing and leaves the
    state as it was.  The detection carries its confidence, as every
    detection of the detector does.  Consequently, with a cooldown of
    30, three qualifying frames at [t0], [t0 + 5] and [t0 + 35], the
    first of which comes more than the cooldown after
    [last_detection_time], have their events accepted, rejected and
    accepted, on every gateway.  With the MQTT client of the repository
    as the gateway, whose [publish] catches what the broker raises,
    [process_detections] returns [True] exactly when the cooldown has
    passed. *)
Theorem cooldown_debounce {W : Type} `{HomeAssistant.Gateway W} :
  (forall (cfg : config) (now : Q) (detections : list detection)
          (s : system) (w : W) (d : detection) (conf : Q),
     first_school_bus cfg detections = Some d ->
     confidence d = Some conf ->
     let '(outcome, s', w', events) :=
       process_detections cfg now detections s w in
     (events = [SchoolBusDetected now d] <->
        detection_cooldown s < now - last_detection_time s)
     /\ (events = [SchoolBusDetected now d] ->
           last_detection_time s' = now
           /\ (outcome = Ok true \/ exists e : string, outcome = Raise e)
           /\ (outcome = Ok true <->
               forall e : string,
                 ~ ((HomeAssistant.mqtt_client (ha_controller s)
                     && HomeAssistant.is_connected w)%bool = true
                    /\ (HomeAssistant.publish_detection d w).1 = Raise e))
           /\ w' = (if (HomeAssistant.mqtt_client (ha_controller s)
                        && HomeAssistant.is_connected w)%bool
                    then (HomeAssistant.publish_detection d w).2
                    else w))
     /\ (events <> [SchoolBusDetected now d] ->
           outcome = Ok false /\ s' = s /\ w' = w /\ events = [])
     /\ (outcome = Ok true -> events = [SchoolBusDetected now d]))
  /\ (forall (cfg : config) (t0 : Q) (f0 f1 f2 : list detection)
             (s : system) (w : W) (d0 d1 d2 : detection) (c0 c2 : Q),
        first_school_bus cfg f0 = Some d0 ->
        first_school_bus cfg f1 = Some d1 ->
        first_school_bus cfg f2 = Some d2 ->
        confidence d0 = Some c0 ->
        confidence d2 = Some c2 ->
        detection_cooldown s == 30 ->
        30 < t0 - last_detection_time s ->
        accepted_ticks cfg [(t0, f0); (t0 + 5, f1); (t0 + 35, f2)] s w
          = [[SchoolBusDetected t0 d0]; [];
             [SchoolBusDetected (t0 + 35) d2]])
  /\ (forall (B : Type) (broker : MQTTClient.Broker HomeAssistant.payload B)
             (prefix : string) (cfg : config) (now : Q)
             (detections : list detection) (s : system)
             (w : MQTTClient.client * B) (d : detection) (conf : Q),
        first_school_bus cfg detections = Some d ->
        confidence d = Some conf ->
        (@process_detections _ (MQTTClient.gateway prefix)
           cfg now detections s w).1.1.1 = Ok true
        <-> detection_cooldown s < now - last_detection_time s).
Proof.
  split; [| split].
  - intros cfg now detections s w d conf Hd Hconf.
    rewrite process_detections_first, Hd.
    destruct (Qgtb _ _) eqn:Hc.
    + apply Qgtb_gt in Hc.
      pose proof (accept_state now d s w) as Hstate.
      destruct (accept_confident now d s w conf Hconf)
        as (Hevents & Hout & Hworld).
      destruct (accept now d s w) as [[[outcome s'] w'] events].
      simpl in Hstate, Hevents, Hout, Hworld. subst s' events.
      split; [tauto |]. split; [| split; [congruence | auto]].
      intros _. split; [reflexivity |]. rewrite Hout.
      split; [| split; [| exact Hworld]].
      * destruct (_ && _)%bool; [| left; reflexivity].
        destruct (HomeAssistant.publish_detection d w) as [[b | e] w1];
          simpl; [left; reflexivity | right; exists e; reflexivity].
      * destruct (_ && _)%bool.
        -- destruct (HomeAssistant.publish_detection d w) as [[b | e] w1];
             simpl.
           ++ split; [intros _ e [_ He]; discriminate | reflexivity].
           ++ split; [discriminate |].
              intros Hnone. exfalso. apply (Hnone e). auto.
        -- split; [intros _ e [Hf _]; discriminate | reflexivity].
    + apply Qgtb_le in Hc.
      split; [| split; [discriminate | split; [auto | discriminate]]].
      split; [discriminate |].
      intros Hlt. exfalso. revert Hlt. apply Qle_not_lt, Hc.
  - intros cfg t0 f0 f1 f2 s w d0 d1 d2 c0 c2 H0 H1 H2 Hc0 Hc2 Hcd Ht0.
    rewrite accepted_ticks_cons, (process_detections_first cfg t0), H0.
    assert (Qgtb (t0 - last_detection_time s) (detection_cooldown s) = true)
      as ->.
    { apply Qgtb_gt. rewrite Hcd. exact Ht0. }
    rewrite accept_state.
    rewrite (proj1 (accept_confident t0 d0 s w c0 Hc0)).
    set (w1 := (accept t0 d0 s w).1.2). clearbody w1.
    rewrite accepted_ticks_cons, (process_detections_first cfg (t0 + 5)), H1.
    cbn [last_detection_time detection_cooldown].
    assert (Qgtb (t0 + 5 - t0) (detection_cooldown s) = false) as ->.
    { apply Qgtb_le. rewrite Hcd. lra. }
    cbn [fst snd].
    rewrite accepted_ticks_cons, (process_detections_first cfg (t0 + 35)), H2.
    cbn [last_detection_time detection_cooldown].
    assert (Qgtb (t0 + 35 - t0) (detection_cooldown s) = true) as ->.
    { apply Qgtb_gt. rewrite Hcd. lra. }
    rewrite (proj1 (accept_confident (t0 + 35) d2 _ w1 c2 Hc2)).
    reflexivity.
  - intros B broker prefix cfg now detections s w d conf Hd Hconf.
    rewrite process_detections_first, Hd.
    destruct (Qgtb _ _) eqn:Hc.
    + apply Qgtb_gt in Hc.
      destruct (@accept_confident _ (MQTTClient.gateway prefix)
                  now d s w conf Hconf) as (_ & -> & _).
      split; [intros _; exact Hc |]. intros _.
      destruct (_ && _)%bool; [| reflexivity].
      unfold HomeAssistant.publish_detection.
      cbn [MQTTClient.gateway HomeAssistant.publish].
      destruct (MQTTClient.publish _ _ None None w) as [ok w1].
      reflexivity.
    + apply Qgtb_le in Hc. simpl. split; [discriminate |].
      intros Hlt. exfalso. revert Hlt. apply Qle_not_lt, Hc.
Qed.

End CooldownLaw.

(** * The cooldown on a scripted gateway *)

Section CooldownRuns.
Import Main.

(** The timeline of the specification on a system just initialised, whose
    clock reads 1000 at the first frame; and the law at the second frame,
    which comes 5 seconds after an accepted one. *)
Lemma cooldown_debounce_witness :
  accepted_ticks default_config
    [(1000, [confident_car; big_bus]); (1000 + 5, [big_bus]);
     (1000 + 35, [big_bus])]
    (initialize default_config (init porch_controller)) obliging_world
  = [[SchoolBusDetected 1000 big_bus]; [];
     [SchoolBusDetected (1000 + 35) big_bus]]
  /\ ((process_detections default_config 1005 [confident_car; big_bus]
         (mkSystem 1000 30 true 1000 porch_controller) obliging_world).2
      = [SchoolBusDetected 1005 big_bus]
      <-> 30 < 1005 - 1000).
Proof.
  destruct (@cooldown_debounce scripted_world _) as (Hlaw & Hscenario & _).
  split.
  - apply (Hscenario default_config 1000 _ _ _ _ _ big_bus big_bus big_bus
             (82 # 100) (82 # 100));
      reflexivity.
  - specialize (Hlaw default_config 1005 [confident_car; big_bus]
                  (mkSystem 1000 30 true 1000 porch_controller)
                  obliging_world big_bus (82 # 100) eq_refl eq_refl).
    destruct (process_detections _ _ _ _ _) as [[[outcome s'] w'] events].
    exact (proj1 Hlaw).
Defined.

End CooldownRuns.

(** * Properties of the device controller *)

Section DeviceLoops.
Import HomeAssistant.
Context {W : Type} `{Gateway W}.

Lemma succeeded_app (l1 l2 : list (string * bool)) :
  succeeded (l1 ++ l2) = succeeded l1 ++ succeeded l2.
Proof. unfold succeeded. rewrite filter_app, fmap_app. reflexivity. Qed.

Lemma elem_of_succeeded (d : string) (log : list (string * bool)) :
  d ∈ succeeded log <-> (d, true) ∈ log.
Proof.
  unfold succeeded. rewrite list_elem_of_fmap. split.
  - intros ([d' b] & -> & Hin). apply list_elem_of_filter in Hin as [Hb Hin].
    simpl in Hb. subst b. exact Hin.
  - intros Hin. exists (d, true). split; [reflexivity |].
    apply list_elem_of_filter. split; [reflexivity | exact Hin].
Qed.

Lemma succeeded_cons (d : string) (b : bool) (log : list (string * bool)) :
  succeeded ((d, b) :: log) = if b then d :: succeeded log else succeeded log.
Proof.
  unfold succeeded. rewrite filter_cons. simpl.
  destruct b; destruct (decide _); try reflexivity; congruence.
Qed.

(** One iteration of the activation loop, by the outcome [b] of its
    command. *)
Lemma activate_step_outcome (turn_on : string -> W -> bool * W)
    (ls : loop_state) (d : string) :
  exists b : bool,
    attempts (activate_step turn_on ls d) = attempts ls ++ [(d, b)]
    /\ tracked (activate_step turn_on ls d)
       = (if b then {[d]} ∪ tracked ls else tracked ls)
    /\ success_count (activate_step turn_on ls d)
       = if b then S (success_count ls) else success_count ls.
Proof.
  unfold activate_step.
  destruct (turn_on d (world ls)) as [[|] w'];
    [exists true | exists false]; simpl; auto.
Qed.

(** What the activation loop has done after a list of devices: one
    command per device, in order, the successful ones added to the
    tracked set and counted. *)
Lemma activate_loop (turn_on : string -> W -> bool * W)
    (l : list string) (ls : loop_state) :
  exists new : list (string * bool),
    attempts (foldl (activate_step turn_on) ls l) = attempts ls ++ new
    /\ new.*1 = l
    /\ tracked (foldl (activate_step turn_on) ls l)
       = list_to_set (succeeded new) ∪ tracked ls
    /\ success_count (foldl (activate_step turn_on) ls l)
       = (success_count ls + length (succeeded new))%nat.
Proof.
  revert ls. induction l as [| d l IH]; intros ls; simpl.
  - exists []. rewrite app_nil_r. unfold succeeded. simpl.
    split; [reflexivity |]. split; [reflexivity |].
    split; [set_solver | lia].
  - destruct (activate_step_outcome turn_on ls d) as (b & Hsa & Hst & Hsc).
    destruct (IH (activate_step turn_on ls d)) as (new & Ha & Hd & Ht & Hc).
    exists ((d, b) :: new).
    rewrite Ha, Ht, Hc, Hsa, Hst, Hsc, succeeded_cons, <- app_assoc.
    split; [reflexivity |]. split; [rewrite fmap_cons, Hd; reflexivity |].
    destruct b; simpl; split; try lia; set_solver.
Qed.

(** One iteration of the deactivation loop: no command for a device that
    is neither a light nor a switch, one command otherwise, with
    outcome [b]. *)
Lemma deactivate_step_outcome (c : controller) (ls : loop_state) (d : string) :
  (~ configured c d /\ deactivate_step c ls d = ls)
  \/ (configured c d /\ exists b : bool,
        attempts (deactivate_step c ls d) = attempts ls ++ [(d, b)]
        /\ tracked (deactivate_step c ls d)
           = (if b then tracked ls ∖ {[d]} else tracked ls)
        /\ success_count (deactivate_step c ls d)
           = if b then S (success_count ls) else success_count ls).
Proof.
  unfold deactivate_step, configured.
  destruct (decide (d ∈ lights c)) as [Hl | Hl].
  - right. split; [left; exact Hl |].
    rewrite bool_decide_true by exact Hl.
    destruct (_turn_off_light c d (world ls)) as [[|] w'];
      [exists true | exists false]; simpl; auto.
  - rewrite bool_decide_false by exact Hl.
    destruct (decide (d ∈ switches c)) as [Hs | Hs].
    + right. split; [right; exact Hs |].
      rewrite bool_decide_true by exact Hs.
      destruct (_turn_off_switch c d (world ls)) as [[|] w'];
        [exists true | exists false]; simpl; auto.
    + left. rewrite bool_decide_false by exact Hs. tauto.
Qed.

(** What the deactivation loop has done after a list of devices: one
    command per configured device, in order, the successful ones removed
    from the tracked set and counted. *)
Lemma deactivate_loop (c : controller) (l : list string) (ls : loop_state) :
  exists new : list (string * bool),
    attempts (foldl (deactivate_step c) ls l) = attempts ls ++ new
    /\ new.*1 = filter (configured c) l
    /\ tracked (foldl (deactivate_step c) ls l)
       = tracked ls ∖ list_to_set (succeeded new)
    /\ success_count (foldl (deactivate_step c) ls l)
       = (success_count ls + length (succeeded new))%nat.
Proof.
  revert ls. induction l as [| d l IH]; intros ls; simpl.
  - exists []. rewrite app_nil_r. unfold succeeded. simpl.
    split; [reflexivity |]. split; [reflexivity |].
    split; [set_solver | lia].
  - destruct (IH (deactivate_step c ls d)) as (new & Ha & Hd & Ht & Hc).
    rewrite filter_cons.
    destruct (deactivate_step_outcome c ls d)
      as [[Hcfg Hsame] | (Hcfg & b & Hsa & Hst & Hsc)].
    + rewrite decide_False by exact Hcfg. rewrite Hsame in *.
      exists new. auto.
    + rewrite decide_True by exact Hcfg.
      exists ((d, b) :: new).
      rewrite Ha, Ht, Hc, Hsa, Hst, Hsc, succeeded_cons, <- app_assoc.
      split; [reflexivity |]. split; [rewrite fmap_cons, Hd; reflexivity |].
      destruct b; simpl; split; try lia; set_solver.
Qed.

(** ** The loops as the gateway sees them *)

(** A command, by what the gateway does with it. *)
Lemma answers_cons (c : controller) (topic : string) (p : payload)
    (rest : list (string * payload)) (w : W) :
  answers (mqtt_client c) ((topic, p) :: rest) w
  = ((send_command c topic p w).1
       :: (answers (mqtt_client c) rest (send_command c topic p w).2).1,
     (answers (mqtt_client c) rest (send_command c topic p w).2).2).
Proof.
  simpl. unfold send_command.
  destruct (mqtt_client c && is_connected w)%bool.
  - destruct (publish topic p w) as [[[|] | e] w1]; simpl;
      destruct (answers (mqtt_client c) rest w1); reflexivity.
  - simpl. destruct (answers (mqtt_client c) rest w); reflexivity.
Qed.

Lemma answers_app (has_client : bool) (l1 l2 : list (string * payload))
    (w : W) :
  answers has_client (l1 ++ l2) w
  = ((answers has_client l1 w).1
       ++ (answers has_client l2 (answers has_client l1 w).2).1,
     (answers has_client l2 (answers has_client l1 w).2).2).
Proof.
  revert w. induction l1 as [| [topic p] l1 IH]; intros w; simpl.
  - destruct (answers has_client l2 w); reflexivity.
  - destruct (has_client && is_connected w)%bool.
    + destruct (publish topic p w) as [r w1]. rewrite IH.
      destruct (answers has_client l1 w1). reflexivity.
    + rewrite IH. destruct (answers has_client l1 w). reflexivity.
Qed.

Lemma answers_length (has_client : bool) (l : list (string * payload))
    (w : W) :
  length (answers has_client l w).1 = length l.
Proof.
  revert w. induction l as [| [topic p] l IH]; intros w; simpl;
    [reflexivity |].
  destruct (has_client && is_connected w)%bool.
  - destruct (publish topic p w) as [r w1]. specialize (IH w1).
    destruct (answers has_client l w1). simpl in *. lia.
  - specialize (IH w). destruct (answers has_client l w). simpl in *. lia.
Qed.

(** The activation loop sends its commands one after the other, and its
    log records what the gateway answered to each. *)
Lemma activate_loop_answers (c : controller) (p : payload)
    (turn_on : string -> W -> bool * W) (l : list string) (ls : loop_state) :
  (forall (d : string) (w : W),
     turn_on d w = send_command c (d ++ "/set")%string p w) ->
  world (foldl (activate_step turn_on) ls l)
  = (answers (mqtt_client c) ((fun d => ((d ++ "/set")%string, p)) <$> l)
       (world ls)).2
  /\ attempts (foldl (activate_step turn_on) ls l)
     = attempts ls
       ++ zip l (answers (mqtt_client c)
                   ((fun d => ((d ++ "/set")%string, p)) <$> l)
                   (world ls)).1.
Proof.
  intros Hturn. revert ls. induction l as [| d l IH]; intros ls.
  - simpl. rewrite app_nil_r. auto.
  - change (foldl (activate_step turn_on) ls (d :: l))
      with (foldl (activate_step turn_on) (activate_step turn_on ls d) l).
    destruct (IH (activate_step turn_on ls d)) as [Hw Ha].
    rewrite Hw, Ha, fmap_cons, answers_cons.
    unfold activate_step. rewrite Hturn.
    destruct (send_command c (d ++ "/set")%string p (world ls))
      as [[|] w1]; simpl; rewrite <- app_assoc; auto.
Qed.

(** So does the deactivation loop, for the devices it has a command
    for. *)
Lemma deactivate_loop_answers (c : controller) (l : list string)
    (ls : loop_state) :
  world (foldl (deactivate_step c) ls l)
  = (answers (mqtt_client c) (off_command c <$> filter (configured c) l)
       (world ls)).2
  /\ attempts (foldl (deactivate_step c) ls l)
     = attempts ls
       ++ zip (filter (configured c) l)
              (answers (mqtt_client c)
                 (off_command c <$> filter (configured c) l) (world ls)).1.
Proof.
  revert ls. induction l as [| d l IH]; intros ls.
  - simpl. rewrite app_nil_r. auto.
  - change (foldl (deactivate_step c) ls (d :: l))
      with (foldl (deactivate_step c) (deactivate_step c ls d) l).
    destruct (IH (deactivate_step c ls d)) as [Hw Ha].
    rewrite Hw, Ha, filter_cons. clear IH Hw Ha.
    unfold deactivate_step, configured, off_command.
    destruct (decide (d ∈ lights c)) as [Hl | Hl].
    + rewrite decide_True by (left; exact Hl).
      rewrite fmap_cons, answers_cons.
      rewrite !bool_decide_true by exact Hl.
      unfold _turn_off_light.
      destruct (send_command c (d ++ "/set")%string LightOff (world ls))
        as [[|] w1]; simpl; rewrite <- app_assoc; auto.
    + rewrite !bool_decide_false by exact Hl.
      destruct (decide (d ∈ switches c)) as [Hs | Hs].
      * rewrite decide_True by (right; exact Hs).
        rewrite fmap_cons, answers_cons.
        rewrite bool_decide_true by exact Hs.
        rewrite bool_decide_false by exact Hl.
        unfold _turn_off_switch.
        destruct (send_command c (d ++ "/set")%string SwitchOff (world ls))
          as [[|] w1]; simpl; rewrite <- app_assoc; auto.
      * rewrite decide_False by tauto.
        rewrite bool_decide_false by exact Hs. auto.
Qed.

(** [activate_devices], by what the gateway answers. *)
Lemma activate_devices_answers (c : controller) (now : Q) (w : W) :
  (activate_devices c now w).2
  = zip (lights c ++ switches c) (answers (mqtt_client c) (on_commands c) w).1
  /\ (activate_devices c now w).1.2
     = activation_notices c (answers (mqtt_client c) (on_commands c) w).2.
Proof.
  unfold activate_devices, on_commands, activation_notices.
  set (ls0 := mkLoop w (activated_devices c) 0 []).
  destruct (activate_loop_answers c LightOn (_turn_on_light c) (lights c) ls0)
    as [Hw1 Ha1]; [reflexivity |].
  set (ls1 := foldl (activate_step (_turn_on_light c)) ls0 (lights c)) in *.
  destruct (activate_loop_answers c SwitchOn (_turn_on_switch c) (switches c)
              ls1) as [Hw2 Ha2]; [reflexivity |].
  set (ls2 := foldl (activate_step (_turn_on_switch c)) ls1 (switches c))
    in *.
  simpl in Hw1, Ha1. rewrite answers_app. cbn [fst snd].
  rewrite Hw2, Ha2, Ha1, Hw1. split; [| reflexivity].
  rewrite zip_with_app; [reflexivity |].
  rewrite answers_length, length_fmap. reflexivity.
Qed.

(** [deactivate_devices], by what the gateway answers. *)
Lemma deactivate_devices_answers (c : controller) (w : W) :
  (deactivate_devices c w).2
  = zip (devices_to_turn_off c)
        (answers (mqtt_client c) (off_commands c) w).1
  /\ (deactivate_devices c w).1.2
     = deactivation_notice c (length (succeeded (deactivate_devices c w).2))
         (answers (mqtt_client c) (off_commands c) w).2.
Proof.
  unfold deactivate_devices, off_commands, devices_to_turn_off,
    deactivation_notice.
  set (ls0 := mkLoop w (activated_devices c) 0 []).
  destruct (deactivate_loop_answers c (elements (activated_devices c)) ls0)
    as [Hw Ha].
  destruct (deactivate_loop c (elements (activated_devices c)) ls0)
    as (new & Hnew & _ & _ & Hcount).
  set (ls := foldl (deactivate_step c) ls0 (elements (activated_devices c)))
    in *.
  simpl in Hw, Ha, Hnew, Hcount. cbn [fst snd].
  rewrite Hcount, Hnew, Hw. rewrite Hnew in Ha. rewrite <- Ha. auto.
Qed.

(** [deactivate_devices], from its log. *)
Lemma deactivate_devices_by_log (c : controller) (w : W) :
  deactivate_devices c w
  = (Nat.ltb 0 (length (succeeded (deactivate_devices c w).2)),
     set_activation_time None
       (set_activated
          (activated_devices c
             ∖ list_to_set (succeeded (deactivate_devices c w).2)) c),
     (deactivate_devices c w).1.2,
     (deactivate_devices c w).2).
Proof.
  unfold deactivate_devices.
  set (ls0 := mkLoop w (activated_devices c) 0 []).
  destruct (deactivate_loop c (elements (activated_devices c)) ls0)
    as (new & Hnew & _ & Htracked & Hcount).
  set (ls := foldl (deactivate_step c) ls0 (elements (activated_devices c)))
    in *.
  simpl in Hnew, Htracked, Hcount. cbn [fst snd].
  rewrite Hcount, Htracked, Hnew. reflexivity.
Qed.

(** C8.  [activate_devices] sends the on-command of every configured
    light and then of every configured switch to the gateway, in order
    and whatever the earlier ones gave: each is published when the
    gateway is connected at that moment, the outcome recorded for a
    device is what the gateway answered to its command (a success on a
    truthy answer only, a failure on [False], on an exception and
    without a connection), and the gateway is left as these commands,
    the announcement and the notification leave it.  The tracked set
    afterwards is the one before with exactly the devices whose command
    succeeded added; and it reports success exactly when some device
    command succeeded.  It is a total function: whatever the gateway
    does it returns, with [False] when every command failed. *)
Theorem activate_devices_best_effort (c : controller) (now : Q) (w : W) :
  let '(ok, c', w', log) := activate_devices c now w in
  let '(oks, w1) := answers (mqtt_client c) (on_commands c) w in
  log = zip (lights c ++ switches c) oks
  /\ length oks = length (lights c ++ switches c)
  /\ w' = activation_notices c w1
  /\ log.*1 = lights c ++ switches c
  /\ (forall d : string,
        d ∈ activated_devices c' <->
        d ∈ activated_devices c \/ (d, true) ∈ log)
  /\ (ok = true <-> exists d : string, (d, true) ∈ log)
  /\ (ok = false <-> forall d : string, d ∈ log.*1 -> (d, false) ∈ log
                                        /\ (d, true) ∉ log).
Proof.
  destruct (activate_devices_answers c now w) as [Hlog_answers Hworld].
  pose proof (answers_length (mqtt_client c) (on_commands c) w) as Hlen.
  destruct (answers (mqtt_client c) (on_commands c) w) as [oks w1].
  cbn [fst snd] in Hlog_answers, Hworld, Hlen.
  assert (length oks = length (lights c ++ switches c)) as Hoks.
  { rewrite Hlen. unfold on_commands. rewrite !length_app, !length_fmap.
    reflexivity. }
  revert Hlog_answers Hworld.
  unfold activate_devices.
  set (ls0 := mkLoop w (activated_devices c) 0 []).
  destruct (activate_loop (_turn_on_light c) (lights c) ls0)
    as (new1 & Ha1 & Hd1 & Ht1 & Hc1).
  set (ls1 := foldl (activate_step (_turn_on_light c)) ls0 (lights c)) in *.
  destruct (activate_loop (_turn_on_switch c) (switches c) ls1)
    as (new2 & Ha2 & Hd2 & Ht2 & Hc2).
  set (ls2 := foldl (activate_step (_turn_on_switch c)) ls1 (switches c)) in *.
  simpl in Ha1, Ht1, Hc1.
  assert (attempts ls2 = new1 ++ new2) as Hlog
    by (rewrite Ha2, Ha1; reflexivity).
  assert (success_count ls2 = length (succeeded (new1 ++ new2))) as Hcount.
  { rewrite Hc2, Hc1, succeeded_app, length_app. reflexivity. }
  assert (tracked ls2
          = list_to_set (succeeded (new1 ++ new2)) ∪ activated_devices c)
    as Htracked.
  { rewrite Ht2, Ht1, succeeded_app. set_solver. }
  assert (Nat.ltb 0 (success_count ls2) = true
          <-> exists d : string, (d, true) ∈ attempts ls2) as Hok.
  { rewrite Hcount, Hlog, Nat.ltb_lt. split.
    - intros Hpos. destruct (succeeded (new1 ++ new2)) as [| d rest] eqn:Hs;
        [simpl in Hpos; lia |].
      exists d. apply elem_of_succeeded. rewrite Hs. left.
    - intros [d Hd]. apply elem_of_succeeded in Hd.
      destruct (succeeded (new1 ++ new2)); [inversion Hd | simpl; lia]. }
  cbn [fst snd]. intros Hlog_answers Hworld.
  split; [exact Hlog_answers |]. split; [exact Hoks |].
  split; [exact Hworld |]. clear Hlog_answers Hworld.
  simpl. rewrite Htracked, Hlog in *. split; [| split; [| split]].
  - rewrite fmap_app, Hd1, Hd2. reflexivity.
  - intros d. rewrite elem_of_union, elem_of_list_to_set, elem_of_succeeded.
    tauto.
  - exact Hok.
  - rewrite <- not_true_iff_false, Hok. split.
    + intros Hnone d Hd. apply list_elem_of_fmap in Hd as ([d' b] & -> & Hin).
      simpl. destruct b; [exfalso; apply Hnone; exists d'; exact Hin |].
      split; [exact Hin |]. intros Hin'. apply Hnone. exists d'. exact Hin'.
    + intros Hall [d Hd].
      destruct (Hall d) as [_ Hno]; [| exact (Hno Hd)].
      apply list_elem_of_fmap. exists (d, true).
      split; [reflexivity | exact Hd].
Qed.

(** In a log with one entry per device, a device has one outcome. *)
Lemma log_outcome_unique (log : list (string * bool)) (d : string)
    (b1 b2 : bool) :
  NoDup log.*1 -> (d, b1) ∈ log -> (d, b2) ∈ log -> b1 = b2.
Proof.
  induction log as [| [d' b'] log IH]; intros Hnd H1 H2.
  - inversion H1.
  - rewrite fmap_cons in Hnd. apply NoDup_cons in Hnd as [Hnotin Hnd].
    simpl in Hnotin.
    apply elem_of_cons in H1 as [H1 | H1];
      apply elem_of_cons in H2 as [H2 | H2].
    + congruence.
    + exfalso. apply Hnotin. inversion H1; subst.
      apply list_elem_of_fmap. exists (d', b2). split; [reflexivity | exact H2].
    + exfalso. apply Hnotin. inversion H2; subst.
      apply list_elem_of_fmap. exists (d', b1). split; [reflexivity | exact H1].
    + exact (IH Hnd H1 H2).
Qed.

(** What [deactivate_devices] does, device by device. *)
Lemma deactivate_devices_outcome (c : controller) (w : W) :
  let '(ok, c', w', log) := deactivate_devices c w in
  log.*1 = filter (configured c) (elements (activated_devices c))
  /\ (forall d : string,
        d ∈ activated_devices c' <->
        d ∈ activated_devices c /\ (d, true) ∉ log)
  /\ activation_time c' = None
  /\ (ok = true <-> exists d : string, (d, true) ∈ log).
Proof.
  unfold deactivate_devices.
  set (ls0 := mkLoop w (activated_devices c) 0 []).
  destruct (deactivate_loop c (elements (activated_devices c)) ls0)
    as (new & Ha & Hd & Ht & Hc).
  set (ls := foldl (deactivate_step c) ls0 (elements (activated_devices c)))
    in *.
  simpl in Ha, Ht, Hc. simpl. rewrite Ha, Ht, Hc.
  split; [exact Hd |]. split; [| split; [reflexivity |]].
  - intros d.
    rewrite elem_of_difference, elem_of_list_to_set, elem_of_succeeded.
    tauto.
  - rewrite Nat.ltb_lt. split.
    + intros Hpos. destruct (succeeded new) as [| d rest] eqn:Hs;
        [simpl in Hpos; lia |].
      exists d. apply elem_of_succeeded. rewrite Hs. left.
    + intros [d Hin]. apply elem_of_succeeded in Hin.
      destruct (succeeded new); [inversion Hin | simpl; lia].
Qed.

(** [emergency_stop] is [deactivate_devices] followed by the clearing of
    the tracked set. *)
Lemma emergency_stop_unfold (c : controller) (w : W) :
  emergency_stop c w =
    let '(ok, c', w', log) := deactivate_devices c w in
    (ok, set_activation_time None (set_activated ∅ c'), w', log).
Proof.
  unfold emergency_stop.
  destruct (deactivate_devices c w) as [[[ok c'] w'] log]. reflexivity.
Qed.

(** C10.  [deactivate_devices] sends one turn-off command to the
    gateway per tracked device that is a configured light or switch, one
    after the other; the outcome recorded for a device is what the
    gateway answered to its command (a success on a truthy answer only),
    and the gateway is left as these commands and the notification leave
    it.  A tracked device leaves the tracked set exactly when its command
    succeeded, so a device whose command failed is still tracked
    afterwards; [activation_time] is [None] afterwards in every case.
    [emergency_stop] sends the same commands and then leaves the tracked
    set empty and [activation_time] [None], whatever the answers, every
    command failing included. *)
Theorem deactivate_devices_per_device (c : controller) (w : W) :
  let '(ok, c', w', log) := deactivate_devices c w in
  let '(ok_e, c_e, w_e, log_e) := emergency_stop c w in
  let '(oks, w1) := answers (mqtt_client c) (off_commands c) w in
  log = zip (devices_to_turn_off c) oks
  /\ length oks = length (devices_to_turn_off c)
  /\ w' = deactivation_notice c (length (succeeded log)) w1
  /\ NoDup log.*1
  /\ (forall d : string,
        d ∈ log.*1 <-> d ∈ activated_devices c /\ configured c d)
  /\ (forall d : string,
        d ∈ activated_devices c' <->
        d ∈ activated_devices c /\ (d, true) ∉ log)
  /\ (forall d : string, (d, false) ∈ log -> d ∈ activated_devices c')
  /\ activation_time c' = None
  /\ activated_devices c_e = ∅
  /\ activation_time c_e = None
  /\ log_e = log /\ ok_e = ok /\ w_e = w'.
Proof.
  rewrite emergency_stop_unfold.
  pose proof (deactivate_devices_outcome c w) as Hout.
  destruct (deactivate_devices_answers c w) as [Hlog_answers Hworld].
  pose proof (answers_length (mqtt_client c) (off_commands c) w) as Hlen.
  destruct (answers (mqtt_client c) (off_commands c) w) as [oks w1].
  destruct (deactivate_devices c w) as [[[ok c'] w'] log].
  cbn [fst snd] in Hlog_answers, Hworld, Hlen.
  split; [exact Hlog_answers |].
  split; [rewrite Hlen; unfold off_commands; apply length_fmap |].
  split; [exact Hworld |]. clear Hlog_answers Hworld Hlen.
  destruct Hout as (Hd & Htracked & Htime & _).
  assert (NoDup log.*1) as Hnd.
  { rewrite Hd. apply NoDup_filter, NoDup_elements. }
  assert (forall d : string,
            d ∈ log.*1 <-> d ∈ activated_devices c /\ configured c d)
    as Hdom.
  { intros d. rewrite Hd, list_elem_of_filter, elem_of_elements. tauto. }
  split; [exact Hnd |]. split; [exact Hdom |]. split; [exact Htracked |].
  split; [| simpl; repeat split; exact Htime].
  intros d Hfalse. apply Htracked. split.
  - apply (Hdom d). apply list_elem_of_fmap.
    exists (d, false). split; [reflexivity | exact Hfalse].
  - intros Htrue.
    pose proof (log_outcome_unique log d false true Hnd Hfalse Htrue).
    discriminate.
Qed.

End DeviceLoops.

(** The controller on scripted gateways: a command that raises, one that
    succeeds and one that reports failure; then no connection at all. *)
Example activate_devices_partial :
  let '(ok, c', w', log) :=
    HomeAssistant.activate_devices porch_controller 1000
      (mkWorld true [Raise "timeout"; Ok true; Ok false] []) in
  ok = true
  /\ log = [("light.porch", false); ("light.hall", true);
            ("switch.siren", false)]
  /\ elements (HomeAssistant.activated_devices c') = ["light.hall"]
  /\ (published w').*1
     = ["light.porch/set"; "light.hall/set"; "switch.siren/set";
        "schoolbus/announcement"; "homeassistant/notify"].
Proof. vm_compute. repeat split. Qed.

Example activate_devices_disconnected :
  let '(ok, c', w', log) :=
    HomeAssistant.activate_devices porch_controller 1000
      (mkWorld false [] []) in
  ok = false
  /\ log.*1 = ["light.porch"; "light.hall"; "switch.siren"]
  /\ elements (HomeAssistant.activated_devices c') = []
  /\ published w' = [].
Proof. vm_compute. repeat split. Qed.

Example emergency_stop_disconnected :
  let '(ok, c', w', log) :=
    HomeAssistant.emergency_stop tracking_controller (mkWorld false [] []) in
  ok = false
  /\ succeeded log = []
  /\ elements (HomeAssistant.activated_devices c') = []
  /\ HomeAssistant.activation_time c' = None.
Proof. vm_compute. repeat split. Qed.

(** * Properties of the activation controller *)

Section Activation.
Import Main.
Context {W : Type} `{HomeAssistant.Gateway W}.

(** The activation flag and the activation start after a control step. *)
Lemma handle_device_control_flags (cfg : config) (now ha_time : Q)
    (bus_detected : bool) (s : system) (w : W) :
  let s' := (handle_device_control cfg now ha_time bus_detected s w).1.1 in
  (devices_activated s', activation_start_time s') =
    if (bus_detected && negb (devices_activated s))%bool then (true, now)
    else if devices_activated s then
      if Qgtb (now - activation_start_time s) (activation_duration cfg)
      then (false, activation_start_time s)
      else (true, activation_start_time s)
    else (false, activation_start_time s).
Proof.
  unfold handle_device_control, activation_duration.
  destruct (bus_detected && negb (devices_activated s))%bool.
  - destruct (HomeAssistant.activate_devices _ _ _) as [[[ok ha'] w'] log].
    reflexivity.
  - destruct (devices_activated s) eqn:Hact; [| simpl; congruence].
    destruct (Qgtb _ _).
    + destruct (HomeAssistant.deactivate_devices _ _) as [[[ok ha'] w'] log].
      reflexivity.
    + simpl. congruence.
Qed.

(** While active and within the window, a control step changes nothing
    and sends nothing. *)
Lemma handle_device_control_within (cfg : config) (now ha_time : Q)
    (bus_detected : bool) (s : system) (w : W) :
  devices_activated s = true ->
  now - activation_start_time s <= activation_duration cfg ->
  handle_device_control cfg now ha_time bus_detected s w = (s, w, []).
Proof.
  intros Hact Hle. unfold handle_device_control. rewrite Hact.
  rewrite andb_false_r. apply Qgtb_le in Hle. unfold activation_duration in Hle.
  rewrite Hle. reflexivity.
Qed.

(** The flag after a control step, for the timelines below. *)
Lemma control_ticks_cons (cfg : config) (now : Q) (bus_detected : bool)
    (rest : list (Q * bool)) (s : system) (w : W) :
  control_ticks cfg ((now, bus_detected) :: rest) s w =
    devices_activated (handle_device_control cfg now now bus_detected s w).1.1
    :: control_ticks cfg rest
         (handle_device_control cfg now now bus_detected s w).1.1
         (handle_device_control cfg now now bus_detected s w).1.2.
Proof.
  simpl. destruct (handle_device_control _ _ _ _ _ _) as [[s' w'] log].
  reflexivity.
Qed.

(** The two components of an equation between pairs. *)
Ltac flag_equations H Hfst Hsnd :=
  pose proof (f_equal fst H) as Hfst;
  pose proof (f_equal snd H) as Hsnd;
  simpl in Hfst, Hsnd.

(** The three moves of the controller, on a timeline. *)
Lemma control_ticks_activate (cfg : config) (now : Q)
    (rest : list (Q * bool)) (s : system) (w : W) :
  devices_activated s = false ->
  exists (s' : system) (w' : W),
    devices_activated s' = true /\ activation_start_time s' = now
    /\ control_ticks cfg ((now, true) :: rest) s w
       = true :: control_ticks cfg rest s' w'.
Proof.
  intros Hidle. rewrite control_ticks_cons.
  pose proof (handle_device_control_flags cfg now now true s w) as Hflags.
  simpl in Hflags. rewrite Hidle in Hflags. simpl in Hflags.
  exists (handle_device_control cfg now now true s w).1.1,
         (handle_device_control cfg now now true s w).1.2.
  flag_equations Hflags Hflag Hstart.
  split; [exact Hflag |]. split; [exact Hstart |].
  rewrite Hflag. reflexivity.
Qed.

Lemma control_ticks_within (cfg : config) (now : Q) (bus_detected : bool)
    (rest : list (Q * bool)) (s : system) (w : W) :
  devices_activated s = true ->
  now - activation_start_time s <= activation_duration cfg ->
  control_ticks cfg ((now, bus_detected) :: rest) s w
    = true :: control_ticks cfg rest s w.
Proof.
  intros Hact Hle. rewrite control_ticks_cons.
  rewrite (handle_device_control_within cfg now now bus_detected s w Hact Hle).
  simpl. rewrite Hact. reflexivity.
Qed.

Lemma control_ticks_expire (cfg : config) (now : Q) (bus_detected : bool)
    (rest : list (Q * bool)) (s : system) (w : W) :
  devices_activated s = true ->
  activation_duration cfg < now - activation_start_time s ->
  exists (s' : system) (w' : W),
    devices_activated s' = false
    /\ control_ticks cfg ((now, bus_detected) :: rest) s w
       = false :: control_ticks cfg rest s' w'.
Proof.
  intros Hact Hlt. rewrite control_ticks_cons.
  pose proof (handle_device_control_flags cfg now now bus_detected s w)
    as Hflags.
  simpl in Hflags. rewrite Hact, andb_false_r in Hflags.
  apply Qgtb_gt in Hlt. rewrite Hlt in Hflags.
  exists (handle_device_control cfg now now bus_detected s w).1.1,
         (handle_device_control cfg now now bus_detected s w).1.2.
  flag_equations Hflags Hflag Hstart.
  split; [exact Hflag |]. rewrite Hflag. reflexivity.
Qed.

(** C4.  For every active state, a tick that carries a further
    qualifying event (the frame goes through [process_detections], on
    whatever gateway and whatever it returns or raises, then the control
    step runs with the event reported) leaves
    [activation_start_time] as it was, does exactly what the same tick
    without the event does, and within the window leaves the whole state
    unchanged and active: the window is measured from the original
    [activation_start_time] and nothing resets or extends it.  So an
    activation at [t0] with a duration of 300 that sees events at
    [t0 + 100], [t0 + 200] and [t0 + 300] ends at the first control step
    after [t0 + 300] all the same. *)
Theorem no_extension_while_active :
  (forall (cfg : config) (now ha_time : Q) (detections : list detection)
          (s : system) (w0 w : W),
     devices_activated s = true ->
     let s1 := (process_detections cfg now detections s w0).1.1.2 in
     let r := handle_device_control cfg now ha_time true s1 w in
     devices_activated s1 = true
     /\ activation_start_time s1 = activation_start_time s
     /\ activation_start_time r.1.1 = activation_start_time s
     /\ r = handle_device_control cfg now ha_time false s1 w
     /\ (devices_activated r.1.1 = true <->
         now - activation_start_time s <= activation_duration cfg)
     /\ (now - activation_start_time s <= activation_duration cfg ->
         r = (s1, w, [])))
  /\ (forall (cfg : config) (t0 : Q) (s : system) (w : W),
        devices_activated s = false ->
        activation_duration cfg == 300 ->
        control_ticks cfg
          [(t0, true); (t0 + 100, true); (t0 + 200, true); (t0 + 300, true);
           (t0 + 301, true)] s w
        = [true; true; true; true; false]).
Proof.
  split.
  - intros cfg now ha_time detections s w0 w Hact.
    destruct (process_detections_activation cfg now detections s w0)
      as (Hact1 & Hstart1 & _ & _).
    set (s1 := (process_detections cfg now detections s w0).1.1.2) in *.
    rewrite Hact in Hact1. simpl.
    pose proof (handle_device_control_flags cfg now ha_time true s1 w)
      as Hflags.
    simpl in Hflags. rewrite Hact1, Hstart1 in Hflags. simpl in Hflags.
    split; [exact Hact1 |]. split; [exact Hstart1 |].
    split; [| split; [| split]].
    + destruct (Qgtb _ _); flag_equations Hflags Hflag Hstart; exact Hstart.
    + unfold handle_device_control. rewrite Hact1. reflexivity.
    + destruct (Qgtb _ _) eqn:Hc; flag_equations Hflags Hflag Hstart;
        rewrite Hflag.
      * apply Qgtb_gt in Hc. split; [discriminate |].
        intros Hle. exfalso. revert Hc. apply Qle_not_lt, Hle.
      * apply Qgtb_le in Hc. tauto.
    + intros Hle. apply handle_device_control_within; [exact Hact1 |].
      rewrite Hstart1. exact Hle.
  - intros cfg t0 s w Hidle Hdur.
    destruct (control_ticks_activate cfg t0
                [(t0 + 100, true); (t0 + 200, true); (t0 + 300, true);
                 (t0 + 301, true)] s w Hidle)
      as (s' & w' & Hact & Hstart & ->).
    rewrite !control_ticks_within
      by (try exact Hact; rewrite Hstart, Hdur; lra).
    destruct (control_ticks_expire cfg (t0 + 301) true [] s' w' Hact)
      as (s'' & w'' & _ & ->); [rewrite Hstart, Hdur; lra |].
    reflexivity.
Qed.

End Activation.

(** * The controller on a scripted gateway *)

Section ScriptedRuns.
Import Main.


Lemma no_extension_while_active_witness :
  (let s1 := (process_detections default_config 100 [big_bus]
                active_since_0 obliging_world).1.1.2 in
   let r := handle_device_control default_config 100 100 true s1
              obliging_world in
   devices_activated s1 = true
   /\ activation_start_time s1 = activation_start_time active_since_0
   /\ activation_start_time r.1.1 = activation_start_time active_since_0
   /\ r = handle_device_control default_config 100 100 false s1 obliging_world
   /\ (devices_activated r.1.1 = true <->
       100 - activation_start_time active_since_0
       <= activation_duration default_config)
   /\ (100 - activation_start_time active_since_0
       <= activation_duration default_config ->
       r = (s1, obliging_world, [])))
  /\ control_ticks default_config
       [(1000, true); (1000 + 100, true); (1000 + 200, true);
        (1000 + 300, true); (1000 + 301, true)] idle_system obliging_world
     = [true; true; true; true; false].
Proof.
  destruct (@no_extension_while_active scripted_world _) as [Hstep Htimeline].
  split.
  - apply (Hstep default_config 100 100 [big_bus] active_since_0
             obliging_world obliging_world).
    reflexivity.
  - apply Htimeline; reflexivity.
Defined.

End ScriptedRuns.

(** * Properties of the detector's post-processing *)

Section Postprocess.
Import HailoDetector.

(** [np.argmax] returns a position of the sequence, and the score there
    is the largest. *)
Lemma argmax_from_best (best_i : nat) (best : Q) (i : nat) (l : list Q) :
  let '(k, v) := argmax_from best_i best i l in
  best <= v /\ (forall x : Q, x ∈ l -> x <= v) /\ (v = best \/ v ∈ l).
Proof.
  revert best_i best i.
  induction l as [| x rest IH]; intros best_i best i; simpl.
  - split; [apply Qle_refl |]. split; [| left; reflexivity].
    intros x Hx. inversion Hx.
  - destruct (Qgtb x best) eqn:Hc.
    + apply Qgtb_gt in Hc. specialize (IH i x (S i)).
      destruct (argmax_from i x (S i) rest) as [k v].
      destruct IH as (Hge & Hall & Hin).
      split; [apply Qlt_le_weak; eapply Qlt_le_trans; eassumption |].
      split.
      * intros y Hy. apply elem_of_cons in Hy as [-> | Hy]; auto.
      * right. destruct Hin as [-> | Hin]; [left | right; exact Hin].
    + apply Qgtb_le in Hc. specialize (IH best_i best (S i)).
      destruct (argmax_from best_i best (S i) rest) as [k v].
      destruct IH as (Hge & Hall & Hin).
      split; [exact Hge |]. split.
      * intros y Hy. apply elem_of_cons in Hy as [-> | Hy]; auto.
        eapply Qle_trans; eassumption.
      * destruct Hin as [-> | Hin];
          [left; reflexivity | right; right; exact Hin].
Qed.

Lemma argmax_best (class_scores : list Q) (k : nat) (v : Q) :
  argmax class_scores = Ok (k, v) ->
  v ∈ class_scores /\ forall x : Q, x ∈ class_scores -> x <= v.
Proof.
  destruct class_scores as [| x rest]; simpl; [discriminate |].
  intros Heq. injection Heq as Heq.
  pose proof (argmax_from_best 0 x 1 rest) as Hbest. rewrite Heq in Hbest.
  destruct Hbest as (Hge & Hall & Hin). split.
  - destruct Hin as [-> | Hin]; [left | right; exact Hin].
  - intros y Hy. apply elem_of_cons in Hy as [-> | Hy]; auto.
Qed.

Lemma clamp_bounds (v dim : Z) :
  (0 < dim)%Z -> (0 <= clamp v dim <= dim - 1)%Z.
Proof. unfold clamp. lia. Qed.

Lemma clamp_idempotent (v dim : Z) : clamp (clamp v dim) dim = clamp v dim.
Proof. unfold clamp. lia. Qed.

Lemma postprocess_row_from_row (self : detector) (f : frame)
    (scale_x scale_y : Q) (row : list Q) (d : detection) :
  postprocess_row self (height f) (width f) scale_x scale_y row = Ok (Some d) ->
  from_row self f row d.
Proof.
  unfold postprocess_row.
  destruct row
    as [| x_center [| y_center [| w [| h [| objectness class_scores]]]]];
    try discriminate.
  destruct (argmax class_scores) as [[k best] | e] eqn:Hargmax; simpl;
    [| discriminate].
  destruct (Qgeb (objectness * best) (min_confidence self)) eqn:Hc;
    [| discriminate].
  apply Qgeb_ge in Hc. intros Heq. injection Heq as <-.
  unfold from_row.
  repeat eexists; simpl; try reflexivity; try exact Hc; try exact Hargmax;
    symmetry; apply clamp_idempotent.
Qed.

Lemma postprocess_rows_from_row (self : detector) (f : frame)
    (scale_x scale_y : Q) (output : list (list Q)) (ds : list detection) :
  postprocess_rows self (height f) (width f) scale_x scale_y output = Ok ds ->
  forall d : detection, d ∈ ds ->
    exists row : list Q, row ∈ output /\ from_row self f row d.
Proof.
  revert ds. induction output as [| row rest IH]; simpl; intros ds Hrun d Hd.
  - injection Hrun as <-. inversion Hd.
  - destruct (postprocess_row self (height f) (width f) scale_x scale_y row)
      as [r | e] eqn:Hrow; simpl in Hrun; [| discriminate].
    destruct (postprocess_rows self (height f) (width f) scale_x scale_y rest)
      as [ds' | e] eqn:Hrest; simpl in Hrun; [| discriminate].
    injection Hrun as <-.
    assert (forall d', d' ∈ ds' ->
              exists row', row' ∈ row :: rest /\ from_row self f row' d')
      as Htail.
    { intros d' Hd'. destruct (IH ds' eq_refl d' Hd') as (row' & Hin & Hfrom).
      exists row'. split; [right; exact Hin | exact Hfrom]. }
    destruct r as [d0 |]; [| exact (Htail d Hd)].
    apply elem_of_cons in Hd as [-> | Hd]; [| exact (Htail d Hd)].
    exists row. split; [left |].
    eapply postprocess_row_from_row. exact Hrow.
Qed.

End Postprocess.

(** * Properties of the non-maximum suppression *)

Section Suppression.
Import HailoDetector.

Lemma iou_sym (a b : rect) : iou a b == iou b a.
Proof.
  destruct a as [[[ax ay] aw] ah], b as [[[bx by_] bw] bh]. unfold iou.
  assert (Qmax 0 (Qmin (ax + aw) (bx + bw) - Qmax ax bx)
          == Qmax 0 (Qmin (bx + bw) (ax + aw) - Qmax bx ax)) as Hw.
  { rewrite (Q.min_comm (ax + aw)), (Q.max_comm ax). reflexivity. }
  assert (Qmax 0 (Qmin (ay + ah) (by_ + bh) - Qmax ay by_)
          == Qmax 0 (Qmin (by_ + bh) (ay + ah) - Qmax by_ ay)) as Hh.
  { rewrite (Q.min_comm (ay + ah)), (Q.max_comm ay). reflexivity. }
  rewrite Hw, Hh. apply Qdiv_comp; [reflexivity | ring].
Qed.

Lemma greedy_elem (thr : Q) (l : list candidate) (c : candidate) :
  c ∈ greedy thr l -> c ∈ l.
Proof.
  funelim (greedy thr l); simp greedy; intros Hin;
    try solve [inversion Hin].
  apply elem_of_cons in Hin as [-> | Hin]; [left |].
  right. apply H in Hin. apply list_elem_of_filter in Hin as [_ Hin].
  exact Hin.
Qed.

Lemma greedy_apart (thr : Q) (l : list candidate) :
  ForallOrdPairs (apart thr) (greedy thr l).
Proof.
  funelim (greedy thr l); simp greedy; try solve [constructor].
  constructor; [| exact H].
  apply List.Forall_forall. intros c' Hin.
  apply list_elem_of_In, greedy_elem, list_elem_of_filter in Hin as [Hfar _].
  exact Hfar.
Qed.

Lemma ForallOrdPairs_lookup {A : Type} (R : A -> A -> Prop) (l : list A)
    (i j : nat) (a b : A) :
  ForallOrdPairs R l -> (i < j)%nat ->
  l !! i = Some a -> l !! j = Some b -> R a b.
Proof.
  intros Hl. revert i j. induction Hl as [| x l Hx Hl IH]; intros i j Hij Hi Hj.
  - inversion Hi.
  - destruct j as [| j]; [lia |]. destruct i as [| i]; simpl in Hi, Hj.
    + injection Hi as <-. rewrite List.Forall_forall in Hx. apply Hx.
      apply list_elem_of_In. eapply list_elem_of_lookup_2. exact Hj.
    + apply (IH i j); [lia | exact Hi | exact Hj].
Qed.

End Suppression.

Section ApplyNms.
Import HailoDetector.

(** The candidates [NMSBoxes] keeps: apart from each other, each the
    rectangle and score of its index, none below the score threshold. *)
Lemma NMSBoxes_kept (boxes : list rect) (scores : list Q)
    (score_threshold thr : Q) :
  exists kept : list candidate,
    NMSBoxes boxes scores score_threshold thr = cand_index <$> kept
    /\ ForallOrdPairs (apart thr) kept
    /\ forall c : candidate, c ∈ kept ->
         boxes !! cand_index c = Some (cand_rect c)
         /\ scores !! cand_index c = Some (cand_score c)
         /\ score_threshold <= cand_score c.
Proof.
  unfold NMSBoxes. eexists. split; [reflexivity |].
  split; [apply greedy_apart |].
  intros c Hin. apply greedy_elem in Hin.
  rewrite merge_sort_Permutation in Hin.
  apply list_elem_of_filter in Hin as [Hscore Hin].
  apply elem_of_lookup_imap in Hin as (i & [b s] & -> & Hlook).
  apply lookup_zip_with_Some in Hlook as (b' & s' & Heq & Hb & Hs).
  injection Heq as -> ->. simpl in *. auto.
Qed.

(** The conversion loop succeeds on dictionaries that have a box and a
    confidence, and lists their rectangles and scores in order. *)
Lemma boxes_and_scores_ok (detections : list detection) :
  (forall d : detection, d ∈ detections ->
     is_Some (bbox d) /\ is_Some (confidence d)) ->
  exists scores : list Q,
    boxes_and_scores detections = Ok (rect_of <$> detections, scores).
Proof.
  induction detections as [| d rest IH]; intros Hkeys; simpl.
  - exists []. reflexivity.
  - destruct (Hkeys d) as [[b Hb] [s Hs]]; [left |].
    destruct IH as [scores Hrest].
    { intros d' Hd'. apply Hkeys. right. exact Hd'. }
    rewrite Hb, Hs, Hrest. simpl. exists (s :: scores).
    unfold rect_of. rewrite Hb. reflexivity.
Qed.

(** The rectangles are those of the detections whenever the loop
    succeeds. *)
Lemma boxes_and_scores_rects (detections : list detection)
    (boxes : list rect) (scores : list Q) :
  boxes_and_scores detections = Ok (boxes, scores) ->
  boxes = rect_of <$> detections.
Proof.
  revert boxes scores.
  induction detections as [| d rest IH]; intros boxes scores; simpl.
  - intros Heq. injection Heq as <- <-. reflexivity.
  - destruct (bbox d) as [b |] eqn:Hb; [| discriminate].
    destruct (confidence d) as [s |]; [| discriminate].
    destruct (boxes_and_scores rest) as [[boxes' scores'] | e]; simpl;
      [| discriminate].
    intros Heq. injection Heq as <- <-.
    rewrite (IH boxes' scores' eq_refl). unfold rect_of at 2. rewrite Hb.
    reflexivity.
Qed.

(** The selection loop returns the detections at the indices, in order,
    and raises only on an index out of range. *)
Lemma select_ok (detections : list detection) (indices : list nat) :
  (forall i : nat, i ∈ indices -> is_Some (detections !! i)) ->
  exists kept : list detection,
    select detections indices = Ok kept
    /\ Forall2 (fun i d => detections !! i = Some d) indices kept.
Proof.
  induction indices as [| i rest IH]; intros Hvalid; simpl.
  - exists []. split; [reflexivity | constructor].
  - destruct (Hvalid i) as [d Hd]; [left |].
    destruct IH as (kept & Hsel & Hall).
    { intros j Hj. apply Hvalid. right. exact Hj. }
    rewrite Hd, Hsel. simpl. exists (d :: kept).
    split; [reflexivity | constructor; assumption].
Qed.

Lemma select_elem (detections : list detection) (indices : list nat)
    (kept : list detection) :
  select detections indices = Ok kept ->
  Forall2 (fun i d => detections !! i = Some d) indices kept.
Proof.
  revert kept. induction indices as [| i rest IH]; intros kept; simpl.
  - intros Heq. injection Heq as <-. constructor.
  - destruct (detections !! i) as [d |] eqn:Hd; [| discriminate].
    destruct (select detections rest) as [kept' | e]; simpl; [| discriminate].
    intros Heq. injection Heq as <-. constructor; auto.
Qed.

(** Whatever [_apply_nms] returns was among its input. *)
Lemma apply_nms_subset (self : detector) (detections kept : list detection) :
  _apply_nms self detections = Ok kept ->
  forall d : detection, d ∈ kept -> d ∈ detections.
Proof.
  unfold _apply_nms. destruct detections as [| d0 rest].
  - intros Heq. injection Heq as <-. auto.
  - destruct (boxes_and_scores (d0 :: rest)) as [[boxes scores] | e];
      simpl; [| discriminate].
    intros Hsel d Hd.
    assert (exists indices, select (d0 :: rest) indices = Ok kept)
      as [indices Hsel'].
    { destruct (NMSBoxes boxes scores _ _) as [| i l];
        [exists [] | exists (i :: l)]; exact Hsel. }
    apply select_elem in Hsel'.
    apply list_elem_of_lookup in Hd as [j Hj].
    destruct (Forall2_lookup_r _ _ _ _ _ Hsel' Hj) as (i & _ & Hi).
    eapply list_elem_of_lookup_2. exact Hi.
Qed.

(** C6.  On detections that carry a box and a confidence, as those the
    row loop builds do, [_apply_nms] returns a list; every detection in
    it is one of the input detections; and any two detections at
    different positions of it have rectangles whose intersection-over-union
    is at most [nms_threshold]. *)
Theorem apply_nms_postcondition (self : detector)
    (detections : list detection) :
  (forall d : detection, d ∈ detections ->
     is_Some (bbox d) /\ is_Some (confidence d)) ->
  exists kept : list detection,
    _apply_nms self detections = Ok kept
    /\ (forall d : detection, d ∈ kept -> d ∈ detections)
    /\ (forall (i j : nat) (a b : detection),
          i <> j -> kept !! i = Some a -> kept !! j = Some b ->
          iou (rect_of a) (rect_of b) <= nms_threshold self).
Proof.
  intros Hkeys.
  assert (exists kept, _apply_nms self detections = Ok kept
            /\ exists cands : list candidate,
                 ForallOrdPairs (apart (nms_threshold self)) cands
                 /\ Forall2 (fun c d => detections !! cand_index c = Some d)
                            cands kept
                 /\ forall c : candidate, c ∈ cands ->
                      (rect_of <$> detections) !! cand_index c
                      = Some (cand_rect c))
    as (kept & Hrun & cands & Hapart & Hall & Hcand).
  { unfold _apply_nms. destruct detections as [| d0 rest].
    - exists []. split; [reflexivity |]. exists [].
      split; [constructor |]. split; [constructor |].
      intros c Hc. inversion Hc.
    - destruct (boxes_and_scores_ok (d0 :: rest) Hkeys) as [scores Hbs].
      rewrite Hbs. simpl.
      destruct (NMSBoxes_kept (rect_of <$> d0 :: rest) scores
                  (min_confidence self) (nms_threshold self))
        as (cands & Hidx & Hapart & Hcand).
      destruct (select_ok (d0 :: rest) (cand_index <$> cands))
        as (kept & Hsel & Hall).
      { intros i Hi. apply list_elem_of_fmap in Hi as (c & -> & Hc).
        destruct (Hcand c Hc) as (Hbox & _).
        rewrite list_lookup_fmap in Hbox.
        destruct ((d0 :: rest) !! cand_index c); [eauto | discriminate]. }
      exists kept. split.
      { simpl in Hidx. rewrite Hidx.
        destruct (cand_index <$> cands); exact Hsel. }
      exists cands. split; [exact Hapart |].
      split; [apply Forall2_fmap_l in Hall; exact Hall |].
      intros c Hc. apply (Hcand c Hc). }
  assert (forall (i : nat) (a : detection), kept !! i = Some a ->
            exists c : candidate,
              cands !! i = Some c /\ rect_of a = cand_rect c) as Hrect.
  { intros i a Ha.
    destruct (Forall2_lookup_r _ _ _ _ _ Hall Ha) as (c & Hc & Hd).
    exists c. split; [exact Hc |].
    pose proof (Hcand c (list_elem_of_lookup_2 _ _ _ Hc)) as Hbox.
    rewrite list_lookup_fmap, Hd in Hbox. simpl in Hbox. congruence. }
  exists kept. split; [exact Hrun |].
  split; [exact (apply_nms_subset self detections kept Hrun) |].
  intros i j a b Hij Ha Hb.
  destruct (Hrect i a Ha) as (ca & Hca & ->).
  destruct (Hrect j b Hb) as (cb & Hcb & ->).
  destruct (Nat.lt_total i j) as [Hlt | [Heq | Hgt]]; [| contradiction |].
  - apply Qnot_lt_le.
    exact (ForallOrdPairs_lookup _ _ _ _ _ _ Hapart Hlt Hca Hcb).
  - rewrite iou_sym. apply Qnot_lt_le.
    exact (ForallOrdPairs_lookup _ _ _ _ _ _ Hapart Hgt Hcb Hca).
Qed.

End ApplyNms.

(** * Properties of [detect] *)

Section Detect.
Import HailoDetector.

(** The only way for [detect] to return something. *)
Lemma detect_nonempty (self : detector) (f : frame) (d : detection) :
  d ∈ detect self f ->
  exists (infer : frame -> result (list tensor)) (outputs : list tensor),
    input_vstreams self = Some infer
    /\ (0 < height f)%Z /\ (0 < width f)%Z
    /\ infer f = Ok outputs
    /\ _postprocess_outputs self outputs f = Ok (detect self f).
Proof.
  unfold detect, detect_body, _detect_opencv_fallback, _preprocess_frame.
  destruct (HAILO_AVAILABLE self); [| intros Hd; inversion Hd].
  destruct (input_vstreams self) as [infer |]; [| intros Hd; inversion Hd].
  destruct (height f <=? 0)%Z eqn:Hh; [intros Hd; inversion Hd |].
  destruct (width f <=? 0)%Z eqn:Hw; [intros Hd; inversion Hd |].
  destruct (_ || _)%bool; [intros Hd; inversion Hd |]. simpl.
  destruct (infer f) as [outputs | e] eqn:Hinfer; simpl;
    [| intros Hd; inversion Hd].
  destruct (_postprocess_outputs self outputs f) as [ds | e] eqn:Hpost;
    [| intros Hd; inversion Hd].
  intros _. exists infer, outputs.
  repeat split; try reflexivity; try lia; assumption.
Qed.

(** Every detection [_postprocess_outputs] returns comes from a row of
    the first batch entry of the first tensor. *)
Lemma postprocess_outputs_from_row (self : detector) (outputs : list tensor)
    (f : frame) (ds : list detection) :
  _postprocess_outputs self outputs f = Ok ds ->
  forall d : detection, d ∈ ds ->
    exists (output : list (list Q)) (others : list (list (list Q)))
           (tensors : list tensor) (row : list Q),
      outputs = (output :: others) :: tensors
      /\ row ∈ output /\ from_row self f row d.
Proof.
  unfold _postprocess_outputs.
  destruct outputs as [| [| output others] tensors].
  - intros Heq. injection Heq as <-. intros d Hd. inversion Hd.
  - discriminate.
  - destruct (input_width self =? 0)%Z; [discriminate |].
    destruct (input_height self =? 0)%Z; [discriminate |].
    destruct (postprocess_rows _ _ _ _ _ output) as [ds0 | e] eqn:Hrows;
      simpl; [| discriminate].
    intros Hnms d Hd.
    apply (apply_nms_subset self ds0 ds Hnms) in Hd.
    destruct (postprocess_rows_from_row _ _ _ _ _ _ Hrows d Hd)
      as (row & Hin & Hfrom).
    exists output, others, tensors, row. auto.
Qed.

(** A product of two numbers of the unit interval is in the unit
    interval. *)
Lemma unit_product (a b : Q) :
  0 <= a <= 1 -> 0 <= b <= 1 -> 0 <= a * b <= 1.
Proof. intros [Ha0 Ha1] [Hb0 Hb1]. split; nra. Qed.

(** C5, as the code has it.  Every detection [detect] returns comes from
    a candidate row of the accelerator's output: its confidence is the
    row's objectness times its best class score (a score of the row that
    no other exceeds), that confidence is at least [min_confidence], and
    each coordinate of its box is within [0, width - 1] horizontally and
    [0, height - 1] vertically.  The confidence lies in [0, 1] when the
    row's objectness and best class score do; nothing in the code bounds
    it otherwise. *)
Theorem detect_postcondition (self : detector) (f : frame) (d : detection) :
  d ∈ detect self f ->
  exists (x_center y_center w h objectness best : Q) (class_scores : list Q)
         (k : nat) (x1 y1 x2 y2 : Z),
    (x_center :: y_center :: w :: h :: objectness :: class_scores)
      ∈ raw_rows self f
    /\ argmax class_scores = Ok (k, best)
    /\ best ∈ class_scores
    /\ (forall v : Q, v ∈ class_scores -> v <= best)
    /\ confidence d = Some (objectness * best)
    /\ min_confidence self <= objectness * best
    /\ (0 <= objectness <= 1 -> 0 <= best <= 1 ->
        0 <= objectness * best <= 1)
    /\ bbox d = Some (x1, y1, x2, y2)
    /\ (0 <= x1 <= width f - 1)%Z /\ (0 <= x2 <= width f - 1)%Z
    /\ (0 <= y1 <= height f - 1)%Z /\ (0 <= y2 <= height f - 1)%Z.
Proof.
  intros Hd.
  destruct (detect_nonempty self f d Hd)
    as (infer & outputs & Hvs & Hh & Hw & Hinfer & Hpost).
  destruct (postprocess_outputs_from_row self outputs f _ Hpost d Hd)
    as (output & others & tensors & row & -> & Hrow & Hfrom).
  destruct Hfrom as (x_center & y_center & w & h & objectness & class_scores
    & k & best & x1 & y1 & x2 & y2 & -> & Hargmax & Hconf & _ & _ & Hmin
    & Hbox & Hx1 & Hx2 & Hy1 & Hy2).
  destruct (argmax_best class_scores k best Hargmax) as [Hin Hmax].
  exists x_center, y_center, w, h, objectness, best, class_scores, k,
         x1, y1, x2, y2.
  split; [unfold raw_rows; rewrite Hvs, Hinfer; exact Hrow |].
  split; [exact Hargmax |]. split; [exact Hin |]. split; [exact Hmax |].
  split; [exact Hconf |]. split; [exact Hmin |].
  split; [apply unit_product |]. split; [exact Hbox |].
  rewrite Hx1, Hx2, Hy1, Hy2.
  repeat split; apply clamp_bounds; assumption.
Qed.

(** C7.  Whatever the frame: when the inference raises, when the
    post-processing raises, when the preprocessing raises, [detect]
    returns the empty list; without a usable accelerator it returns the
    (empty) result of the fallback; otherwise it returns what the
    post-processing returned.  [detect] is a total function into lists,
    so no exception leaves it. *)
Theorem detect_contains_exceptions (self : detector) (f : frame) :
  (forall (infer : frame -> result (list tensor)) (e : string),
     HAILO_AVAILABLE self = true -> input_vstreams self = Some infer ->
     infer f = Raise e -> detect self f = [])
  /\ (forall (infer : frame -> result (list tensor)) (outputs : list tensor)
             (e : string),
        HAILO_AVAILABLE self = true -> input_vstreams self = Some infer ->
        infer f = Ok outputs ->
        _postprocess_outputs self outputs f = Raise e -> detect self f = [])
  /\ (forall e : string,
        _preprocess_frame self f = Raise e -> detect self f = [])
  /\ (HAILO_AVAILABLE self = false \/ input_vstreams self = None ->
      detect self f = [])
  /\ (forall (infer : frame -> result (list tensor)) (outputs : list tensor)
             (ds : list detection),
        HAILO_AVAILABLE self = true -> input_vstreams self = Some infer ->
        _preprocess_frame self f = Ok f ->
        infer f = Ok outputs ->
        _postprocess_outputs self outputs f = Ok ds -> detect self f = ds).
Proof.
  unfold detect, detect_body, _detect_opencv_fallback.
  split; [| split; [| split; [| split]]].
  - intros infer e -> -> Hinfer.
    destruct (_preprocess_frame self f) as [f' | e'] eqn:Hpre; simpl;
      [| reflexivity].
    unfold _preprocess_frame in Hpre.
    destruct (_ || _)%bool; [discriminate |]. injection Hpre as <-.
    rewrite Hinfer. reflexivity.
  - intros infer outputs e -> -> Hinfer Hpost.
    destruct (_preprocess_frame self f) as [f' | e'] eqn:Hpre; simpl;
      [| reflexivity].
    unfold _preprocess_frame in Hpre.
    destruct (_ || _)%bool; [discriminate |]. injection Hpre as <-.
    rewrite Hinfer. simpl. rewrite Hpost. reflexivity.
  - intros e ->. simpl.
    destruct (HAILO_AVAILABLE self), (input_vstreams self); reflexivity.
  - intros [-> | ->]; [reflexivity |].
    destruct (HAILO_AVAILABLE self); reflexivity.
  - intros infer outputs ds -> -> -> Hinfer Hpost. simpl.
    rewrite Hinfer. simpl. rewrite Hpost. reflexivity.
Qed.

End Detect.

(** * The detector on concrete outputs *)

Section DetectorRuns.
Import HailoDetector.

(** The suppression at work: the less confident of two boxes on the same
    person goes, the box elsewhere stays. *)
Example apply_nms_suppresses :
  _apply_nms (detector_answering (Ok []))
    [quiet_person; kept_bicycle; loud_person]
  = Ok [loud_person; kept_bicycle].
Proof. vm_compute. reflexivity. Qed.

Example iou_same_person :
  iou (rect_of loud_person) (rect_of quiet_person) == 19 # 21.
Proof. vm_compute. reflexivity. Qed.

(** C5 as the specification words it fails on the confidence bound: a
    candidate whose objectness is 2 and whose best class score is 1 comes
    out of [detect] with confidence 2. *)
Lemma detect_confidence_above_one :
  loud_person ∈ detect (detector_answering (Ok [[loud_rows]])) hd_frame
  /\ confidence loud_person = Some 2
  /\ ~ 2 <= 1.
Proof.
  split; [| split].
  - apply list_elem_of_In. vm_compute. left. reflexivity.
  - reflexivity.
  - intros Hle. vm_compute in Hle. congruence.
Qed.

Lemma detect_postcondition_witness :
  exists (x_center y_center w h objectness best : Q) (class_scores : list Q)
         (k : nat) (x1 y1 x2 y2 : Z),
    (x_center :: y_center :: w :: h :: objectness :: class_scores)
      ∈ raw_rows (detector_answering (Ok [[loud_rows]])) hd_frame
    /\ argmax class_scores = Ok (k, best)
    /\ best ∈ class_scores
    /\ (forall v : Q, v ∈ class_scores -> v <= best)
    /\ confidence kept_bicycle = Some (objectness * best)
    /\ min_confidence (detector_answering (Ok [[loud_rows]]))
       <= objectness * best
    /\ (0 <= objectness <= 1 -> 0 <= best <= 1 ->
        0 <= objectness * best <= 1)
    /\ bbox kept_bicycle = Some (x1, y1, x2, y2)
    /\ (0 <= x1 <= width hd_frame - 1)%Z /\ (0 <= x2 <= width hd_frame - 1)%Z
    /\ (0 <= y1 <= height hd_frame - 1)%Z
    /\ (0 <= y2 <= height hd_frame - 1)%Z.
Proof.
  apply (detect_postcondition (detector_answering (Ok [[loud_rows]]))
           hd_frame kept_bicycle).
  apply list_elem_of_In. vm_compute. right. left. reflexivity.
Defined.

Lemma apply_nms_postcondition_witness :
  exists kept : list detection,
    _apply_nms (detector_answering (Ok []))
      [quiet_person; kept_bicycle; loud_person] = Ok kept
    /\ (forall d : detection,
          d ∈ kept -> d ∈ [quiet_person; kept_bicycle; loud_person])
    /\ (forall (i j : nat) (a b : detection),
          i <> j -> kept !! i = Some a -> kept !! j = Some b ->
          iou (rect_of a) (rect_of b)
          <= nms_threshold (detector_answering (Ok []))).
Proof.
  apply (apply_nms_postcondition (detector_answering (Ok []))
           [quiet_person; kept_bicycle; loud_person]).
  intros d Hd. apply list_elem_of_In in Hd. simpl in Hd.
  destruct Hd as [<- | [<- | [<- | []]]]; split; eexists; reflexivity.
Defined.

Lemma detect_contains_exceptions_witness :
  detect (detector_answering (Raise "HailoRTException")) hd_frame = []
  /\ detect (detector_answering (Ok [[classless_rows]])) hd_frame = []
  /\ detect (detector_answering (Ok [[loud_rows]])) (mkFrame 0 0) = []
  /\ detect (mkDetector (7 # 10) (45 # 100) 640 640 false None) hd_frame = []
  /\ detect (detector_answering (Ok [[loud_rows]])) hd_frame
     = [loud_person; kept_bicycle].
Proof.
  split; [| split; [| split; [| split]]].
  - destruct (detect_contains_exceptions
                (detector_answering (Raise "HailoRTException")) hd_frame)
      as (Hinfer & _).
    apply (Hinfer (fun _ => Raise "HailoRTException") "HailoRTException");
      reflexivity.
  - destruct (detect_contains_exceptions
                (detector_answering (Ok [[classless_rows]])) hd_frame)
      as (_ & Hpost & _).
    apply (Hpost (fun _ => Ok [[classless_rows]]) [[classless_rows]]
             "ValueError"); reflexivity.
  - destruct (detect_contains_exceptions
                (detector_answering (Ok [[loud_rows]])) (mkFrame 0 0))
      as (_ & _ & Hpre & _).
    apply (Hpre "cv2.error"). reflexivity.
  - destruct (detect_contains_exceptions
                (mkDetector (7 # 10) (45 # 100) 640 640 false None) hd_frame)
      as (_ & _ & _ & Hnone & _).
    apply Hnone. left. reflexivity.
  - destruct (detect_contains_exceptions
                (detector_answering (Ok [[loud_rows]])) hd_frame)
      as (_ & _ & _ & _ & Hok).
    apply (Hok (fun _ => Ok [[loud_rows]]) [[loud_rows]]); reflexivity.
Defined.

End DetectorRuns.

(** * Properties of the frame buffer *)

Section FrameBuffer.
Import Camera.












(** The schedule of two frames and one fetch: the fetched array holds the
    first frame, the slot holds the second, and they are two arrays. *)
Example frame_buffer_run :
  let s := run two_frames_one_fetch init in
  returned s = [2%nat]
  /\ heap s !! 2%nat = Some [1; 2; 3]%Z
  /\ latest_frame s = Some 4%nat
  /\ heap s !! 4%nat = Some [4; 5; 6]%Z
  /\ frame_lock s = None.
Proof. vm_compute. repeat split. Qed.

End FrameBuffer.

(** * Properties of the configuration lookup *)

Section ConfigLookup.
Import ConfigManager.

Lemma split_nonempty (key : string) : split key <> [].
Proof.
  destruct key as [| c rest]; simpl; [discriminate |].
  destruct (Ascii.eqb c "."); [discriminate |].
  destruct (split rest); discriminate.
Qed.

(** A piece without a dot is one piece. *)
Lemma split_dot_free (piece : string) :
  dot_free piece = true -> split piece = [piece].
Proof.
  induction piece as [| c rest IH]; simpl; [reflexivity |].
  intros Hfree. apply andb_true_iff in Hfree as [Hc Hrest].
  apply negb_true_iff in Hc. rewrite Hc, (IH Hrest). reflexivity.
Qed.

(** Splitting a piece followed by a dot and more. *)
Lemma split_piece_dot (piece rest : string) :
  dot_free piece = true ->
  split (piece ++ "." ++ rest) = piece :: split rest.
Proof.
  induction piece as [| c piece IH]; simpl; [reflexivity |].
  intros Hfree. apply andb_true_iff in Hfree as [Hc Hpiece].
  apply negb_true_iff in Hc. rewrite Hc, (IH Hpiece). reflexivity.
Qed.

(** Splitting undoes the joining of dot-free pieces. *)
Lemma split_dotted (pieces : list string) :
  pieces <> [] ->
  forallb dot_free pieces = true ->
  split (dotted pieces) = pieces.
Proof.
  induction pieces as [| piece rest IH]; [congruence |].
  intros _ Hfree. simpl in Hfree.
  apply andb_true_iff in Hfree as [Hpiece Hrest].
  destruct rest as [| piece' rest'].
  - simpl. apply split_dot_free, Hpiece.
  - change (dotted (piece :: piece' :: rest'))
      with (piece ++ "." ++ dotted (piece' :: rest'))%string.
    rewrite (split_piece_dot _ _ Hpiece), IH; [reflexivity | discriminate |].
    exact Hrest.
Qed.

(** X1.  For a key made of dot-free pieces joined by dots, [get] follows
    the pieces through nested mappings: it returns the value stored at
    the end of the path, whatever it is, [None] included, and it returns
    the default exactly when some step fails, because a mapping lacks the
    piece or because the value reached is not a mapping. *)
Theorem get_follows_path (config_data default : value)
    (pieces : list string) :
  pieces <> [] ->
  forallb dot_free pieces = true ->
  get config_data (dotted pieces) default =
    match walk config_data pieces with
    | Ok v => v
    | Raise _ => default
    end
  /\ (forall (v : value) (k : string) (rest : list string),
        pieces = k :: rest ->
        (forall m : gmap string value, v <> VDict m) ->
        get v (dotted pieces) default = default)
  /\ (forall (m : gmap string value) (k : string) (rest : list string),
        pieces = k :: rest ->
        m !! k = None ->
        get (VDict m) (dotted pieces) default = default)
  /\ (forall (m : gmap string value) (k : string) (rest : list string)
             (v : value),
        pieces = k :: rest ->
        m !! k = Some v ->
        get (VDict m) (dotted pieces) default
        = match rest with
          | [] => v
          | _ => get v (dotted rest) default
          end).
Proof.
  intros Hne Hfree. unfold get.
  assert (forall v, walk v (split (dotted pieces)) = walk v pieces) as Hsplit.
  { intros v. rewrite split_dotted by assumption. reflexivity. }
  split; [rewrite Hsplit; reflexivity |]. split; [| split].
  - intros v k rest -> Hnot. rewrite Hsplit. simpl.
    destruct v as [| b | q | s | l | m]; try reflexivity.
    exfalso. exact (Hnot m eq_refl).
  - intros m k rest -> Hm. rewrite Hsplit. simpl. rewrite Hm. reflexivity.
  - intros m k rest v -> Hm. rewrite Hsplit. simpl. rewrite Hm. simpl.
    destruct rest as [| k' rest']; [reflexivity |].
    simpl in Hfree. apply andb_true_iff in Hfree as [_ Hrest].
    rewrite split_dotted by (try discriminate; exact Hrest). reflexivity.
Qed.

Lemma get_follows_path_witness :
  get sample_config (dotted ["detection"; "min_confidence"]) (VNum (7 # 10))
  = VNum (8 # 10)
  /\ get sample_config (dotted ["detection"; "cooldown_seconds"]) (VNum 30)
     = VNone
  /\ get sample_config (dotted ["detection"; "min_bus_size"]) (VNum (1 # 10))
     = VNum (1 # 10)
  /\ get sample_config (dotted ["camera"; "fps"]) (VNum 30) = VNum 30.
Proof.
  split; [| split; [| split]].
  - destruct (get_follows_path sample_config (VNum (7 # 10))
                ["detection"; "min_confidence"]) as [Hget _];
      [discriminate | reflexivity |].
    rewrite Hget. reflexivity.
  - destruct (get_follows_path sample_config (VNum 30)
                ["detection"; "cooldown_seconds"]) as [Hget _];
      [discriminate | reflexivity |].
    rewrite Hget. reflexivity.
  - destruct (get_follows_path sample_config (VNum (1 # 10))
                ["detection"; "min_bus_size"]) as [Hget _];
      [discriminate | reflexivity |].
    rewrite Hget. reflexivity.
  - destruct (get_follows_path sample_config (VNum 30) ["camera"; "fps"])
      as [Hget _]; [discriminate | reflexivity |].
    rewrite Hget. reflexivity.
Defined.

End ConfigLookup.

(** * Properties of the controller's device lists *)

Section DeviceLists.
Import HomeAssistant HomeAssistantDevices.
Context {W : Type} `{Gateway W}.

Lemma list_remove_other (x d : string) (l : list string) :
  d <> x -> (d ∈ list_remove x l <-> d ∈ l).
Proof.
  intros Hne. induction l as [| y rest IH]; simpl; [reflexivity |].
  destruct (String.eqb_spec x y) as [-> | Hxy].
  - rewrite elem_of_cons. split; [auto |]. intros [-> | Hin]; tauto.
  - rewrite !elem_of_cons, IH. reflexivity.
Qed.

Lemma filter_all {A : Type} (P : A -> Prop) `{forall x, Decision (P x)}
    (l : list A) :
  (forall x : A, x ∈ l -> P x) -> filter P l = l.
Proof.
  induction l as [| x rest IH]; intros Hall; [reflexivity |].
  rewrite filter_cons, decide_True by (apply Hall; left).
  rewrite IH; [reflexivity |]. intros y Hy. apply Hall. right. exact Hy.
Qed.

Lemma list_remove_snoc (x : string) (l : list string) :
  x ∉ l -> list_remove x (l ++ [x]) = l.
Proof.
  induction l as [| y rest IH]; simpl; intros Hnotin.
  - rewrite String.eqb_refl. reflexivity.
  - apply not_elem_of_cons in Hnotin as [Hne Hrest].
    destruct (String.eqb_spec x y) as [-> | _]; [congruence |].
    rewrite (IH Hrest). reflexivity.
Qed.

(** The device lists and the tracked set after [activate_devices]. *)
Lemma activate_devices_fields (c : controller) (now : Q) (w : W) :
  let '(ok, c', w', log) := activate_devices c now w in
  lights c' = lights c /\ switches c' = switches c
  /\ mqtt_client c' = mqtt_client c
  /\ log.*1 = lights c ++ switches c
  /\ activated_devices c'
     = list_to_set (succeeded log) ∪ activated_devices c.
Proof.
  unfold activate_devices.
  set (ls0 := mkLoop w (activated_devices c) 0 []).
  destruct (activate_loop (_turn_on_light c) (lights c) ls0)
    as (new1 & Ha1 & Hd1 & Ht1 & _).
  set (ls1 := foldl (activate_step (_turn_on_light c)) ls0 (lights c)) in *.
  destruct (activate_loop (_turn_on_switch c) (switches c) ls1)
    as (new2 & Ha2 & Hd2 & Ht2 & _).
  set (ls2 := foldl (activate_step (_turn_on_switch c)) ls1 (switches c)) in *.
  simpl in Ha1, Ht1. simpl.
  rewrite Ha2, Ha1, Ht2, Ht1, fmap_app, Hd1, Hd2, succeeded_app.
  repeat split; try reflexivity. set_solver.
Qed.

Lemma deactivate_devices_fields (c : controller) (w : W) :
  let '(ok, c', w', log) := deactivate_devices c w in
  lights c' = lights c /\ switches c' = switches c
  /\ mqtt_client c' = mqtt_client c.
Proof. unfold deactivate_devices. simpl. auto. Qed.

(** Each operation keeps the tracked devices among the configured ones. *)
Lemma apply_op_tracked_configured (c : controller) (w : W)
    (op : controller_op) :
  tracked_configured c -> tracked_configured (apply_op (c, w) op).1.
Proof.
  intros Hinv. unfold tracked_configured, configured in *.
  destruct op as [now | | | device_type entity_id | device_type entity_id];
    unfold apply_op.
  - pose proof (activate_devices_fields c now w) as Hf.
    destruct (activate_devices c now w) as [[[ok c'] w'] log].
    destruct Hf as (Hl & Hs & _ & Hlog & Htracked). simpl.
    intros d Hd. rewrite Hl, Hs, Htracked in *.
    apply elem_of_union in Hd as [Hd | Hd]; [| auto].
    apply elem_of_list_to_set, elem_of_succeeded in Hd.
    apply elem_of_app. rewrite <- Hlog. apply list_elem_of_fmap.
    exists (d, true). auto.
  - pose proof (deactivate_devices_fields c w) as Hf.
    pose proof (deactivate_devices_outcome c w) as Ho.
    destruct (deactivate_devices c w) as [[[ok c'] w'] log].
    destruct Hf as (Hl & Hs & _). destruct Ho as (_ & Htracked & _). simpl.
    intros d Hd. rewrite Hl, Hs. apply Hinv, Htracked, Hd.
  - rewrite emergency_stop_unfold.
    destruct (deactivate_devices c w) as [[[ok c'] w'] log]. simpl.
    intros d Hd. set_solver.
  - unfold add_device. cbn [fst snd].
    destruct (String.eqb device_type "light").
    + destruct (bool_decide (entity_id ∈ lights c)); simpl; [exact Hinv |].
      intros d Hd. destruct (Hinv d Hd); set_solver.
    + destruct (String.eqb device_type "switch"); [| exact Hinv].
      destruct (bool_decide (entity_id ∈ switches c)); simpl; [exact Hinv |].
      intros d Hd. destruct (Hinv d Hd); set_solver.
  - unfold remove_device. cbn [fst snd].
    destruct (String.eqb device_type "light"
              && bool_decide (entity_id ∈ lights c)) eqn:Hlight.
    + simpl. destruct (bool_decide_reflect (entity_id ∈ activated_devices c))
        as [Hin | Hnotin]; simpl; intros d Hd.
      * apply elem_of_difference in Hd as [Hd Hne].
        assert (d <> entity_id) as Hne' by set_solver.
        rewrite list_remove_other by exact Hne'. apply Hinv, Hd.
      * assert (d <> entity_id) as Hne' by congruence.
        rewrite list_remove_other by exact Hne'. apply Hinv, Hd.
    + destruct (String.eqb device_type "switch"
                && bool_decide (entity_id ∈ switches c)) eqn:Hswitch;
        [| exact Hinv].
      simpl. destruct (bool_decide_reflect (entity_id ∈ activated_devices c))
        as [Hin | Hnotin]; simpl; intros d Hd.
      * apply elem_of_difference in Hd as [Hd Hne].
        assert (d <> entity_id) as Hne' by set_solver.
        rewrite list_remove_other by exact Hne'. apply Hinv, Hd.
      * assert (d <> entity_id) as Hne' by congruence.
        rewrite list_remove_other by exact Hne'. apply Hinv, Hd.
Qed.

(** X2.  Starting from a controller whose tracked devices are all
    configured lights or switches (a new controller tracks nothing),
    every sequence of activations, deactivations, emergency stops,
    [add_device] and [remove_device] calls, on every gateway, leaves the
    tracked devices among the configured ones. *)
Theorem tracked_devices_stay_configured (c : controller) (w : W)
    (ops : list controller_op) :
  tracked_configured c ->
  tracked_configured (foldl apply_op (c, w) ops).1.
Proof.
  intros Hinv.
  assert (forall cw : controller * W,
            tracked_configured cw.1 ->
            tracked_configured (foldl apply_op cw ops).1) as Hrun.
  { induction ops as [| op rest IH]; intros cw Hcw; [exact Hcw |].
    change (foldl apply_op cw (op :: rest))
      with (foldl apply_op (apply_op cw op) rest).
    apply IH. destruct cw as [c0 w0].
    apply apply_op_tracked_configured, Hcw. }
  exact (Hrun (c, w) Hinv).
Qed.

(** X4.  A tracked device that a replacement of the configuration drops
    from both lists gets no turn-off command from [deactivate_devices]
    and stays in the tracked set, however often [deactivate_devices]
    runs. *)
Theorem dropped_device_stays_tracked (u : update) (c : controller) (w : W)
    (d : string) (ls ss : list string) :
  d ∈ activated_devices c ->
  new_lights u = Some ls -> new_switches u = Some ss ->
  d ∉ ls -> d ∉ ss ->
  d ∉ (deactivate_devices (update_configuration u c) w).2.*1
  /\ forall n : nat,
       d ∈ activated_devices
             (foldl apply_op (update_configuration u c, w)
                    (replicate n OpDeactivate)).1.
Proof.
  intros Hd Hls Hss Hnl Hns.
  assert (forall (c1 : controller) (w1 : W),
            d ∈ activated_devices c1 -> ~ configured c1 d ->
            d ∉ (deactivate_devices c1 w1).2.*1
            /\ d ∈ activated_devices (apply_op (c1, w1) OpDeactivate).1
            /\ ~ configured (apply_op (c1, w1) OpDeactivate).1 d) as Hstep.
  { intros c1 w1 Hd1 Hnc. unfold apply_op.
    pose proof (deactivate_devices_fields c1 w1) as Hf.
    pose proof (deactivate_devices_outcome c1 w1) as Ho.
    destruct (deactivate_devices c1 w1) as [[[ok c'] w'] log].
    destruct Hf as (Hl & Hs & _). destruct Ho as (Hlog & Htracked & _).
    cbn [fst snd].
    assert (d ∉ log.*1) as Hnolog.
    { rewrite Hlog. intros Hin. apply list_elem_of_filter in Hin as [Hc _].
      exact (Hnc Hc). }
    split; [exact Hnolog |]. split.
    - apply Htracked. split; [exact Hd1 |]. intros Hin. apply Hnolog.
      apply list_elem_of_fmap. exists (d, true). auto.
    - unfold configured in *. rewrite Hl, Hs. exact Hnc. }
  assert (d ∈ activated_devices (update_configuration u c)) as Hd0
    by exact Hd.
  assert (~ configured (update_configuration u c) d) as Hnc0.
  { unfold configured, update_configuration. simpl. rewrite Hls, Hss.
    simpl. tauto. }
  split; [apply Hstep; assumption |].
  intros n.
  assert (forall cw : controller * W,
            d ∈ activated_devices cw.1 -> ~ configured cw.1 d ->
            d ∈ activated_devices
                  (foldl apply_op cw (replicate n OpDeactivate)).1) as Hrun.
  { induction n as [| n IH]; intros cw Hin Hnc; [exact Hin |].
    change (foldl apply_op cw (replicate (S n) OpDeactivate))
      with (foldl apply_op (apply_op cw OpDeactivate)
                  (replicate n OpDeactivate)).
    destruct cw as [c1 w1].
    destruct (Hstep c1 w1 Hin Hnc) as (_ & Hin' & Hnc'). apply IH; assumption. }
  exact (Hrun (update_configuration u c, w) Hd0 Hnc0).
Qed.

(** X5.  [add_device] succeeds exactly for a light or switch that is not
    yet in its list, and otherwise leaves the controller as it was; it
    keeps lists without duplicates free of duplicates; and after a
    successful [add_device] the matching [remove_device] succeeds and
    gives back the controller it started from, the device no longer
    tracked. *)
Theorem add_then_remove_device (device_type entity_id : string)
    (c : controller) :
  ((add_device device_type entity_id c).1 = true <->
     (device_type = "light" /\ entity_id ∉ lights c)
     \/ (device_type = "switch" /\ entity_id ∉ switches c))
  /\ ((add_device device_type entity_id c).1 = false ->
      (add_device device_type entity_id c).2 = c)
  /\ (NoDup (lights c) -> NoDup (switches c) ->
      NoDup (lights (add_device device_type entity_id c).2)
      /\ NoDup (switches (add_device device_type entity_id c).2))
  /\ ((add_device device_type entity_id c).1 = true ->
      remove_device device_type entity_id
        (add_device device_type entity_id c).2
      = (true, set_activated (activated_devices c ∖ {[entity_id]}) c)).
Proof.
  unfold add_device.
  destruct (String.eqb_spec device_type "light") as [-> | Hnl].
  - destruct (bool_decide_reflect (entity_id ∈ lights c)) as [Hin | Hnotin];
      simpl.
    + split; [| split; [auto | split; [auto | discriminate]]].
      split; [discriminate |]. intros [[_ Hn] | [Heq _]];
        [contradiction | discriminate].
    + split; [tauto |]. split; [discriminate |]. split.
      * intros Hl Hs. split; [| exact Hs].
        apply NoDup_app. split; [exact Hl |]. split; [| apply NoDup_singleton].
        intros x Hx Hx'. apply list_elem_of_singleton in Hx' as ->.
        contradiction.
      * intros _. unfold remove_device. simpl.
        rewrite bool_decide_true by set_solver. simpl.
        rewrite (list_remove_snoc _ _ Hnotin).
        destruct c as [cl li sw vo me ac ti]. simpl in *.
        destruct (bool_decide_reflect (entity_id ∈ ac)) as [Hac | Hac];
          unfold set_activated, set_lights; simpl; [reflexivity |].
        do 2 f_equal. set_solver.
  - destruct (String.eqb_spec device_type "switch") as [-> | Hns].
    + destruct (bool_decide_reflect (entity_id ∈ switches c))
        as [Hin | Hnotin]; simpl.
      * split; [| split; [auto | split; [auto | discriminate]]].
        split; [discriminate |]. intros [[Heq _] | [_ Hn]];
          [discriminate | contradiction].
      * split; [tauto |]. split; [discriminate |]. split.
        -- intros Hl Hs. split; [exact Hl |].
           apply NoDup_app. split; [exact Hs |].
           split; [| apply NoDup_singleton].
           intros x Hx Hx'. apply list_elem_of_singleton in Hx' as ->.
           contradiction.
        -- intros _. unfold remove_device. simpl.
           rewrite bool_decide_true by set_solver. simpl.
           rewrite (list_remove_snoc _ _ Hnotin).
           destruct c as [cl li sw vo me ac ti]. simpl in *.
           destruct (bool_decide_reflect (entity_id ∈ ac)) as [Hac | Hac];
             unfold set_activated, set_switches; simpl; [reflexivity |].
           do 2 f_equal. set_solver.
    + simpl. split; [| split; [auto | split; [auto | discriminate]]].
      split; [discriminate |]. intros [[Heq _] | [Heq _]]; contradiction.
Qed.

(** Without a connected client no command is published. *)
Lemma send_command_disconnected (c : controller) (topic : string)
    (p : payload) (w : W) :
  (mqtt_client c && is_connected w)%bool = false ->
  send_command c topic p w = (false, w).
Proof. intros Hoff. unfold send_command. rewrite Hoff. reflexivity. Qed.

Lemma activate_loop_disconnected (turn_on : string -> W -> bool * W)
    (l : list string) (ls : loop_state) :
  (forall d : string, turn_on d (world ls) = (false, world ls)) ->
  foldl (activate_step turn_on) ls l
  = mkLoop (world ls) (tracked ls) (success_count ls)
           (attempts ls ++ all_failed l).
Proof.
  revert ls. induction l as [| d rest IH]; intros ls Hoff; simpl.
  - unfold all_failed. simpl. rewrite app_nil_r. destruct ls; reflexivity.
  - unfold activate_step at 2. rewrite Hoff.
    rewrite IH by exact Hoff. simpl. rewrite <- app_assoc. reflexivity.
Qed.

Lemma deactivate_loop_disconnected (c : controller) (l : list string)
    (ls : loop_state) :
  (mqtt_client c && is_connected (world ls))%bool = false ->
  foldl (deactivate_step c) ls l
  = mkLoop (world ls) (tracked ls) (success_count ls)
           (attempts ls ++ all_failed (filter (configured c) l)).
Proof.
  revert ls. induction l as [| d rest IH]; intros ls Hoff; simpl.
  - unfold all_failed. simpl. rewrite app_nil_r. destruct ls; reflexivity.
  - rewrite filter_cons. unfold deactivate_step at 2, configured.
    unfold _turn_off_light, _turn_off_switch.
    rewrite !(send_command_disconnected c _ _ _ Hoff).
    destruct (decide (d ∈ lights c)) as [Hl | Hl].
    + rewrite bool_decide_true by exact Hl.
      rewrite decide_True by (left; exact Hl).
      rewrite IH by exact Hoff. simpl. rewrite <- app_assoc. reflexivity.
    + rewrite bool_decide_false by exact Hl.
      destruct (decide (d ∈ switches c)) as [Hs | Hs].
      * rewrite bool_decide_true by exact Hs.
        rewrite decide_True by (right; exact Hs).
        rewrite IH by exact Hoff. simpl. rewrite <- app_assoc. reflexivity.
      * rewrite bool_decide_false by exact Hs.
        rewrite decide_False by tauto. apply IH, Hoff.
Qed.

Lemma activate_devices_offline (c : controller) (now : Q) (w : W) :
  (mqtt_client c && is_connected w)%bool = false ->
  activate_devices c now w
  = (false, set_activation_time (Some now) c, w,
     all_failed (lights c ++ switches c)).
Proof.
  intros Hoff. unfold activate_devices.
  rewrite (activate_loop_disconnected (_turn_on_light c)) by
    (intros d; apply send_command_disconnected, Hoff).
  rewrite (activate_loop_disconnected (_turn_on_switch c)) by
    (intros d; apply send_command_disconnected, Hoff).
  cbn [world tracked success_count attempts].
  unfold _send_voice_announcement, _send_notification.
  destruct (voice_announcements c); rewrite ?Hoff; cbn [snd];
    rewrite ?Hoff; unfold all_failed; rewrite fmap_app; reflexivity.
Qed.

Lemma deactivate_devices_offline (c : controller) (w : W) :
  (mqtt_client c && is_connected w)%bool = false ->
  deactivate_devices c w
  = (false, set_activation_time None c, w,
     all_failed (filter (configured c) (elements (activated_devices c)))).
Proof.
  intros Hoff. unfold deactivate_devices.
  rewrite deactivate_loop_disconnected by exact Hoff.
  cbn [world tracked success_count attempts]. reflexivity.
Qed.

(** X6.  Without a client, or with a client that is not connected,
    [activate_devices] and [deactivate_devices] publish nothing (the
    gateway is left as it was), record a failure for every device, leave
    the tracked set unchanged and return [False]; [activation_time] is
    set, respectively cleared, all the same. *)
Theorem disconnected_controller_sends_nothing (c : controller) (now : Q)
    (w : W) :
  (mqtt_client c && is_connected w)%bool = false ->
  activate_devices c now w
  = (false, set_activation_time (Some now) c, w,
     all_failed (lights c ++ switches c))
  /\ deactivate_devices c w
     = (false, set_activation_time None c, w,
        all_failed (filter (configured c) (elements (activated_devices c)))).
Proof.
  intros Hoff. split.
  - apply activate_devices_offline, Hoff.
  - apply deactivate_devices_offline, Hoff.
Qed.

(** The verdicts after a loop of [test_devices] cover what was there and
    the devices of the loop. *)
Lemma test_loop_dom (turn_on turn_off : string -> W -> bool * W)
    (l : list string) (acc : gmap string bool * W) :
  dom (foldl (test_step turn_on turn_off) acc l).1
  = dom acc.1 ∪ list_to_set l.
Proof.
  revert acc. induction l as [| d rest IH]; intros [results w]; simpl.
  - set_solver.
  - rewrite IH. unfold test_step.
    destruct (turn_on d w) as [on_ok w1].
    destruct (turn_off d w1) as [off_ok w2]. simpl.
    rewrite dom_insert_L. set_solver.
Qed.

Lemma test_loop_disconnected (turn_on turn_off : string -> W -> bool * W)
    (l : list string) (results : gmap string bool) (w : W) :
  (forall d : string, turn_on d w = (false, w)) ->
  (forall d : string, turn_off d w = (false, w)) ->
  (forall (d : string) (v : bool), results !! d = Some v -> v = false) ->
  (foldl (test_step turn_on turn_off) (results, w) l).2 = w
  /\ forall (d : string) (v : bool),
       (foldl (test_step turn_on turn_off) (results, w) l).1 !! d = Some v ->
       v = false.
Proof.
  intros Hon Hoff. revert results.
  induction l as [| x rest IH]; intros results Hres; simpl; [auto |].
  rewrite Hon, Hoff. apply IH.
  intros d v Hlook. destruct (decide (x = d)) as [-> | Hne].
  - rewrite lookup_insert_eq in Hlook. simpl in Hlook. congruence.
  - rewrite lookup_insert_ne in Hlook by exact Hne. eauto.
Qed.

(** X7.  [test_devices] returns a verdict for every configured light and
    switch and for nothing else; without a connected client it publishes
    nothing and every verdict is [False]. *)
Theorem test_devices_verdicts (c : controller) (w : W) :
  dom (test_devices c w).1 = list_to_set (lights c ++ switches c)
  /\ ((mqtt_client c && is_connected w)%bool = false ->
      (test_devices c w).2 = w
      /\ forall (d : string) (v : bool),
           (test_devices c w).1 !! d = Some v -> v = false).
Proof.
  unfold test_devices. split.
  - rewrite !test_loop_dom. simpl. set_solver.
  - intros Hoff.
    destruct (test_loop_disconnected (_turn_on_light c) (_turn_off_light c)
                (lights c) ∅ w) as [Hw1 Hv1];
      try (intros d; apply send_command_disconnected, Hoff).
    { intros d v Hlook. rewrite lookup_empty in Hlook. discriminate. }
    destruct (foldl (test_step (_turn_on_light c) (_turn_off_light c))
                (∅, w) (lights c)) as [results1 w1].
    simpl in Hw1, Hv1. subst w1.
    apply test_loop_disconnected;
      try (intros d; apply send_command_disconnected, Hoff).
    exact Hv1.
Qed.

End DeviceLists.

(** * The device commands on a recorded gateway *)

Section RecordedCommands.
Import HomeAssistant.
Context {W : Type} {G : Gateway W}.

(** Commands sent while the connection holds: each one is published,
    and the record grows by one call per command, in order. *)
Lemma answers_recording (P : W -> Prop)
    (commands : list (string * payload)) :
  stays_connected P ->
  forall (w : W) (record : list call),
    P w ->
    exists calls : list call,
      @answers _ (recording G) true commands (w, record)
      = ((answers true commands w).1,
         ((answers true commands w).2, record ++ calls))
      /\ asked calls = commands
      /\ (fun k => truthy (call_answer k)) <$> calls
         = (answers true commands w).1
      /\ P (answers true commands w).2.
Proof.
  intros HP. induction commands as [| [topic p] commands IH];
    intros w record Hw.
  - exists []. simpl. rewrite app_nil_r. auto.
  - destruct (HP w Hw) as [Hconn Hstep]. specialize (Hstep topic p).
    cbn [answers recording is_connected publish fst snd andb].
    rewrite Hconn.
    destruct (publish topic p w) as [r w1]. cbn [fst snd] in Hstep |- *.
    destruct (IH w1 (record ++ [mkCall topic p r]) Hstep)
      as (calls & Heq & Hasked & Hoks & Hend).
    rewrite Heq. destruct (answers true commands w1) as [oks w2].
    cbn [fst snd] in Hoks, Hend |- *.
    exists (mkCall topic p r :: calls). rewrite <- app_assoc.
    split; [reflexivity |]. split; [| split; [| exact Hend]].
    + unfold asked in *. rewrite fmap_cons, Hasked. reflexivity.
    + rewrite fmap_cons, Hoks. reflexivity.
Qed.

(** A notification on the recorded gateway: at most one more call. *)
Lemma send_notification_recording (c : controller) (title message : string)
    (w : W) (record : list call) :
  exists notice : list call,
    (@_send_notification _ (recording G) c title message (w, record)).2
    = ((_send_notification c title message w).2, record ++ notice)
    /\ (length notice <= 1)%nat
    /\ forall k : call, k ∈ notice -> call_topic k = "homeassistant/notify".
Proof.
  unfold _send_notification.
  cbn [recording is_connected publish fst snd].
  destruct (mqtt_client c && is_connected w)%bool.
  - destruct (publish "homeassistant/notify" (Notification title message) w)
      as [[b | e] w1]; eexists [_]; cbn [fst snd];
      (split; [reflexivity |]); (split; [simpl; lia |]);
      intros k Hk; apply list_elem_of_singleton in Hk; subst k; reflexivity.
  - exists []. rewrite app_nil_r. cbn [fst snd].
    split; [reflexivity |]. split; [simpl; lia |].
    intros k Hk. inversion Hk.
Qed.

(** X3.  On a gateway whose connection holds, [deactivate_devices] of a
    controller that has a client and whose tracked devices are all
    configured asks the gateway to publish one turn-off command for every
    tracked device, in the order of the loop and whatever the earlier
    ones were answered, and after them at most the one notification;
    when every command is answered with a success the tracked set is
    empty afterwards.  The record kept beside the gateway changes nothing
    to the run. *)
Theorem deactivate_devices_reaches_all (c : controller) (w : W)
    (P : W -> Prop) :
  tracked_configured c ->
  mqtt_client c = true ->
  stays_connected P ->
  P w ->
  let '(ok, c', recorded, log) :=
    @deactivate_devices _ (recording G) c (w, []) in
  exists device_calls notice : list call,
    recorded.2 = device_calls ++ notice
    /\ asked device_calls
       = off_command c <$> elements (activated_devices c)
    /\ log
       = zip (elements (activated_devices c))
             ((fun k => truthy (call_answer k)) <$> device_calls)
    /\ (length notice <= 1)%nat
    /\ (forall k : call,
          k ∈ notice -> call_topic k = "homeassistant/notify")
    /\ ((forall k : call, k ∈ device_calls -> call_answer k = Ok true) ->
        activated_devices c' = ∅ /\ ok = negb (bool_decide (log = [])))
    /\ deactivate_devices c w = (ok, c', recorded.1, log).
Proof.
  intros Hinv Hclient HP Hw.
  assert (devices_to_turn_off c = elements (activated_devices c)) as Hall.
  { unfold devices_to_turn_off.
    assert (forall l : list string,
              (forall d : string, d ∈ l -> configured c d) ->
              filter (configured c) l = l) as Hfilter.
    { induction l as [| d l IH]; intros Hl; [reflexivity |].
      rewrite filter_cons, decide_True by (apply Hl; left).
      rewrite IH; [reflexivity |]. intros d' Hd'. apply Hl. right. exact Hd'. }
    apply Hfilter. intros d Hd. apply Hinv, elem_of_elements, Hd. }
  destruct (answers_recording P (off_commands c) HP w [] Hw)
    as (calls & Hrec & Hasked & Hoks & _).
  destruct (@deactivate_devices_answers _ (recording G) c (w, []))
    as [Hlog_r Hworld_r].
  destruct (deactivate_devices_answers c w) as [Hlog Hworld].
  rewrite Hclient in Hlog_r, Hworld_r, Hlog, Hworld.
  rewrite Hrec in Hlog_r, Hworld_r. cbn [fst snd] in Hlog_r, Hworld_r.
  assert ((@deactivate_devices _ (recording G) c (w, [])).2
          = (deactivate_devices c w).2) as Hsame_log
    by (rewrite Hlog_r, Hlog; reflexivity).
  rewrite Hsame_log in Hworld_r.
  rewrite (@deactivate_devices_by_log _ (recording G) c (w, [])).
  rewrite (deactivate_devices_by_log c w).
  rewrite Hsame_log, Hworld_r. cbn [fst snd].
  unfold deactivation_notice.
  set (log := (deactivate_devices c w).2) in *.
  assert (exists notice : list call,
            (if Nat.ltb 0 (length (succeeded log))
             then (@_send_notification _ (recording G) c
                     "Devices Deactivated"
                     ("School bus detection timeout reached. "
                      ++ pretty (length (succeeded log))
                      ++ " devices have been deactivated.")%string
                     ((answers true (off_commands c) w).2, [] ++ calls)).2
             else ((answers true (off_commands c) w).2, [] ++ calls))
            = ((deactivate_devices c w).1.2, calls ++ notice)
            /\ (length notice <= 1)%nat
            /\ forall k : call,
                 k ∈ notice -> call_topic k = "homeassistant/notify")
    as (notice & Hnotice & Hlen & Htopic).
  { rewrite Hworld. unfold deactivation_notice. fold log.
    destruct (Nat.ltb 0 (length (succeeded log))).
    - destruct (send_notification_recording c "Devices Deactivated"
                  ("School bus detection timeout reached. "
                   ++ pretty (length (succeeded log))
                   ++ " devices have been deactivated.")%string
                  (answers true (off_commands c) w).2 calls)
        as (notice & Heq & Hlen & Htopic).
      exists notice. simpl app. rewrite Heq. auto.
    - exists []. rewrite app_nil_r. simpl. split; [reflexivity |].
      split; [lia |]. intros k Hk. inversion Hk. }
  rewrite Hnotice. cbn [fst snd].
  exists calls, notice.
  split; [reflexivity |].
  split; [rewrite Hasked; unfold off_commands; rewrite Hall; reflexivity |].
  split; [rewrite Hlog, Hall, Hoks; reflexivity |].
  split; [exact Hlen |]. split; [exact Htopic |].
  split; [| reflexivity].
  intros Htrue.
  assert (succeeded log = elements (activated_devices c)) as Hsucc.
  { rewrite Hlog, Hall, <- Hoks.
    assert (length calls = length (elements (activated_devices c))) as Hn.
    { rewrite <- (length_fmap (off_command c)), <- Hall.
      fold (off_commands c). rewrite <- Hasked. unfold asked.
      rewrite length_fmap. reflexivity. }
    revert Htrue Hn. clear. generalize (elements (activated_devices c)).
    induction calls as [| k calls IH]; intros [| d l] Htrue Hn;
      try discriminate; [reflexivity |].
    rewrite fmap_cons. simpl zip. rewrite succeeded_cons.
    rewrite (Htrue k) by left. simpl.
    rewrite IH; [reflexivity | | simpl in Hn; lia].
    intros k' Hk'. apply Htrue. right. exact Hk'. }
  rewrite Hsucc. split.
  - simpl. apply set_eq. intros d.
    rewrite elem_of_difference, elem_of_list_to_set, elem_of_elements.
    set_solver.
  - rewrite <- Hsucc.
    assert (log = zip (elements (activated_devices c))
                      ((fun k => truthy (call_answer k)) <$> calls)) as Hl
      by (rewrite Hlog, Hall, Hoks; reflexivity).
    destruct log as [| [d b] log'].
    + reflexivity.
    + rewrite bool_decide_false by discriminate.
      assert (succeeded ((d, b) :: log') <> []) as Hne.
      { rewrite Hsucc. intros Hnil. rewrite Hnil in Hl.
        simpl in Hl. discriminate. }
      destruct (succeeded ((d, b) :: log')); [contradiction | reflexivity].
Qed.

End RecordedCommands.

(** * The device lists on a scripted gateway *)

Section DeviceListRuns.
Import HomeAssistant HomeAssistantDevices.

Lemma tracked_devices_stay_configured_witness :
  tracked_configured
    (foldl apply_op (porch_controller, obliging_world)
       [OpActivate 10; OpAddDevice "light" "light.garage";
        OpRemoveDevice "switch" "switch.siren"; OpDeactivate]).1.
Proof.
  apply (tracked_devices_stay_configured porch_controller obliging_world).
  intros d Hd. simpl in Hd. set_solver.
Defined.

Lemma tracking_two_configured : tracked_configured tracking_two.
Proof.
  intros d Hd. unfold configured. simpl in *.
  apply elem_of_union in Hd as [Hd | Hd];
    apply elem_of_singleton in Hd as ->; set_solver.
Qed.

(** On the scripted gateway a connection that is up stays up. *)
Lemma scripted_stays_connected :
  stays_connected (fun w : scripted_world => connected w = true).
Proof.
  intros w Hw. split; [exact Hw |]. intros topic p. simpl.
  destruct (script w); exact Hw.
Qed.

Lemma deactivate_devices_reaches_all_witness :
  let '(ok, c', recorded, log) :=
    @deactivate_devices _ (recording scripted_gateway) tracking_two
      (obliging_world, []) in
  exists device_calls notice : list call,
    recorded.2 = device_calls ++ notice
    /\ asked device_calls
       = off_command tracking_two
           <$> elements (activated_devices tracking_two)
    /\ log
       = zip (elements (activated_devices tracking_two))
             ((fun k => truthy (call_answer k)) <$> device_calls)
    /\ (length notice <= 1)%nat
    /\ (forall k : call,
          k ∈ notice -> call_topic k = "homeassistant/notify")
    /\ ((forall k : call, k ∈ device_calls -> call_answer k = Ok true) ->
        activated_devices c' = ∅ /\ ok = negb (bool_decide (log = [])))
    /\ deactivate_devices tracking_two obliging_world
       = (ok, c', recorded.1, log).
Proof.
  apply (deactivate_devices_reaches_all tracking_two obliging_world
           (fun w : scripted_world => connected w = true)).
  - exact tracking_two_configured.
  - reflexivity.
  - exact scripted_stays_connected.
  - reflexivity.
Defined.

Lemma dropped_device_stays_tracked_witness :
  "light.porch"
    ∉ (deactivate_devices (update_configuration hall_only tracking_two)
         obliging_world).2.*1
  /\ forall n : nat,
       "light.porch"
         ∈ activated_devices
             (foldl apply_op
                (update_configuration hall_only tracking_two, obliging_world)
                (replicate n OpDeactivate)).1.
Proof.
  apply (dropped_device_stays_tracked hall_only tracking_two obliging_world
           "light.porch" ["light.hall"] []);
    try reflexivity; simpl; set_solver.
Defined.

Lemma disconnected_controller_sends_nothing_witness :
  activate_devices tracking_two 10 (mkWorld false [] [])
  = (false, set_activation_time (Some 10) tracking_two, mkWorld false [] [],
     all_failed (lights tracking_two ++ switches tracking_two))
  /\ deactivate_devices tracking_two (mkWorld false [] [])
     = (false, set_activation_time None tracking_two, mkWorld false [] [],
        all_failed (filter (configured tracking_two)
                      (elements (activated_devices tracking_two)))).
Proof.
  apply (disconnected_controller_sends_nothing tracking_two 10
           (mkWorld false [] [])).
  reflexivity.
Defined.

End DeviceListRuns.

(** * Properties of the MQTT client and of the shutdown *)

Section ClientAndShutdown.
Import Main MainLoop.
Context {B : Type} `{MQTTClient.Broker HomeAssistant.payload B}.

(** After [disconnect] the client reports that it is not connected, and
    the broker has not been touched. *)
Lemma disconnect_is_disconnected (w : MQTTClient.client * B) :
  MQTTClient.is_connected (MQTTClient.disconnect w).1 = false
  /\ (MQTTClient.disconnect w).2 = w.2.
Proof.
  destruct w as [m b]. unfold MQTTClient.disconnect, MQTTClient.is_connected.
  destruct (MQTTClient.client_set m) eqn:Hset; simpl.
  - auto.
  - rewrite Hset, andb_false_r. auto.
Qed.

(** X8.  A device command sent through the MQTT client succeeds exactly
    when the controller has a client, the client is connected, and the
    paho client answers result code 0 to a publish with the client's
    default qos and retain; an exception of the paho client is a failure,
    not an exception; the client's own state is never changed; and
    without a connection the paho client is not called. *)
Theorem device_command_through_client (prefix : string)
    (c : HomeAssistant.controller) (topic : string)
    (p : HomeAssistant.payload) (m : MQTTClient.client) (b : B) :
  let '(ok, (m', b')) :=
    @HomeAssistant.send_command _ (MQTTClient.gateway prefix) c topic p (m, b)
  in
  m' = m
  /\ (ok = true <->
      HomeAssistant.mqtt_client c = true
      /\ MQTTClient.is_connected m = true
      /\ (MQTTClient.client_publish topic p (MQTTClient.qos m)
            (MQTTClient.retain m) b).1 = Ok 0%Z)
  /\ (MQTTClient.is_connected m = false -> b' = b)
  /\ (HomeAssistant.mqtt_client c = true ->
      MQTTClient.is_connected m = true ->
      b' = (MQTTClient.client_publish topic p (MQTTClient.qos m)
              (MQTTClient.retain m) b).2).
Proof.
  unfold HomeAssistant.send_command. simpl.
  unfold MQTTClient.is_connected.
  destruct (HomeAssistant.mqtt_client c); simpl;
    [| repeat split; try discriminate; intros (? & _); discriminate].
  destruct (MQTTClient.connected m); simpl;
    [| repeat split; try discriminate; intros (_ & ? & _); discriminate].
  destruct (MQTTClient.client_set m); simpl;
    [| repeat split; try discriminate; intros (_ & ? & _); discriminate].
  destruct (MQTTClient.client_publish topic p _ _ b) as [[rc | e] b'];
    simpl.
  - destruct (rc =? 0)%Z eqn:Hrc; simpl.
    + apply Z.eqb_eq in Hrc as ->. repeat split; auto; discriminate.
    + apply Z.eqb_neq in Hrc. repeat split; auto; try discriminate.
      intros (_ & _ & Heq). congruence.
  - repeat split; auto; try discriminate. intros (_ & _ & Heq). discriminate.
Qed.

(** X9.  [stop] disconnects the client before it deactivates the devices:
    whatever the state of the system and of the connection, the
    deactivation of [stop] publishes nothing, no turn-off command
    succeeds and the tracked set is the one before. *)
Theorem stop_turns_nothing_off (prefix : string) (s : system)
    (w : MQTTClient.client * B) :
  let '(s', w', log) := stop prefix s w in
  w'.2 = w.2
  /\ MQTTClient.is_connected w'.1 = false
  /\ HomeAssistant.activated_devices (ha_controller s')
     = HomeAssistant.activated_devices (ha_controller s)
  /\ (forall d : string, (d, true) ∉ log)
  /\ devices_activated s' = devices_activated s.
Proof.
  unfold stop. destruct (disconnect_is_disconnected w) as [Hoff Hsame].
  destruct (devices_activated s) eqn:Hact.
  - rewrite (@deactivate_devices_offline _ (MQTTClient.gateway prefix));
      [| simpl; rewrite Hoff; apply andb_false_r].
    simpl. repeat split; auto.
    unfold all_failed. intros d Hin.
    apply list_elem_of_fmap in Hin as (d' & Heq & _). discriminate.
  - repeat split; auto. intros d Hin. inversion Hin.
Qed.

End ClientAndShutdown.

(** * Properties of the loop body *)

Section LoopBody.
Import Main MainLoop.
Context {W : Type} `{HomeAssistant.Gateway W}.

(** The control step on an idle system. *)
Lemma handle_device_control_idle (cfg : config) (t_control t_activate : Q)
    (bus_detected : bool) (s : system) (w : W) :
  devices_activated s = false ->
  devices_activated
    (handle_device_control cfg t_control t_activate bus_detected s w).1.1
  = bus_detected
  /\ last_detection_time
       (handle_device_control cfg t_control t_activate bus_detected s w).1.1
     = last_detection_time s
  /\ (bus_detected = true ->
      activation_start_time
        (handle_device_control cfg t_control t_activate bus_detected s w).1.1
      = t_control)
  /\ (bus_detected = false ->
      handle_device_control cfg t_control t_activate bus_detected s w
      = (s, w, [])).
Proof.
  intros Hidle. unfold handle_device_control. rewrite Hidle.
  destruct bus_detected; cbn [andb negb].
  - destruct (HomeAssistant.activate_devices _ _ _) as [[[ok ha'] w'] log].
    simpl. repeat split; auto. discriminate.
  - simpl. repeat split; auto. discriminate.
Qed.

(** Every detection of the detector carries its confidence. *)
Lemma detect_confidence (detector : HailoDetector.detector)
    (f : HailoDetector.frame) (d : detection) :
  d ∈ HailoDetector.detect detector f ->
  exists conf : Q, confidence d = Some conf.
Proof.
  intros Hd.
  destruct (detect_nonempty detector f d Hd)
    as (infer & outputs & _ & _ & _ & _ & Hpost).
  destruct (postprocess_outputs_from_row detector outputs f _ Hpost d Hd)
    as (output & others & tensors & row & _ & _ & Hfrom).
  destruct Hfrom as (x_center & y_center & bw & bh & objectness
    & class_scores & k & best & x1 & y1 & x2 & y2 & _ & _ & Hconf & _).
  eexists. exact Hconf.
Qed.

Lemma first_school_bus_confidence (cfg : config)
    (detector : HailoDetector.detector) (f : HailoDetector.frame)
    (d : detection) :
  first_school_bus cfg (HailoDetector.detect detector f) = Some d ->
  exists conf : Q, confidence d = Some conf.
Proof.
  intros Hfirst. apply find_some in Hfirst as [Hin _].
  apply (detect_confidence detector f). apply list_elem_of_In, Hin.
Qed.

(** X10.  One pass of the detection loop on an idle system activates it
    exactly when the frame is there, the detector's output holds a
    qualifying detection, the cooldown has passed and the gateway does
    not raise on the detection message; the activation then starts at the
    clock reading of the control step and the cooldown at the clock
    reading of the detection step.  A pass without a frame changes
    nothing. *)
Theorem loop_iteration_activation (cfg : config)
    (detector : HailoDetector.detector) (frame : option HailoDetector.frame)
    (t_process t_control t_activate : Q) (s : system) (w : W) :
  devices_activated s = false ->
  let '(s', w', events) :=
    loop_iteration cfg detector frame t_process t_control t_activate s w in
  (devices_activated s' = true <->
     exists (f : HailoDetector.frame) (d : detection),
       frame = Some f
       /\ first_school_bus cfg (HailoDetector.detect detector f) = Some d
       /\ detection_cooldown s < t_process - last_detection_time s
       /\ forall e : string,
            ~ ((HomeAssistant.mqtt_client (ha_controller s)
                && HomeAssistant.is_connected w)%bool = true
               /\ (HomeAssistant.publish_detection d w).1 = Raise e))
  /\ (devices_activated s' = true ->
      activation_start_time s' = t_control
      /\ last_detection_time s' = t_process
      /\ exists d : detection, events = [SchoolBusDetected t_process d])
  /\ (frame = None -> s' = s /\ w' = w /\ events = []).
Proof.
  intros Hidle. unfold loop_iteration.
  destruct frame as [f |].
  - rewrite process_detections_first.
    destruct (first_school_bus cfg (HailoDetector.detect detector f))
      as [d |] eqn:Hfirst.
    + destruct (Qgtb _ _) eqn:Hc.
      * apply Qgtb_gt in Hc.
        destruct (first_school_bus_confidence cfg detector f d Hfirst)
          as [conf Hconf].
        pose proof (accept_state t_process d s w) as Hstate.
        destruct (accept_confident t_process d s w conf Hconf)
          as (Hevents & Hout & _).
        destruct (accept t_process d s w) as [[[outcome s1] w1] events].
        simpl in Hstate, Hevents, Hout. subst s1 events outcome.
        set (s1 := mkSystem t_process (detection_cooldown s)
                     (devices_activated s) (activation_start_time s)
                     (ha_controller s)).
        assert (match (if (HomeAssistant.mqtt_client (ha_controller s)
                           && HomeAssistant.is_connected w)%bool
                       then match (HomeAssistant.publish_detection d w).1
                            with
                            | Ok _ => Ok true
                            | Raise e => Raise e
                            end
                       else Ok true) with
                | Ok b =>
                    b = true
                    /\ forall e : string,
                         ~ ((HomeAssistant.mqtt_client (ha_controller s)
                             && HomeAssistant.is_connected w)%bool = true
                            /\ (HomeAssistant.publish_detection d w).1
                               = Raise e)
                | Raise e =>
                    (HomeAssistant.mqtt_client (ha_controller s)
                     && HomeAssistant.is_connected w)%bool = true
                    /\ (HomeAssistant.publish_detection d w).1 = Raise e
                end) as Hcase.
        { destruct (_ && _)%bool.
          - destruct (HomeAssistant.publish_detection d w) as [[b | e] w2];
              simpl; [| auto].
            split; [reflexivity |]. intros e [_ He]. discriminate.
          - split; [reflexivity |]. intros e [Hf _]. discriminate. }
        destruct (if (_ && _)%bool then _ else _) as [b | e].
        -- destruct Hcase as [-> Hnone].
           destruct (handle_device_control_idle cfg t_control t_activate
                       true s1 w1 Hidle) as (Hflag & Hlast & Hstart & _).
           destruct (handle_device_control cfg t_control t_activate true
                       s1 w1) as [[s2 w2] log].
           simpl in Hflag, Hlast, Hstart.
           split; [| split; [| discriminate]].
           ++ split; [| intros _; exact Hflag].
              intros _. exists f, d. auto.
           ++ intros _. split; [auto |]. split; [exact Hlast |].
              exists d. reflexivity.
        -- simpl. rewrite Hidle.
           split; [| split; [discriminate | discriminate]].
           split; [discriminate |].
           intros (f' & d' & Hf & Hd & _ & Hnone).
           injection Hf as <-. rewrite Hfirst in Hd. injection Hd as <-.
           exfalso. apply (Hnone e). exact Hcase.
      * apply Qgtb_le in Hc.
        destruct (handle_device_control_idle cfg t_control t_activate false
                    s w Hidle) as (_ & _ & _ & Hsame).
        rewrite (Hsame eq_refl), Hidle.
        split; [| split; [discriminate | discriminate]].
        split; [discriminate |]. intros (f' & d' & _ & _ & Hlt & _).
        exfalso. revert Hlt. apply Qle_not_lt, Hc.
    + destruct (handle_device_control_idle cfg t_control t_activate false
                  s w Hidle) as (_ & _ & _ & Hsame).
      rewrite (Hsame eq_refl), Hidle.
      split; [| split; [discriminate | discriminate]].
      split; [discriminate |]. intros (f' & d' & Hf & Hd & _).
      injection Hf as <-. congruence.
  - rewrite Hidle. split; [| split; [discriminate | auto]].
    split; [discriminate |]. intros (f' & d' & Hf & _). discriminate.
Qed.

(** X11.  When the pass accepts an event on an idle system and the
    gateway is not connected, the system is marked active although no
    command was published and no device is tracked as activated beyond
    those that were: the flag does not depend on what [activate_devices]
    returns. *)
Theorem loop_iteration_activates_offline (cfg : config)
    (detector : HailoDetector.detector) (f : HailoDetector.frame)
    (d : detection) (t_process t_control t_activate : Q)
    (s : system) (w : W) :
  devices_activated s = false ->
  first_school_bus cfg (HailoDetector.detect detector f) = Some d ->
  detection_cooldown s < t_process - last_detection_time s ->
  (HomeAssistant.mqtt_client (ha_controller s)
   && HomeAssistant.is_connected w)%bool = false ->
  let '(s', w', events) :=
    loop_iteration cfg detector (Some f) t_process t_control t_activate s w in
  devices_activated s' = true
  /\ w' = w
  /\ HomeAssistant.activated_devices (ha_controller s')
     = HomeAssistant.activated_devices (ha_controller s)
  /\ HomeAssistant.activation_time (ha_controller s') = Some t_activate.
Proof.
  intros Hidle Hfirst Hcool Hoff. unfold loop_iteration.
  rewrite process_detections_first, Hfirst.
  apply Qgtb_gt in Hcool. rewrite Hcool.
  destruct (first_school_bus_confidence cfg detector f d Hfirst)
    as [conf Hconf].
  unfold accept. rewrite Hconf, Hoff.
  unfold handle_device_control. cbn [devices_activated ha_controller].
  rewrite Hidle. cbn [andb negb].
  rewrite activate_devices_offline by exact Hoff.
  simpl. auto.
Qed.


End LoopBody.

(** * Properties of the deactivation timing *)

Section DeactivationTiming.
Import Main MainLoop.
Context {W : Type} `{HomeAssistant.Gateway W}.



End DeactivationTiming.

Section DeactivationRuns.
Import Main.


End DeactivationRuns.

(** * Properties of the performance monitor *)

Section Monitor.
Import PerformanceMonitor.

Lemma last_n_length {A : Type} (n : nat) (h : list A) :
  (length (last_n n h) <= n)%nat.
Proof. unfold last_n. rewrite length_drop. lia. Qed.

Lemma last_n_short {A : Type} (n : nat) (h : list A) :
  (length h <= n)%nat -> last_n n h = h.
Proof.
  intros Hle. unfold last_n. replace (length h - n)%nat with 0%nat by lia.
  reflexivity.
Qed.

(** Appending to the window of a history gives the window of the longer
    history. *)
Lemma deque_append_last_n {A : Type} (n : nat) (x : A) (h : list A) :
  deque_append n x (last_n n h) = last_n n (h ++ [x]).
Proof.
  unfold deque_append, last_n. rewrite !length_app, length_drop. simpl.
  destruct (Nat.le_gt_cases (length h) n) as [Hle | Hgt].
  - replace (length h - n)%nat with 0%nat by lia. simpl.
    f_equal. lia.
  - rewrite <- (drop_app_le h [x]) by lia. rewrite drop_drop.
    f_equal. lia.
Qed.

Lemma last_n_snoc_last {A : Type} (n : nat) (x : A) (h : list A) :
  (0 < n)%nat -> last (last_n n (h ++ [x])) = Some x.
Proof.
  intros Hn. unfold last_n. rewrite length_app. simpl.
  rewrite drop_app_le by lia. apply last_snoc.
Qed.

(** The truncation of [save_metrics] is the window of 1000. *)
Lemma truncate_last_n {A : Type} (l : list A) :
  (if (1000 <? length l)%nat then drop (length l - 1000) l else l)
  = last_n 1000 l.
Proof.
  destruct (Nat.ltb_spec 1000 (length l)) as [Hlt | Hle]; [reflexivity |].
  symmetry. apply last_n_short, Hle.
Qed.

Lemma last_n_app_last_n {A : Type} (n : nat) (h k : list A) :
  last_n n (last_n n h ++ k) = last_n n (h ++ k).
Proof.
  unfold last_n. rewrite !length_app, length_drop.
  destruct (Nat.le_gt_cases (length h) n) as [Hle | Hgt].
  - replace (length h - n)%nat with 0%nat by lia. simpl. f_equal. lia.
  - rewrite <- (drop_app_le h k) by lia. rewrite drop_drop. f_equal. lia.
Qed.

Lemma rates_cons (x : sample) (samples : list sample) :
  rates (x :: samples)
  = if Qgtb x.1.1 0 then (1 / x.1.1) :: rates samples else rates samples.
Proof.
  unfold rates. rewrite filter_cons.
  destruct (Qgtb x.1.1 0) eqn:Hc.
  - apply Qgtb_gt in Hc. rewrite decide_True by exact Hc. reflexivity.
  - apply Qgtb_le in Hc. rewrite decide_False; [reflexivity |].
    apply Qle_not_lt, Hc.
Qed.

(** One [update_metrics] call on an enabled monitor. *)
Lemma update_with_fields (m : monitor) (x : sample) :
  enabled m = true ->
  enabled (update_with m x) = true
  /\ inference_times (update_with m x)
     = deque_append 1000 x.1.1 (inference_times m)
  /\ fps_history (update_with m x)
     = (if Qgtb x.1.1 0
        then deque_append 100 (1 / x.1.1) (fps_history m)
        else fps_history m)
  /\ total_frames_processed (update_with m x)
     = (total_frames_processed m + 1)%nat
  /\ total_detections (update_with m x)
     = (total_detections m + x.1.2)%nat
  /\ true_positives (update_with m x)
     = (true_positives m + if x.2 then 1 else 0)%nat
  /\ false_positives (update_with m x) = false_positives m
  /\ detection_history (update_with m x) = detection_history m.
Proof.
  intros He. unfold update_with, update_metrics. rewrite He. simpl.
  repeat split; auto. destruct x.2; lia.
Qed.

(** The windows and counters after a run of [update_metrics] calls, from
    a monitor whose windows are those of two histories. *)
Lemma update_metrics_run (samples : list sample) (m : monitor)
    (times fps : list Q) :
  enabled m = true ->
  inference_times m = last_n 1000 times ->
  fps_history m = last_n 100 fps ->
  enabled (foldl update_with m samples) = true
  /\ inference_times (foldl update_with m samples)
     = last_n 1000 (times ++ ((fun x : sample => x.1.1) <$> samples))
  /\ fps_history (foldl update_with m samples)
     = last_n 100 (fps ++ rates samples)
  /\ total_frames_processed (foldl update_with m samples)
     = (total_frames_processed m + length samples)%nat
  /\ total_detections (foldl update_with m samples)
     = (total_detections m
        + sum_list ((fun x : sample => x.1.2) <$> samples))%nat
  /\ true_positives (foldl update_with m samples)
     = (true_positives m
        + length (filter (fun x : sample => x.2 = true) samples))%nat
  /\ false_positives (foldl update_with m samples) = false_positives m
  /\ detection_history (foldl update_with m samples) = detection_history m.
Proof.
  revert m times fps.
  induction samples as [| x rest IH]; intros m times fps He Ht Hf.
  - simpl. rewrite !app_nil_r. repeat split; auto; lia.
  - change (foldl update_with m (x :: rest))
      with (foldl update_with (update_with m x) rest).
    destruct (update_with_fields m x He)
      as (He1 & Ht1 & Hf1 & Hn1 & Hd1 & Hp1 & Hfp1 & Hh1).
    destruct (IH (update_with m x) (times ++ [x.1.1])
                (if Qgtb x.1.1 0 then fps ++ [1 / x.1.1] else fps))
      as (He' & Ht' & Hf' & Hn' & Hd' & Hp' & Hfp' & Hh').
    + exact He1.
    + rewrite Ht1, Ht. apply deque_append_last_n.
    + rewrite Hf1. destruct (Qgtb x.1.1 0); [| exact Hf].
      rewrite Hf. apply deque_append_last_n.
    + rewrite He', Ht', Hf', Hn', Hd', Hp', Hfp', Hh'.
      rewrite Hn1, Hd1, Hp1, Hfp1, Hh1, rates_cons, fmap_cons, filter_cons.
      rewrite <- app_assoc. simpl.
      split; [reflexivity |]. split; [reflexivity |]. split.
      { destruct (Qgtb x.1.1 0); [rewrite <- app_assoc |]; reflexivity. }
      split; [lia |]. split; [rewrite <- Nat.add_assoc; reflexivity |].
      split; [| split; reflexivity].
      destruct x as [[t n] bus]. simpl. destruct bus; simpl; lia.
Qed.

(** X12.  After any run of [update_metrics] calls on an enabled monitor
    just reset, the inference-time window holds the last 1000 inference
    times in order, the frame-rate window the last 100 rates derived from
    the positive ones, and neither is ever longer than that; the frame
    counter counts every call, the detection counter adds up the
    detection counts, [true_positives] counts the calls that reported a
    bus and [false_positives] stays 0. *)
Theorem update_metrics_windows (samples : list sample) (m : monitor)
    (now : Q) :
  enabled m = true ->
  let m' := foldl update_with (reset_metrics now m) samples in
  inference_times m' = last_n 1000 ((fun x : sample => x.1.1) <$> samples)
  /\ fps_history m' = last_n 100 (rates samples)
  /\ (length (inference_times m') <= 1000)%nat
  /\ (length (fps_history m') <= 100)%nat
  /\ total_frames_processed m' = length samples
  /\ total_detections m' = sum_list ((fun x : sample => x.1.2) <$> samples)
  /\ true_positives m'
     = length (filter (fun x : sample => x.2 = true) samples)
  /\ false_positives m' = 0%nat.
Proof.
  intros He.
  destruct (update_metrics_run samples (reset_metrics now m) [] [])
    as (_ & Ht & Hf & Hn & Hd & Hp & Hfp & _); try reflexivity; [exact He |].
  simpl in Ht, Hf, Hn, Hd, Hp, Hfp. simpl. rewrite Ht, Hf.
  repeat split; auto; apply last_n_length.
Qed.

Lemma maximum_bounds (x : Q) (l : list Q) :
  x <= maximum x l /\ forall y : Q, y ∈ l -> y <= maximum x l.
Proof.
  revert x. induction l as [| z rest IH]; intros x; simpl.
  - split; [apply Qle_refl |]. intros y Hy. inversion Hy.
  - destruct (Qgtb z x) eqn:Hc.
    + apply Qgtb_gt in Hc. destruct (IH z) as [Hz Hrest]. split.
      * apply Qlt_le_weak. eapply Qlt_le_trans; eassumption.
      * intros y Hy. apply elem_of_cons in Hy as [-> | Hy]; auto.
    + apply Qgtb_le in Hc. destruct (IH x) as [Hx Hrest]. split; [exact Hx |].
      intros y Hy. apply elem_of_cons in Hy as [-> | Hy]; auto.
      eapply Qle_trans; eassumption.
Qed.

Lemma minimum_bounds (x : Q) (l : list Q) :
  minimum x l <= x /\ forall y : Q, y ∈ l -> minimum x l <= y.
Proof.
  revert x. induction l as [| z rest IH]; intros x; simpl.
  - split; [apply Qle_refl |]. intros y Hy. inversion Hy.
  - destruct (Qltb z x) eqn:Hc.
    + apply Qltb_lt in Hc. destruct (IH z) as [Hz Hrest]. split.
      * apply Qlt_le_weak. eapply Qle_lt_trans; eassumption.
      * intros y Hy. apply elem_of_cons in Hy as [-> | Hy]; auto.
    + apply Qltb_ge in Hc. destruct (IH x) as [Hx Hrest]. split; [exact Hx |].
      intros y Hy. apply elem_of_cons in Hy as [-> | Hy]; auto.
      eapply Qle_trans; eassumption.
Qed.

Lemma maximum_elem (x : Q) (l : list Q) : maximum x l ∈ x :: l.
Proof.
  revert x. induction l as [| z rest IH]; intros x; simpl; [left |].
  destruct (Qgtb z x).
  - right. apply IH.
  - specialize (IH x). apply elem_of_cons in IH as [-> | IH];
      [left | right; right; exact IH].
Qed.

Lemma minimum_elem (x : Q) (l : list Q) : minimum x l ∈ x :: l.
Proof.
  revert x. induction l as [| z rest IH]; intros x; simpl; [left |].
  destruct (Qltb z x).
  - right. apply IH.
  - specialize (IH x). apply elem_of_cons in IH as [-> | IH];
      [left | right; right; exact IH].
Qed.

(** The largest and the smallest of a window that is not empty are
    elements of it and bound the others. *)
Lemma window_stats_extremes (l : list Q) :
  l <> [] ->
  let '(avg, mx, mn) := window_stats l in
  mx ∈ l /\ mn ∈ l /\ forall y : Q, y ∈ l -> mn <= y <= mx.
Proof.
  destruct l as [| x rest]; [congruence |]. intros _.
  unfold window_stats.
  destruct (maximum_bounds x rest) as [Hmx Hmxs].
  destruct (minimum_bounds x rest) as [Hmn Hmns].
  split; [apply maximum_elem |]. split; [apply minimum_elem |].
  intros y Hy. apply elem_of_cons in Hy as [-> | Hy]; auto.
Qed.

(** X13.  [get_performance_summary] never takes the largest, the
    smallest or the mean of an empty window: on an empty inference-time
    window the three inference statistics are 0, and likewise for the
    frame rates.  On a window that is not empty the largest and the
    smallest reported are attained by elements of the window (times
    1000 for the inference times, reported in milliseconds) and bound
    every element of it. *)
Theorem summary_extremes (current_time : Q) (m : monitor) :
  (inference_times m = [] ->
   avg_time_ms (get_performance_summary current_time m) = 0
   /\ max_time_ms (get_performance_summary current_time m) = 0
   /\ min_time_ms (get_performance_summary current_time m) = 0)
  /\ (fps_history m = [] ->
      avg_fps (get_performance_summary current_time m) = 0
      /\ max_fps (get_performance_summary current_time m) = 0
      /\ min_fps (get_performance_summary current_time m) = 0)
  /\ (inference_times m <> [] ->
      exists lo hi : Q,
        lo ∈ inference_times m /\ hi ∈ inference_times m
        /\ min_time_ms (get_performance_summary current_time m) = lo * 1000
        /\ max_time_ms (get_performance_summary current_time m) = hi * 1000
        /\ forall x : Q, x ∈ inference_times m ->
             lo <= x <= hi /\ lo * 1000 <= x * 1000 <= hi * 1000)
  /\ (fps_history m <> [] ->
      exists lo hi : Q,
        lo ∈ fps_history m /\ hi ∈ fps_history m
        /\ min_fps (get_performance_summary current_time m) = lo
        /\ max_fps (get_performance_summary current_time m) = hi
        /\ forall x : Q, x ∈ fps_history m -> lo <= x <= hi).
Proof.
  unfold get_performance_summary.
  pose proof (window_stats_extremes (inference_times m)) as Ht.
  pose proof (window_stats_extremes (fps_history m)) as Hf.
  split; [| split; [| split]].
  - intros ->. destruct (window_stats (fps_history m)) as [[a b] c].
    simpl. auto.
  - intros ->.
    destruct (window_stats (inference_times m)) as [[a b] c]. simpl. auto.
  - intros Hne. specialize (Ht Hne).
    destruct (window_stats (inference_times m)) as [[avg_t max_t] min_t].
    destruct (window_stats (fps_history m)) as [[avg_f max_f] min_f].
    destruct Ht as (Hmax & Hmin & Hall). simpl.
    exists min_t, max_t. repeat split; auto;
      destruct (Hall x H) as [Hlo Hhi]; try assumption; lra.
  - intros Hne. specialize (Hf Hne).
    destruct (window_stats (inference_times m)) as [[avg_t max_t] min_t].
    destruct (window_stats (fps_history m)) as [[avg_f max_f] min_f].
    destruct Hf as (Hmax & Hmin & Hall). simpl.
    exists min_f, max_f. repeat split; auto; apply Hall; assumption.
Qed.

(** No call changes [false_positives]. *)
Lemma apply_monitor_op_false_positives (m : monitor) (op : monitor_op) :
  false_positives m = 0%nat ->
  false_positives (apply_monitor_op m op) = 0%nat.
Proof.
  intros Hfp. destruct op as [x | now d | now]; simpl.
  - unfold update_with, update_metrics.
    destruct (enabled m); simpl; assumption.
  - unfold log_detection. destruct (enabled m); simpl; assumption.
  - reflexivity.
Qed.

(** X14.  No operation of the monitor ever counts a false positive: from
    a new monitor, after any sequence of [update_metrics],
    [log_detection] and [reset_metrics] calls, [get_detection_accuracy]
    reports a precision of 1 as soon as one bus was counted and 0 before,
    never a value in between. *)
Theorem precision_is_zero_or_one (is_enabled : bool) (now : Q)
    (ops : list monitor_op) :
  let m := foldl apply_monitor_op (init is_enabled now) ops in
  false_positives m = 0%nat
  /\ precision (get_detection_accuracy m)
     == (if (true_positives m =? 0)%nat then 0 else 1).
Proof.
  simpl.
  assert (forall m0 : monitor,
            false_positives m0 = 0%nat ->
            false_positives (foldl apply_monitor_op m0 ops) = 0%nat) as Hrun.
  { induction ops as [| op rest IH]; intros m0 Hm0; [exact Hm0 |].
    change (foldl apply_monitor_op m0 (op :: rest))
      with (foldl apply_monitor_op (apply_monitor_op m0 op) rest).
    apply IH, apply_monitor_op_false_positives, Hm0. }
  specialize (Hrun (init is_enabled now) eq_refl).
  split; [exact Hrun |].
  unfold get_detection_accuracy. rewrite Hrun, Nat.add_0_r.
  destruct (true_positives _ =? 0)%nat eqn:Htp; simpl; [reflexivity |].
  apply Nat.eqb_neq in Htp. field. intros Hzero.
  unfold Qeq in Hzero. simpl in Hzero. lia.
Qed.

Lemma save_metrics_entries (current_time : Q) (m : monitor)
    (file : metrics_file) :
  file <> NotAList ->
  save_metrics current_time m file
  = Entries (last_n 1000 (entries_of file
                          ++ [get_performance_summary current_time m])).
Proof.
  intros Hfile. unfold save_metrics.
  destruct file as [| | | l]; try congruence;
    simpl entries_of; rewrite truncate_last_n; reflexivity.
Qed.

(** X15.  Successive [save_metrics] calls on a file that is missing,
    unreadable or holds an array leave an array of the last 1000
    summaries, oldest first, the existing entries included: never more
    than 1000, the latest summary last.  A file that holds valid JSON
    other than an array is never written again. *)
Theorem save_metrics_keeps_last_thousand
    (saves : list (Q * monitor)) (file : metrics_file) :
  (file <> NotAList -> saves <> [] ->
   save_all saves file
   = Entries (last_n 1000
                (entries_of file
                 ++ ((fun tm => get_performance_summary tm.1 tm.2)
                       <$> saves)))
   /\ (length (entries_of (save_all saves file)) <= 1000)%nat
   /\ last (entries_of (save_all saves file))
      = (fun tm => get_performance_summary tm.1 tm.2) <$> last saves)
  /\ save_all saves NotAList = NotAList.
Proof.
  split.
  - intros Hfile Hsaves.
    assert (save_all saves file
            = Entries (last_n 1000
                (entries_of file
                 ++ ((fun tm => get_performance_summary tm.1 tm.2)
                       <$> saves)))) as Hall.
    { unfold save_all. revert file Hfile Hsaves.
      induction saves as [| [t m] rest IH]; intros file Hfile Hsaves;
        [congruence |].
      change (foldl (fun f tm => save_metrics tm.1 tm.2 f) file
                    ((t, m) :: rest))
        with (foldl (fun f tm => save_metrics tm.1 tm.2 f)
                    (save_metrics t m file) rest).
      rewrite (save_metrics_entries t m file Hfile).
      destruct rest as [| tm rest'].
      - reflexivity.
      - rewrite IH by discriminate. simpl entries_of.
        rewrite last_n_app_last_n, fmap_cons, <- app_assoc. reflexivity. }
    rewrite Hall. simpl entries_of.
    split; [reflexivity |]. split; [apply last_n_length |].
    destruct (exists_last Hsaves) as (front & tm & ->).
    rewrite fmap_app, app_assoc. simpl.
    rewrite last_n_snoc_last by lia. rewrite last_snoc. reflexivity.
  - unfold save_all. induction saves as [| tm rest IH]; [reflexivity |].
    simpl. exact IH.
Qed.

End Monitor.

(** * Properties of the capture rate and of the camera shutdown *)

Section CameraRate.
Import CameraManager.

(** X16.  [_update_fps] recomputes the rate only when at least one second
    has passed since the last recomputation, so it never divides by
    zero; the rate it then stores, times the elapsed time, is the number
    of frames counted since, which makes it positive and at most that
    number; the frame count restarts at 0.  Within the second it only
    counts.  Consequently the rate is never negative, whatever the clock
    readings. *)
Theorem update_fps_rate (readings : list Q) (t0 now : Q) :
  let c := foldl (fun c t => _update_fps t c) (new_fps_counter t0) readings in
  0 <= current_fps c
  /\ (1 <= now - last_fps_time c ->
      frame_count (_update_fps now c) = 0%nat
      /\ last_fps_time (_update_fps now c) = now
      /\ current_fps (_update_fps now c) * (now - last_fps_time c)
         == inject_Z (Z.of_nat (frame_count c + 1))
      /\ 0 < current_fps (_update_fps now c)
      /\ current_fps (_update_fps now c)
         <= inject_Z (Z.of_nat (frame_count c + 1)))
  /\ (now - last_fps_time c < 1 ->
      _update_fps now c
      = mkFps (frame_count c + 1) (last_fps_time c) (current_fps c)).
Proof.
  assert (forall (c : fps_counter) (t : Q),
            1 <= t - last_fps_time c ->
            frame_count (_update_fps t c) = 0%nat
            /\ last_fps_time (_update_fps t c) = t
            /\ current_fps (_update_fps t c) * (t - last_fps_time c)
               == inject_Z (Z.of_nat (frame_count c + 1))
            /\ 0 < current_fps (_update_fps t c)
            /\ current_fps (_update_fps t c)
               <= inject_Z (Z.of_nat (frame_count c + 1))) as Hrecompute.
  { intros c t Hsec. unfold _update_fps.
    assert (Qgeb (t - last_fps_time c) 1 = true) as -> by
      (apply Qgeb_ge; exact Hsec).
    simpl.
    assert (0 < inject_Z (Z.of_nat (frame_count c + 1))) as Hpos.
    { change 0 with (inject_Z 0). rewrite <- Zlt_Qlt. lia. }
    assert (0 < t - last_fps_time c) as Hel by lra.
    split; [reflexivity |]. split; [reflexivity |]. split; [| split].
    - field. lra.
    - apply Qlt_shift_div_l; [exact Hel |]. lra.
    - apply Qle_shift_div_r; [exact Hel |]. nra. }
  assert (forall (c : fps_counter) (t : Q),
            t - last_fps_time c < 1 ->
            _update_fps t c
            = mkFps (frame_count c + 1) (last_fps_time c) (current_fps c))
    as Hcount.
  { intros c t Hsec. unfold _update_fps.
    assert (Qgeb (t - last_fps_time c) 1 = false) as ->; [| reflexivity].
    apply not_true_iff_false. rewrite Qgeb_ge. apply Qlt_not_le, Hsec. }
  assert (forall c : fps_counter, 0 <= current_fps c ->
            0 <= current_fps (foldl (fun c t => _update_fps t c) c readings))
    as Hrun.
  { induction readings as [| t rest IH]; intros c Hc; [exact Hc |].
    simpl. apply IH.
    destruct (Qlt_le_dec (t - last_fps_time c) 1) as [Hlt | Hge].
    - rewrite (Hcount c t Hlt). exact Hc.
    - destruct (Hrecompute c t Hge) as (_ & _ & _ & Hpos & _).
      apply Qlt_le_weak, Hpos. }
  simpl. split; [apply Hrun; simpl; apply Qle_refl |].
  split; [apply Hrecompute | apply Hcount].
Qed.

End CameraRate.

Section CameraShutdown.
Import Camera CameraManager.

(** After [cleanup] the flags stay off. *)
Lemma step_flags_off (s : state) (e : event) :
  is_initialized s = false -> is_capturing s = false ->
  is_initialized (step s e) = false /\ is_capturing (step s e) = false.
Proof.
  destruct s as [h slot lock ini cap p c out]. simpl. intros -> ->.
  destruct e as [cam |]; simpl;
    [unfold producer_step | unfold consumer_step]; simpl.
  - destruct p as [| frame | frame |], lock; simpl; auto.
  - destruct c as [| | | result], lock, slot; simpl; auto.
Qed.

(** X17.  After [cleanup], for every interleaving of the two threads from
    there: when the detection thread was not inside [get_frame], every
    later [get_frame] returns [None], so no frame is handed out any more;
    and when the capture thread was at the top of its loop as well,
    nothing changes at all: no frame is read and the slot stays empty. *)
Theorem cleanup_hands_out_nothing (s : state) (schedule : list event) :
  consumer s = CIdle ->
  returned (run schedule (cleanup s)) = returned s
  /\ consumer (run schedule (cleanup s)) = CIdle
  /\ (producer s = PTop -> run schedule (cleanup s) = cleanup s).
Proof.
  intros Hidle.
  assert (forall s0 : state,
            is_initialized s0 = false -> is_capturing s0 = false ->
            consumer s0 = CIdle ->
            returned (run schedule s0) = returned s0
            /\ consumer (run schedule s0) = CIdle
            /\ (producer s0 = PTop -> run schedule s0 = s0)) as Hrun.
  { unfold run. induction schedule as [| e rest IH]; intros s0 Hi Hc Hco;
      [auto |].
    change (foldl step s0 (e :: rest)) with (foldl step (step s0 e) rest).
    destruct (step_flags_off s0 e Hi Hc) as [Hi' Hc'].
    assert (returned (step s0 e) = returned s0
            /\ consumer (step s0 e) = CIdle
            /\ (producer s0 = PTop -> step s0 e = s0)) as (Hr & Hco' & Hp).
    { destruct e as [cam |]; simpl.
      - unfold producer_step. rewrite Hc.
        destruct (producer s0) as [| frame | frame |]; simpl; auto.
        + destruct (frame_lock s0); simpl; auto. repeat split; auto.
          discriminate.
        + destruct (copy frame (heap s0)). simpl. repeat split; auto.
          discriminate.
        + repeat split; auto. discriminate.
      - unfold consumer_step. rewrite Hco, Hi. simpl. auto. }
    destruct (IH (step s0 e) Hi' Hc' Hco') as (Hr' & Hco'' & Hp').
    rewrite Hr', Hr. split; [reflexivity |]. split; [exact Hco'' |].
    intros Htop. rewrite (Hp Htop) in *. apply Hp', Htop. }
  apply (Hrun (cleanup s)); auto.
Qed.

End CameraShutdown.

(** * Properties of the detector's rows and counters *)

Section DetectorRows.
Import HailoDetector.

(** [int] on a non-negative number is its floor. *)
Lemma int_floor (q : Q) : 0 <= q -> int q = Qfloor q.
Proof.
  destruct q as [n d]. unfold Qle, int, Qfloor. simpl. intros Hn.
  apply Z.quot_div_nonneg; lia.
Qed.

(** [int] on a non-positive number is its ceiling. *)
Lemma int_ceiling (q : Q) : q <= 0 -> int q = (- Qfloor (- q))%Z.
Proof.
  destruct q as [n d]. unfold Qle, int, Qfloor, Qopp. simpl. intros Hn.
  rewrite <- (Z.quot_div_nonneg (- n) (Z.pos d)) by lia.
  rewrite Z.quot_opp_l by lia. lia.
Qed.

Lemma Qfloor_nonneg (q : Q) : 0 <= q -> (0 <= Qfloor q)%Z.
Proof. intros Hq. apply (Qfloor_resp_le 0 q Hq). Qed.

(** Truncation toward zero keeps the order. *)
Lemma int_monotone (a b : Q) : a <= b -> (int a <= int b)%Z.
Proof.
  intros Hab.
  destruct (Qlt_le_dec a 0) as [Ha | Ha], (Qlt_le_dec b 0) as [Hb | Hb].
  - rewrite (int_ceiling a), (int_ceiling b) by (apply Qlt_le_weak; assumption).
    assert (- b <= - a) as Hopp by lra.
    pose proof (Qfloor_resp_le _ _ Hopp). lia.
  - rewrite (int_ceiling a) by (apply Qlt_le_weak; assumption).
    rewrite (int_floor b Hb).
    assert (0 <= - a) as Hopp by lra.
    pose proof (Qfloor_nonneg _ Hopp). pose proof (Qfloor_nonneg _ Hb). lia.
  - exfalso. lra.
  - rewrite (int_floor a Ha), (int_floor b Hb). apply Qfloor_resp_le, Hab.
Qed.

Lemma clamp_monotone (a b dim : Z) :
  (a <= b)%Z -> (clamp a dim <= clamp b dim)%Z.
Proof. unfold clamp. lia. Qed.

(** What the loop body appends for a row of five values or more. *)
Lemma postprocess_row_fields (self : detector)
    (original_height original_width : Z) (scale_x scale_y : Q)
    (x_center y_center w h objectness : Q) (class_scores : list Q)
    (d : detection) :
  postprocess_row self original_height original_width scale_x scale_y
    (x_center :: y_center :: w :: h :: objectness :: class_scores)
  = Ok (Some d) ->
  bbox d
  = Some (clamp (int ((x_center - w / 2) * scale_x)) original_width,
          clamp (int ((y_center - h / 2) * scale_y)) original_height,
          clamp (int ((x_center + w / 2) * scale_x)) original_width,
          clamp (int ((y_center + h / 2) * scale_y)) original_height)
  /\ exists (k : nat) (best : Q),
       argmax class_scores = Ok (k, best)
       /\ class_id d = Some (Z.of_nat k)
       /\ class_name d = Some (class_name_of k).
Proof.
  unfold postprocess_row.
  destruct (argmax class_scores) as [[k best] | e]; simpl; [| discriminate].
  destruct (Qgeb _ _); [| discriminate].
  intros Heq. injection Heq as <-. simpl. split; [reflexivity |].
  exists k, best. auto.
Qed.

(** The loop body raises on a row of exactly five values: the class
    scores are empty and [np.argmax] refuses them. *)
Lemma postprocess_row_raises (self : detector)
    (original_height original_width : Z) (scale_x scale_y : Q)
    (row : list Q) :
  length row = 5%nat ->
  postprocess_row self original_height original_width scale_x scale_y row
  = Raise "ValueError".
Proof.
  destruct row as [| a [| b [| c [| d [| e [| x rest]]]]]]; try discriminate.
  reflexivity.
Qed.

(** An exception of the loop body ends the loop, whatever the rows
    before and after. *)
Lemma postprocess_rows_raises (self : detector)
    (original_height original_width : Z) (scale_x scale_y : Q)
    (output : list (list Q)) (row : list Q) :
  row ∈ output ->
  length row = 5%nat ->
  exists e : string,
    postprocess_rows self original_height original_width scale_x scale_y
      output = Raise e.
Proof.
  intros Hin H5. induction output as [| row' rest IH]; [inversion Hin |].
  simpl.
  destruct (postprocess_row self original_height original_width
              scale_x scale_y row') as [r | e] eqn:Hrow; simpl;
    [| eexists; reflexivity].
  apply elem_of_cons in Hin as [-> | Hin].
  - rewrite postprocess_row_raises in Hrow by exact H5. discriminate.
  - destruct (IH Hin) as [e ->]. simpl. eexists. reflexivity.
Qed.

(** Every detection the row loop returns was appended for one of the
    rows. *)
Lemma postprocess_rows_origin (self : detector)
    (original_height original_width : Z) (scale_x scale_y : Q)
    (output : list (list Q)) (ds : list detection) (d : detection) :
  postprocess_rows self original_height original_width scale_x scale_y output
  = Ok ds ->
  d ∈ ds ->
  exists row : list Q,
    row ∈ output
    /\ postprocess_row self original_height original_width scale_x scale_y
         row = Ok (Some d).
Proof.
  revert ds. induction output as [| row rest IH]; simpl; intros ds Hrun Hd.
  - injection Hrun as <-. inversion Hd.
  - destruct (postprocess_row self original_height original_width
                scale_x scale_y row) as [r | e] eqn:Hrow;
      simpl in Hrun; [| discriminate].
    destruct (postprocess_rows self original_height original_width
                scale_x scale_y rest) as [ds' | e];
      simpl in Hrun; [| discriminate].
    injection Hrun as <-.
    assert (d ∈ ds' ->
            exists row' : list Q,
              row' ∈ row :: rest
              /\ postprocess_row self original_height original_width
                   scale_x scale_y row' = Ok (Some d)) as Htail.
    { intros Hd'. destruct (IH ds' eq_refl Hd') as (row' & Hin & Hfrom).
      exists row'. split; [right; exact Hin | exact Hfrom]. }
    destruct r as [d0 |]; [| exact (Htail Hd)].
    apply elem_of_cons in Hd as [-> | Hd]; [| exact (Htail Hd)].
    exists row. split; [left | exact Hrow].
Qed.

(** Where a detection returned by [detect] comes from: a row of the
    accelerator's output, scaled from a model input and to a frame that
    are not empty. *)
Lemma detect_origin (self : detector) (f : frame) (d : detection) :
  d ∈ detect self f ->
  (0 < input_width self)%Z /\ (0 < input_height self)%Z
  /\ (0 < width f)%Z /\ (0 < height f)%Z
  /\ exists row : list Q,
       row ∈ raw_rows self f
       /\ postprocess_row self (height f) (width f)
            (inject_Z (width f) / inject_Z (input_width self))
            (inject_Z (height f) / inject_Z (input_height self)) row
          = Ok (Some d).
Proof.
  unfold detect, detect_body, _detect_opencv_fallback, _preprocess_frame,
    raw_rows.
  destruct (HAILO_AVAILABLE self); [| intros Hd; inversion Hd].
  destruct (input_vstreams self) as [infer |]; [| intros Hd; inversion Hd].
  destruct (height f <=? 0)%Z eqn:Hh; [intros Hd; inversion Hd |].
  destruct (width f <=? 0)%Z eqn:Hw; [intros Hd; inversion Hd |].
  destruct (input_height self <=? 0)%Z eqn:Hih; [intros Hd; inversion Hd |].
  destruct (input_width self <=? 0)%Z eqn:Hiw; [intros Hd; inversion Hd |].
  simpl.
  destruct (infer f) as [outputs | e]; simpl; [| intros Hd; inversion Hd].
  unfold _postprocess_outputs.
  destruct outputs as [| [| output others] tensors]; simpl;
    try (intros Hd; inversion Hd; fail).
  destruct (input_width self =? 0)%Z; [intros Hd; inversion Hd |].
  destruct (input_height self =? 0)%Z; [intros Hd; inversion Hd |].
  destruct (postprocess_rows _ _ _ _ _ output) as [ds0 | e] eqn:Hrows;
    simpl; [| intros Hd; inversion Hd].
  destruct (_apply_nms self ds0) as [ds | e] eqn:Hnms;
    [| intros Hd; inversion Hd].
  intros Hd. apply (apply_nms_subset self ds0 ds Hnms) in Hd.
  repeat (split; [lia |]).
  apply (postprocess_rows_origin _ _ _ _ _ _ _ _ Hrows Hd).
Qed.

(** X18.  When every candidate row of the accelerator's output has a
    non-negative box width and height, every detection [detect] returns
    has its corners in order, x1 <= x2 and y1 <= y2, so the area
    [is_school_bus_detection] computes from it is not negative. *)
Theorem detect_boxes_ordered (self : detector) (f : frame) (d : detection) :
  (forall (x_center y_center w h : Q) (rest : list Q),
     (x_center :: y_center :: w :: h :: rest) ∈ raw_rows self f ->
     0 <= w /\ 0 <= h) ->
  d ∈ detect self f ->
  exists x1 y1 x2 y2 : Z,
    bbox d = Some (x1, y1, x2, y2)
    /\ (x1 <= x2)%Z /\ (y1 <= y2)%Z /\ (0 <= pixel_area d)%Z.
Proof.
  intros Hsize Hd.
  destruct (detect_origin self f d Hd)
    as (Hiw & Hih & Hw & Hh & row & Hin & Hrow).
  destruct row
    as [| x_center [| y_center [| w [| h [| objectness class_scores]]]]];
    try discriminate.
  destruct (Hsize _ _ _ _ _ Hin) as [Hw0 Hh0].
  destruct (postprocess_row_fields _ _ _ _ _ _ _ _ _ _ _ _ Hrow)
    as [Hbox _].
  assert (forall a b : Z, (0 < a)%Z -> (0 < b)%Z ->
            0 <= inject_Z a / inject_Z b) as Hscale.
  { intros a b Ha Hb. apply Qle_shift_div_l.
    - change 0 with (inject_Z 0). rewrite <- Zlt_Qlt. exact Hb.
    - rewrite Qmult_0_l. change 0 with (inject_Z 0). rewrite <- Zle_Qle. lia. }
  pose proof (Hscale _ _ Hw Hiw) as Hsx.
  pose proof (Hscale _ _ Hh Hih) as Hsy.
  assert (forall c s sc : Q, 0 <= s -> 0 <= sc ->
            (c - s / 2) * sc <= (c + s / 2) * sc) as Hside.
  { intros c s sc Hs Hsc. apply Qmult_le_compat_r; [| exact Hsc].
    assert (0 <= s / 2) by (apply Qle_shift_div_l; lra). lra. }
  eexists _, _, _, _. split; [exact Hbox |].
  assert ((clamp (int ((x_center - w / 2)
                       * (inject_Z (width f) / inject_Z (input_width self))))
                 (width f)
           <= clamp (int ((x_center + w / 2)
                          * (inject_Z (width f)
                             / inject_Z (input_width self))))
                    (width f))%Z) as Hx
    by (apply clamp_monotone, int_monotone, Hside; assumption).
  assert ((clamp (int ((y_center - h / 2)
                       * (inject_Z (height f)
                          / inject_Z (input_height self))))
                 (height f)
           <= clamp (int ((y_center + h / 2)
                          * (inject_Z (height f)
                             / inject_Z (input_height self))))
                    (height f))%Z) as Hy
    by (apply clamp_monotone, int_monotone, Hside; assumption).
  split; [exact Hx |]. split; [exact Hy |].
  unfold pixel_area. rewrite Hbox. simpl. nia.
Qed.

(** Of the names the detector gives, only that of class 5 passes the
    class gate of [is_school_bus_detection]. *)
Lemma class_name_of_bus (k : nat) :
  str_in (lower (class_name_of k)) ["bus"; "school_bus"] = true <-> k = 5%nat.
Proof.
  unfold class_name_of.
  do 80 (destruct k as [| k];
         [vm_compute; split; congruence |]).
  simpl. split; [discriminate | lia].
Qed.

(** X19.  Of the detections [detect] returns, the class gate of
    [is_school_bus_detection] lets through exactly those of class id 5,
    named 'bus': the detector never produces the name 'school_bus', and
    a detection of the detector qualifies as a school bus exactly when it
    is of class 5, confident enough and large enough. *)
Theorem detector_bus_is_class_five (cfg : Main.config) (self : detector)
    (f : frame) (d : detection) :
  d ∈ detect self f ->
  (str_in (lower (get (class_name d) "")) ["bus"; "school_bus"] = true
   <-> class_id d = Some 5%Z)
  /\ class_name d <> Some "school_bus"
  /\ (Main.is_school_bus_detection cfg d = true
      <-> class_id d = Some 5%Z
          /\ class_name d = Some "bus"
          /\ get (Main.detection_min_confidence cfg) (7 # 10)
             <= get (confidence d) 0
          /\ get (Main.detection_min_bus_size cfg) (1 # 10)
             <= inject_Z (pixel_area d)).
Proof.
  intros Hd.
  destruct (detect_origin self f d Hd) as (_ & _ & _ & _ & row & _ & Hrow).
  destruct row
    as [| x_center [| y_center [| w [| h [| objectness class_scores]]]]];
    try discriminate.
  destruct (postprocess_row_fields _ _ _ _ _ _ _ _ _ _ _ _ Hrow)
    as (_ & k & best & _ & Hid & Hname).
  assert (str_in (lower (get (class_name d) "")) ["bus"; "school_bus"] = true
          <-> class_id d = Some 5%Z) as Hgate.
  { rewrite Hname, Hid. simpl get. rewrite class_name_of_bus.
    split; [intros ->; reflexivity |]. intros Heq. injection Heq. lia. }
  split; [exact Hgate |]. split.
  - rewrite Hname. intros Heq. injection Heq as Heq.
    assert (k = 5%nat) as -> by (apply class_name_of_bus; rewrite Heq;
                                 reflexivity).
    discriminate.
  - rewrite is_school_bus_detection_true, Hgate.
    split; [| tauto]. intros (H5 & Hc & Hs).
    repeat split; try assumption.
    rewrite Hname. rewrite Hid in H5. injection H5 as H5.
    assert (k = 5%nat) as -> by lia. reflexivity.
Qed.

(** X20.  A candidate row of exactly five values (a box and an
    objectness, no class score) makes the row loop of
    [_postprocess_outputs] raise, wherever it stands among the rows and
    whatever the other rows hold; [detect] then returns the empty list
    for the frame, the detections of the other rows included. *)
Theorem row_without_class_scores (self : detector) (f : frame)
    (infer : frame -> result (list tensor))
    (output : list (list Q)) (others : list (list (list Q)))
    (tensors : list tensor) (row : list Q) :
  input_vstreams self = Some infer ->
  infer f = Ok ((output :: others) :: tensors) ->
  row ∈ output ->
  length row = 5%nat ->
  (forall (original_height original_width : Z) (scale_x scale_y : Q),
     exists e : string,
       postprocess_rows self original_height original_width
         scale_x scale_y output = Raise e)
  /\ detect self f = [].
Proof.
  intros Hvs Hinfer Hin H5.
  split; [intros; apply (postprocess_rows_raises _ _ _ _ _ _ row Hin H5) |].
  unfold detect, detect_body, _detect_opencv_fallback.
  rewrite Hvs. destruct (HAILO_AVAILABLE self); [| reflexivity].
  destruct (_preprocess_frame self f) as [input_tensor | e] eqn:Hpre;
    simpl; [| reflexivity].
  unfold _preprocess_frame in Hpre.
  destruct (_ || _)%bool; [discriminate |]. injection Hpre as <-.
  rewrite Hinfer. simpl.
  destruct (input_width self =? 0)%Z; [reflexivity |].
  destruct (input_height self =? 0)%Z; [reflexivity |].
  destruct (postprocess_rows_raises self (height f) (width f)
              (inject_Z (width f) / inject_Z (input_width self))
              (inject_Z (height f) / inject_Z (input_height self))
              output row Hin H5) as [e He].
  rewrite He. reflexivity.
Qed.

(** X21.  [_postprocess_outputs] reads the first batch entry of the
    first output tensor and nothing else, and in it only the rows of at
    least five values: rows shorter than five, further batch entries and
    further tensors do not change its result. *)
Theorem postprocess_outputs_reads (self : detector)
    (output : list (list Q)) (others : list (list (list Q)))
    (tensors : list tensor) (f : frame) :
  _postprocess_outputs self ((output :: others) :: tensors) f
  = _postprocess_outputs self
      [[filter (fun row => (5 <= length row)%nat) output]] f.
Proof.
  assert (forall (original_height original_width : Z) (scale_x scale_y : Q),
            postprocess_rows self original_height original_width
              scale_x scale_y output
            = postprocess_rows self original_height original_width
                scale_x scale_y
                (filter (fun row => (5 <= length row)%nat) output)) as Hrows.
  { intros H W sx sy. induction output as [| row rest IH]; [reflexivity |].
    rewrite filter_cons. destruct (decide (5 <= length row)%nat) as [Hl | Hl].
    - simpl. rewrite IH. reflexivity.
    - simpl. rewrite <- IH.
      assert (postprocess_row self H W sx sy row = Ok None) as ->.
      { destruct row as [| a [| b [| c [| d [| e r]]]]]; try reflexivity.
        simpl in Hl. lia. }
      simpl. destruct (postprocess_rows self H W sx sy rest); reflexivity. }
  unfold _postprocess_outputs. rewrite <- Hrows. reflexivity.
Qed.

(** The counters after a call. *)
Lemma detect_counters (self : detector) (f : frame) (t0 t1 : Q)
    (c : HailoPerformance.counters) :
  (HailoPerformance.detect self f t0 t1 c).1 = detect self f
  /\ (HailoPerformance.detect self f t0 t1 c).2
     = if inference_succeeds self f
       then HailoPerformance.mkCounters
              (HailoPerformance.total_inferences c + 1)
              (HailoPerformance.total_inference_time c + (t1 - t0))
       else c.
Proof.
  unfold HailoPerformance.detect, detect, inference_succeeds.
  destruct (HAILO_AVAILABLE self); [| auto].
  destruct (input_vstreams self) as [infer |]; [| auto].
  destruct (detect_body self infer f); auto.
Qed.

Lemma detect_all_counters (self : detector)
    (calls : list (frame * Q * Q)) (c : HailoPerformance.counters) :
  HailoPerformance.total_inferences (detect_all self calls c)
  = (HailoPerformance.total_inferences c
     + length (filter (fun call => inference_succeeds self call.1.1 = true)
                      calls))%nat
  /\ (Forall (fun call => call.1.2 <= call.2) calls ->
      0 <= HailoPerformance.total_inference_time c ->
      0 <= HailoPerformance.total_inference_time (detect_all self calls c)).
Proof.
  unfold detect_all. revert c.
  induction calls as [| [[f t0] t1] rest IH]; intros c.
  - simpl. split; [lia | auto].
  - change (foldl ?g c ((f, t0, t1) :: rest))
      with (foldl g (g c (f, t0, t1)) rest).
    cbn beta. cbn [fst snd].
    rewrite (proj2 (detect_counters self f t0 t1 c)).
    rewrite filter_cons. cbn [fst snd].
    destruct (inference_succeeds self f) eqn:Hs.
    + destruct (IH (HailoPerformance.mkCounters
                      (HailoPerformance.total_inferences c + 1)
                      (HailoPerformance.total_inference_time c + (t1 - t0))))
        as [Hn Ht].
      rewrite decide_True by reflexivity. split.
      * rewrite Hn. simpl. lia.
      * intros Hall Hc. apply Forall_cons in Hall as [Hle Hall].
        apply Ht; [exact Hall |]. simpl in *. lra.
    + destruct (IH c) as [Hn Ht].
      rewrite decide_False by discriminate. split; [exact Hn |].
      intros Hall Hc. apply Forall_cons in Hall as [_ Hall]. auto.
Qed.

(** X22.  Over any series of calls of [detect] on a new detector, the
    inference counter counts the calls whose [try] block reached its
    end: calls that raised and calls answered by the fallback are not
    counted.  [get_performance_stats] has an 'fps' entry exactly when
    some call was counted, so a detector in fallback mode never reports
    one; and when no call ended before it started, the total time and
    the reported rate are not negative. *)
Theorem inference_counters (self : detector) (calls : list (frame * Q * Q)) :
  let c := detect_all self calls HailoPerformance.init in
  HailoPerformance.total_inferences c
  = length (filter (fun call => inference_succeeds self call.1.1 = true)
                   calls)
  /\ (HailoPerformance.fps (HailoPerformance.get_performance_stats c) = None
      <-> Forall (fun call => inference_succeeds self call.1.1 = false)
                 calls)
  /\ ((HAILO_AVAILABLE self = false \/ input_vstreams self = None) ->
      HailoPerformance.get_performance_stats c
      = HailoPerformance.mkStats 0 0 None)
  /\ (Forall (fun call => call.1.2 <= call.2) calls ->
      0 <= HailoPerformance.total_inference_time c
      /\ forall v : Q,
           HailoPerformance.fps (HailoPerformance.get_performance_stats c)
           = Some v ->
           0 <= v).
Proof.
  intros c.
  destruct (detect_all_counters self calls HailoPerformance.init)
    as [Hn Ht]. fold c in Hn, Ht. simpl in Hn, Ht.
  assert (HailoPerformance.total_inferences c = 0%nat
          <-> Forall (fun call => inference_succeeds self call.1.1 = false)
                     calls) as Hzero.
  { rewrite Hn. clear. induction calls as [| call rest IH]; simpl.
    - split; [constructor | reflexivity].
    - rewrite filter_cons, Forall_cons.
      destruct (inference_succeeds self call.1.1).
      + rewrite decide_True by reflexivity. simpl.
        split; [lia | intros [Hf _]; discriminate].
      + rewrite decide_False by discriminate. rewrite IH. tauto. }
  assert (HailoPerformance.fps (HailoPerformance.get_performance_stats c)
          = None
          <-> HailoPerformance.total_inferences c = 0%nat) as Hkey.
  { unfold HailoPerformance.get_performance_stats.
    destruct (HailoPerformance.total_inferences c =? 0)%nat eqn:He; simpl.
    - apply Nat.eqb_eq in He. tauto.
    - apply Nat.eqb_neq in He. split; [discriminate | contradiction]. }
  split; [exact Hn |]. split; [rewrite Hkey; exact Hzero |]. split.
  - intros Hfallback.
    assert (HailoPerformance.total_inferences c = 0%nat) as H0.
    { apply Hzero, Forall_forall. intros call _.
      unfold inference_succeeds.
      destruct Hfallback as [-> | ->]; [reflexivity |].
      destruct (HAILO_AVAILABLE self); reflexivity. }
    unfold HailoPerformance.get_performance_stats. rewrite H0. reflexivity.
  - intros Hclock. pose proof (Ht Hclock (Qle_refl 0)) as Htime.
    split; [exact Htime |].
    unfold HailoPerformance.get_performance_stats.
    destruct (HailoPerformance.total_inferences c =? 0)%nat eqn:He; simpl;
      [discriminate |].
    intros v Hv. injection Hv as <-.
    destruct (Qgtb _ 0) eqn:Hpos; [| apply Qle_refl].
    apply Qgtb_gt in Hpos. apply Qle_shift_div_l; [exact Hpos |]. lra.
Qed.

End DetectorRows.

(** * Properties of the qualification gates *)

Section Gates.
Import Main.

(** X23.  The size gate compares the area of the box, a whole number of
    pixels, with the configured fraction: for every threshold above 0
    and at most 1 (the default 0.1 among them) a detection qualifies
    exactly when its class and confidence pass and its box covers at
    least one pixel. *)
Theorem size_gate_is_one_pixel (cfg : config) (d : detection) :
  0 < get (detection_min_bus_size cfg) (1 # 10) <= 1 ->
  (is_school_bus_detection cfg d = true
   <-> str_in (lower (get (class_name d) "")) ["bus"; "school_bus"] = true
       /\ get (detection_min_confidence cfg) (7 # 10) <= get (confidence d) 0
       /\ (1 <= pixel_area d)%Z).
Proof.
  intros [Hpos Hone]. rewrite is_school_bus_detection_true.
  assert (get (detection_min_bus_size cfg) (1 # 10) <= inject_Z (pixel_area d)
          <-> (1 <= pixel_area d)%Z) as Hsize.
  { split.
    - intros Hle.
      assert (inject_Z 0 < inject_Z (pixel_area d)) as Hlt
        by (eapply Qlt_le_trans; [exact Hpos | exact Hle]).
      rewrite <- Zlt_Qlt in Hlt. lia.
    - intros Hle. apply Qle_trans with 1; [exact Hone |].
      change 1 with (inject_Z 1). rewrite <- Zle_Qle. exact Hle. }
  rewrite Hsize. tauto.
Qed.

(** X24.  A detection dictionary with a key missing never raises and is
    judged on the defaults: without 'class_name' it is rejected whatever
    the thresholds; without 'confidence' it counts as confidence 0 and
    qualifies only under a confidence threshold of 0 or less; without
    'bbox' it counts as area 0 and qualifies only under a size threshold
    of 0 or less. *)
Theorem missing_keys_default (cfg : config) (d : detection) :
  (class_name d = None -> is_school_bus_detection cfg d = false)
  /\ (confidence d = None ->
      is_school_bus_detection cfg d = true ->
      get (detection_min_confidence cfg) (7 # 10) <= 0)
  /\ (bbox d = None ->
      is_school_bus_detection cfg d = true ->
      get (detection_min_bus_size cfg) (1 # 10) <= 0).
Proof.
  split; [| split].
  - intros Hname. apply is_school_bus_detection_other_class.
    rewrite Hname. reflexivity.
  - intros Hconf Hq. apply is_school_bus_detection_true in Hq.
    rewrite Hconf in Hq. tauto.
  - intros Hbox Hq. apply is_school_bus_detection_true in Hq.
    unfold pixel_area in Hq. rewrite Hbox in Hq. tauto.
Qed.

End Gates.

(** * The loop, the monitor, the camera and the detector on concrete runs *)

Section ConcreteRuns.
Import Main MainLoop.

Lemma size_gate_is_one_pixel_witness :
  0 < get (detection_min_bus_size default_config) (1 # 10) <= 1
  /\ (1 <= pixel_area big_bus)%Z.
Proof.
  split; [split; [reflexivity | discriminate] |].
  apply (size_gate_is_one_pixel default_config big_bus).
  - split; [reflexivity | discriminate].
  - vm_compute. reflexivity.
Defined.

(** The bus of [bus_rows] comes out of the detector and passes the
    gates. *)
Lemma detect_bus_rows :
  HailoDetector.detect (detector_answering (Ok [[bus_rows]])) hd_frame
  = [detected_bus].
Proof. vm_compute. reflexivity. Qed.

Lemma first_school_bus_bus_rows :
  first_school_bus default_config
    (HailoDetector.detect (detector_answering (Ok [[bus_rows]])) hd_frame)
  = Some detected_bus.
Proof. rewrite detect_bus_rows. vm_compute. reflexivity. Qed.

Lemma loop_iteration_activation_witness :
  devices_activated idle_system = false
  /\ devices_activated
       (loop_iteration default_config (detector_answering (Ok [[bus_rows]]))
          (Some hd_frame) 100 101 102 idle_system obliging_world).1.1
     = true.
Proof.
  split; [reflexivity |].
  pose proof (loop_iteration_activation default_config
                (detector_answering (Ok [[bus_rows]])) (Some hd_frame)
                100 101 102 idle_system obliging_world eq_refl) as Hpass.
  destruct (loop_iteration default_config
              (detector_answering (Ok [[bus_rows]])) (Some hd_frame)
              100 101 102 idle_system obliging_world) as [[s' w'] events].
  apply Hpass. exists hd_frame, detected_bus.
  split; [reflexivity |].
  split; [exact first_school_bus_bus_rows |].
  split; [reflexivity |].
  intros e [_ He]. vm_compute in He. discriminate.
Defined.

Lemma loop_iteration_activates_offline_witness :
  devices_activated
    (loop_iteration default_config (detector_answering (Ok [[bus_rows]]))
       (Some hd_frame) 100 101 102 idle_system (mkWorld false [] [])).1.1
  = true.
Proof.
  pose proof (loop_iteration_activates_offline default_config
                (detector_answering (Ok [[bus_rows]])) hd_frame detected_bus
                100 101 102 idle_system (mkWorld false [] []) eq_refl
                first_school_bus_bus_rows eq_refl eq_refl) as Hpass.
  destruct (loop_iteration default_config
              (detector_answering (Ok [[bus_rows]])) (Some hd_frame)
              100 101 102 idle_system (mkWorld false [] []))
    as [[s' w'] events].
  apply Hpass.
Defined.

Lemma update_metrics_windows_witness :
  PerformanceMonitor.enabled (PerformanceMonitor.init true 0) = true
  /\ PerformanceMonitor.fps_history
       (foldl update_with
          (PerformanceMonitor.reset_metrics 7 (PerformanceMonitor.init true 0))
          [(1 # 20, 2%nat, true); (0, 0%nat, false)])
     = last_n 100 (rates [(1 # 20, 2%nat, true); (0, 0%nat, false)]).
Proof.
  split; [reflexivity |].
  apply (update_metrics_windows
           [(1 # 20, 2%nat, true); (0, 0%nat, false)]
           (PerformanceMonitor.init true 0) 7 eq_refl).
Defined.

Lemma cleanup_hands_out_nothing_witness :
  Camera.returned
    (Camera.run [Camera.ProducerStep (Some [1; 2; 3]%Z); Camera.ConsumerStep]
       (CameraManager.cleanup Camera.init))
  = [].
Proof.
  apply (cleanup_hands_out_nothing Camera.init
           [Camera.ProducerStep (Some [1; 2; 3]%Z); Camera.ConsumerStep]
           eq_refl).
Defined.

Lemma detect_boxes_ordered_witness :
  exists x1 y1 x2 y2 : Z,
    bbox detected_bus = Some (x1, y1, x2, y2)
    /\ (x1 <= x2)%Z /\ (y1 <= y2)%Z /\ (0 <= pixel_area detected_bus)%Z.
Proof.
  apply (detect_boxes_ordered (detector_answering (Ok [[bus_rows]]))
           hd_frame detected_bus).
  - intros x_center y_center w h rest Hin.
    apply list_elem_of_In in Hin. simpl in Hin.
    destruct Hin as [Heq | []]. injection Heq as <- <- <- <- <-.
    split; discriminate.
  - rewrite detect_bus_rows. left.
Defined.

Lemma detector_bus_is_class_five_witness :
  class_name detected_bus <> Some "school_bus".
Proof.
  apply (detector_bus_is_class_five default_config
           (detector_answering (Ok [[bus_rows]])) hd_frame detected_bus).
  rewrite detect_bus_rows. left.
Defined.

Lemma row_without_class_scores_witness :
  HailoDetector.detect
    (detector_answering (Ok [[bus_rows ++ classless_rows]])) hd_frame
  = [].
Proof.
  apply (row_without_class_scores
           (detector_answering (Ok [[bus_rows ++ classless_rows]])) hd_frame
           (fun _ => Ok [[bus_rows ++ classless_rows]])
           (bus_rows ++ classless_rows) [] [] [100; 100; 40; 40; 9 # 10]
           eq_refl eq_refl); [| reflexivity].
  apply list_elem_of_In. simpl. right. left. reflexivity.
Defined.

End ConcreteRuns.
